(** * pa-permission-template-generator: a shallow embedding of [main.py]

    The tool walks a directory tree, reads the POSIX permission bits of
    every file that is not excluded by a gitignore-style pattern, renders
    the records through a template and writes the result as JSON or YAML.

    Part I embeds the program: the library calls it makes ([stat],
    [os.path], [os.walk], [pathspec], [json]) and then its own functions
    ([get_file_permissions], [analyze_directory_permissions],
    [render_template], [write_output], [main]).  Part II states and proves
    the properties. *)

From Stdlib Require Import ZArith List String Ascii Bool Lia.
From Stdlib Require Decimal DecimalString DecimalPos DecimalN DecimalZ
  DecimalFacts.
Import ListNotations.
Set Warnings "-register-all".
Open Scope string_scope.
Open Scope list_scope.
Open Scope Z_scope.

(* ================================================================== *)
(** * Part I: the program *)
(* ================================================================== *)

(** ** Python truthiness of an integer: [bool(n)] *)

Definition py_bool (n : Z) : bool := negb (n =? 0).

(** ** The [stat] module (Lib/stat.py)

    [filemode] is the table-driven definition of [stat.py].  The C
    accelerator [_stat] that CPython loads over it gives the same
    permission characters, and the same type character for the seven
    standard file types. *)

Module stat.

Definition S_IFDIR  : Z := 0x4000.  (* 0o040000 *)
Definition S_IFCHR  : Z := 0x2000.  (* 0o020000 *)
Definition S_IFBLK  : Z := 0x6000.  (* 0o060000 *)
Definition S_IFREG  : Z := 0x8000.  (* 0o100000 *)
Definition S_IFIFO  : Z := 0x1000.  (* 0o010000 *)
Definition S_IFLNK  : Z := 0xA000.  (* 0o120000 *)
Definition S_IFSOCK : Z := 0xC000.  (* 0o140000 *)

Definition S_ISUID : Z := 0x800.    (* 0o4000 *)
Definition S_ISGID : Z := 0x400.    (* 0o2000 *)
Definition S_ISVTX : Z := 0x200.    (* 0o1000 *)
Definition S_IRUSR : Z := 0x100.    (* 0o0400 *)
Definition S_IWUSR : Z := 0x80.     (* 0o0200 *)
Definition S_IXUSR : Z := 0x40.     (* 0o0100 *)
Definition S_IRGRP : Z := 0x20.     (* 0o0040 *)
Definition S_IWGRP : Z := 0x10.     (* 0o0020 *)
Definition S_IXGRP : Z := 0x8.      (* 0o0010 *)
Definition S_IROTH : Z := 0x4.      (* 0o0004 *)
Definition S_IWOTH : Z := 0x2.      (* 0o0002 *)
Definition S_IXOTH : Z := 0x1.      (* 0o0001 *)

(** [S_IFMT(mode)]: the file-type field, [mode & 0o170000]. *)
Definition S_IFMT (mode : Z) : Z := Z.land mode 0xF000.

Definition S_ISDIR (mode : Z) : bool := S_IFMT mode =? S_IFDIR.
Definition S_ISREG (mode : Z) : bool := S_IFMT mode =? S_IFREG.

(** [_filemode_table]: one row per output character; in a row the first
    entry whose bits are all set in the mode gives the character. *)
Definition _filemode_table : list (list (Z * ascii)) :=
  [ [ (S_IFLNK, "l"); (S_IFSOCK, "s"); (S_IFREG, "-"); (S_IFBLK, "b");
      (S_IFDIR, "d"); (S_IFCHR, "c"); (S_IFIFO, "p") ];
    [ (S_IRUSR, "r") ];
    [ (S_IWUSR, "w") ];
    [ (Z.lor S_IXUSR S_ISUID, "s"); (S_ISUID, "S"); (S_IXUSR, "x") ];
    [ (S_IRGRP, "r") ];
    [ (S_IWGRP, "w") ];
    [ (Z.lor S_IXGRP S_ISGID, "s"); (S_ISGID, "S"); (S_IXGRP, "x") ];
    [ (S_IROTH, "r") ];
    [ (S_IWOTH, "w") ];
    [ (Z.lor S_IXOTH S_ISVTX, "t"); (S_ISVTX, "T"); (S_IXOTH, "x") ] ]%char.

(** The inner [for bit, char in table: ... else: perm.append("-")]. *)
Fixpoint filemode_row (mode : Z) (table : list (Z * ascii)) : ascii :=
  match table with
  | [] => "-"%char
  | (bit, char) :: rest =>
      if Z.land mode bit =? bit then char else filemode_row mode rest
  end.

(** [filemode(mode)]: the string of the form ['-rwxrwxrwx']. *)
Definition filemode (mode : Z) : string :=
  string_of_list_ascii (map (filemode_row mode) _filemode_table).

End stat.

(** ** [os.stat_result], as far as the program reads it *)

Record stat_result : Type := mk_stat_result {
  st_mode : Z;
  st_uid  : Z;
  st_gid  : Z;
  st_size : Z
}.

(** ** The dictionaries built by [get_file_permissions] (lines 75-95) *)

Record rwx : Type := mk_rwx {
  read    : bool;
  write   : bool;
  execute : bool
}.

Record permission_info : Type := mk_permission_info {
  user      : rwx;
  group     : rwx;
  other     : rwx;
  owner     : Z;
  group_id  : Z;
  mode      : string;
  file_size : Z
}.

(** The dictionary literal of [get_file_permissions], for a [stat_info]
    that [os.stat] returned. *)
Definition build_permissions (stat_info : stat_result) : permission_info :=
  {| user  := {| read    := py_bool (Z.land (st_mode stat_info) stat.S_IRUSR);
                 write   := py_bool (Z.land (st_mode stat_info) stat.S_IWUSR);
                 execute := py_bool (Z.land (st_mode stat_info) stat.S_IXUSR) |};
     group := {| read    := py_bool (Z.land (st_mode stat_info) stat.S_IRGRP);
                 write   := py_bool (Z.land (st_mode stat_info) stat.S_IWGRP);
                 execute := py_bool (Z.land (st_mode stat_info) stat.S_IXGRP) |};
     other := {| read    := py_bool (Z.land (st_mode stat_info) stat.S_IROTH);
                 write   := py_bool (Z.land (st_mode stat_info) stat.S_IWOTH);
                 execute := py_bool (Z.land (st_mode stat_info) stat.S_IXOTH) |};
     owner     := st_uid stat_info;
     group_id  := st_gid stat_info;
     mode      := stat.filemode (st_mode stat_info);
     file_size := st_size stat_info |}.

(** ** Exceptions and results

    A call either returns a value or raises.  Only the exception classes
    the program can meet are listed; [is_OSError] and [is_Exception] are
    the [except OSError] and [except Exception] tests. *)

Inductive exn : Type :=
| OSError (strerror : string)
| KeyError (key : string)
| TemplateError (message : string)
| JSONDecodeError
| YAMLError (message : string)
| OtherException (class_name : string)
| SystemExit (code : Z).

Definition is_OSError (e : exn) : bool :=
  match e with OSError _ => true | _ => false end.

Definition is_TemplateError (e : exn) : bool :=
  match e with TemplateError _ => true | _ => false end.

(** [SystemExit] derives from [BaseException], not from [Exception]. *)
Definition is_Exception (e : exn) : bool :=
  match e with SystemExit _ => false | _ => true end.

Inductive outcome (A : Type) : Type :=
| Returned (a : A)
| Raised (e : exn).
Arguments Returned {A} a.
Arguments Raised {A} e.

(** ** Paths

    A path is the list of its components, as [abspath(p).split('/')]
    without the empty strings gives them. *)

Definition path : Type := list string.

Fixpoint split_on (sep : ascii) (s : string) : list string :=
  match s with
  | EmptyString => [EmptyString]
  | String c s' =>
      if Ascii.eqb c sep then EmptyString :: split_on sep s'
      else match split_on sep s' with
           | [] => [String c EmptyString]
           | h :: t => String c h :: t
           end
  end.

Fixpoint endswith_char (c : ascii) (s : string) : bool :=
  match s with
  | EmptyString => false
  | String d EmptyString => Ascii.eqb d c
  | String _ s' => endswith_char c s'
  end.

Module os_path.

(** [join(root, name)] on component lists. *)
Definition join (root : path) (name : string) : path := root ++ [name].

(** [posixpath.join(a, *p)] on strings (lines 82-88). *)
Fixpoint join_str (a : string) (p : list string) : string :=
  match p with
  | [] => a
  | b :: p' =>
      join_str
        (if String.prefix "/" b then b
         else if (String.eqb a "" || endswith_char "/" a)%bool
              then (a ++ b)%string
              else (a ++ "/" ++ b)%string) p'
  end.

(** [genericpath.commonprefix] of two component lists. *)
Fixpoint commonprefix (a b : list string) : list string :=
  match a, b with
  | x :: a', y :: b' =>
      if String.eqb x y then x :: commonprefix a' b' else []
  | _, _ => []
  end.

(** [posixpath.relpath(path, start)] (lines 505-513). *)
Definition relpath (p start : path) : string :=
  let i := List.length (commonprefix start p) in
  let rel_list := repeat ".." (List.length start - i)%nat ++ skipn i p in
  match rel_list with
  | [] => "."
  | a :: rest => join_str a rest
  end.

End os_path.

(** ** The [pathspec] package

    [pathspec] is a third-party package; this is its documented behaviour.
    [util.lookup_pattern(name)] returns the pattern factory registered
    under [name] and raises [KeyError] when none is; the package registers
    [GitWildMatchPattern] as ['gitwildmatch'] (and, for older callers, as
    ['gitignore']).  Patterns are modelled for the gitignore syntax without
    bracket expressions and backslash escapes: a compiled pattern is its
    list of path segments, matched against the components of the file. *)

Module pathspec.

Inductive segment : Type :=
| Glob (g : string)     (* [*] and [?] inside one component *)
| StarStar.             (* [**] *)

Record Pattern : Type := mk_Pattern {
  include  : option bool;      (* [None]: a comment or blank line *)
  segments : list segment
}.

Definition PathSpec : Type := list Pattern.

(** One component against a glob: [*] is [[^/]*], [?] is [[^/]]. *)
Fixpoint glob_match (g : list ascii) (s : list ascii) : bool :=
  match g with
  | [] => match s with [] => true | _ => false end
  | c :: g' =>
      if Ascii.eqb c "*" then
        (fix star (s : list ascii) : bool :=
           glob_match g' s ||
           match s with [] => false | _ :: s' => star s' end) s
      else
        match s with
        | [] => false
        | d :: s' =>
            (Ascii.eqb c "?" || Ascii.eqb c d) && glob_match g' s'
        end
  end.

(** The segments against the components of a file.  Once every segment
    has matched, what is left of the path lies below the matched entry
    and is matched too. *)
Fixpoint match_segments (ps : list segment) (cs : list string) : bool :=
  match ps with
  | [] => true
  | Glob g :: ps' =>
      match cs with
      | [] => false
      | c :: cs' =>
          glob_match (list_ascii_of_string g) (list_ascii_of_string c)
          && match_segments ps' cs'
      end
  | StarStar :: ps' =>
      match ps' with
      | [] => match cs with [] => false | _ => true end
      | _ =>
          (fix skip (cs : list string) : bool :=
             match_segments ps' cs ||
             match cs with [] => false | _ :: cs' => skip cs' end) cs
      end
  end.

Definition segment_of (seg : string) : segment :=
  if String.eqb seg "**" then StarStar else Glob seg.

(** Collapses runs of [**] segments into one. *)
Fixpoint collapse_starstar (segs : list string) : list string :=
  match segs with
  | a :: rest =>
      match rest with
      | b :: _ =>
          if (String.eqb a "**" && String.eqb b "**")%bool
          then collapse_starstar rest
          else a :: collapse_starstar rest
      | [] => [a]
      end
  | [] => []
  end.

Definition replace_last_empty (segs : list string) : list string :=
  match rev segs with
  | last :: (_ :: _) as before =>
      if String.eqb last "" then rev ("**" :: before) else segs
  | _ => segs
  end.

(** [GitWildMatchPattern(pattern)]: [pattern_to_regex]. *)
Definition GitWildMatchPattern (pattern : string) : outcome Pattern :=
  if String.prefix "#" pattern then Returned (mk_Pattern None [])
  else if String.eqb pattern "/" then Returned (mk_Pattern None [])
  else if String.eqb pattern "" then Returned (mk_Pattern None [])
  else
    let negated := String.prefix "!" pattern in
    let body := if negated
                then substring 1 (String.length pattern - 1)%nat pattern
                else pattern in
    let segs := collapse_starstar (split_on "/" body) in
    match segs with
    | ["**"; ""] =>
        (* the [**/] edge case: everything below the root directory *)
        Returned (mk_Pattern (Some (negb negated)) [Glob "*"; StarStar])
    | _ =>
        let anchored :=
          match segs with
          | "" :: rest => rest                      (* leading slash *)
          | [one] =>
              if String.eqb one "**" then segs else "**" :: segs
          | [one; ""] =>
              if String.eqb one "**" then segs else "**" :: segs
          | _ => segs
          end in
        match anchored with
        | [] => Raised (OtherException "GitWildMatchPatternError")
        | _ =>
            Returned (mk_Pattern (Some (negb negated))
                        (map segment_of (replace_last_empty anchored)))
        end
    end.

(** [util.lookup_pattern(name)]: the registry of pattern factories. *)
Definition lookup_pattern (name : string)
  : outcome (string -> outcome Pattern) :=
  if String.eqb name "gitwildmatch" then Returned GitWildMatchPattern
  else if String.eqb name "gitignore" then Returned GitWildMatchPattern
  else Raised (KeyError name).

(** [[pattern_factory(line) for line in lines if line]]. *)
Fixpoint compile_lines (pattern_factory : string -> outcome Pattern)
         (lines : list string) : outcome PathSpec :=
  match lines with
  | [] => Returned []
  | line :: rest =>
      if String.eqb line "" then compile_lines pattern_factory rest
      else match pattern_factory line with
           | Raised e => Raised e
           | Returned p =>
               match compile_lines pattern_factory rest with
               | Raised e => Raised e
               | Returned ps => Returned (p :: ps)
               end
           end
  end.

(** [PathSpec.from_lines(pattern_factory, lines)] with the factory
    given by name. *)
Definition from_lines (pattern_factory : string) (lines : list string)
  : outcome PathSpec :=
  match lookup_pattern pattern_factory with
  | Raised e => Raised e
  | Returned factory => compile_lines factory lines
  end.

(** [util.normalize_file]: a leading [./] is dropped. *)
Definition normalize_file (file : string) : string :=
  if String.prefix "./" file
  then substring 2 (String.length file - 2)%nat file
  else file.

Definition pattern_matches (p : Pattern) (file : string) : bool :=
  match_segments (segments p) (split_on "/" file).

(** [PathSpec.match_file(file)]: the last pattern that matches the file
    decides; without a match the file is not matched. *)
Definition match_file (spec : PathSpec) (file : string) : bool :=
  let norm_file := normalize_file file in
  fold_left
    (fun matched p =>
       match include p with
       | Some inc => if pattern_matches p norm_file then inc else matched
       | None => matched
       end)
    spec false.

End pathspec.

(** ** The world the program runs in

    A directory as [os.scandir] and [os.walk] see it: its listing cannot
    be read, or it is a symbolic link (which [os.walk] does not follow), or
    it lists sub-directories and other entries, in directory order. *)

Inductive dirtree : Type :=
| Unreadable
| Symlink
| Listing (dirs : list (string * dirtree)) (nondirs : list string).

Inductive level : Type := DEBUG | INFO | WARNING | ERROR.

(** The messages of the program's [logging] calls. *)
Inductive log_msg : Type :=
| Error_getting_permissions (file_path : path) (e : exn)
| Excluding_file (file_path : path)
| Error_walking_directory (source_dir : path) (e : exn)
| Error_rendering_template (template_file : path) (e : exn)
| Invalid_JSON_data (e : exn)
| PyYAML_not_installed
| Invalid_YAML_data (e : exn)
| Invalid_output_format (output_format : string)
| Successfully_wrote_output (output_file : path)
| Error_writing_to_file (output_file : path) (e : exn)
| Unexpected_error (e : exn)
| Source_directory_missing (source_dir : path)
| Template_file_missing (template_file : path)
| No_permissions_data.

(** What a run does that can be observed: log records, [os.stat] calls
    and files opened for writing. *)
Inductive event : Type :=
| EvLog (lvl : level) (msg : log_msg)
| EvStat (p : path)
| EvOpen (p : path).

Record world : Type := mk_world {
  w_tree   : path -> dirtree;               (* what a walk from a path finds *)
  w_stat   : path -> string + stat_result;  (* [os.stat]: strerror or result *)
  w_isdir  : path -> bool;
  w_isfile : path -> bool;
  w_open   : path -> option string;         (* strerror of [open(p, "w")] *)
  w_files  : path -> option string;         (* the text of the files *)
  w_trace  : list event
}.

Definition add_events (evs : list event) (w : world) : world :=
  {| w_tree := w_tree w; w_stat := w_stat w; w_isdir := w_isdir w;
     w_isfile := w_isfile w; w_open := w_open w; w_files := w_files w;
     w_trace := w_trace w ++ evs |}.

Fixpoint path_eqb (p q : path) : bool :=
  match p, q with
  | [], [] => true
  | a :: p', b :: q' => String.eqb a b && path_eqb p' q'
  | _, _ => false
  end.

Definition set_file (p : path) (text : string) (w : world) : world :=
  {| w_tree := w_tree w; w_stat := w_stat w; w_isdir := w_isdir w;
     w_isfile := w_isfile w; w_open := w_open w;
     w_files := fun q => if path_eqb q p then Some text else w_files w q;
     w_trace := w_trace w |}.

(** ** Computations: state passing with exceptions *)

Definition IO (A : Type) : Type := world -> outcome A * world.

Definition ret {A : Type} (a : A) : IO A := fun w => (Returned a, w).

Definition raise {A : Type} (e : exn) : IO A := fun w => (Raised e, w).

Definition bind {A B : Type} (c : IO A) (k : A -> IO B) : IO B :=
  fun w =>
    match c w with
    | (Returned a, w') => k a w'
    | (Raised e, w') => (Raised e, w')
    end.

Notation "x <- c ;; k" := (bind c (fun x => k))
  (at level 61, c at next level, right associativity).
Notation "c ;;; k" := (bind c (fun _ => k))
  (at level 61, right associativity).

(** [try: body except <class> as e: handler e]. *)
Definition try_except {A : Type} (body : IO A) (catches : exn -> bool)
           (handler : exn -> IO A) : IO A :=
  fun w =>
    match body w with
    | (Returned a, w') => (Returned a, w')
    | (Raised e, w') => if catches e then handler e w' else (Raised e, w')
    end.

Definition lift {A : Type} (o : outcome A) : IO A := fun w => (o, w).

Definition emit (ev : event) : IO unit :=
  fun w => (Returned tt, add_events [ev] w).

Definition logging (lvl : level) (msg : log_msg) : IO unit :=
  emit (EvLog lvl msg).

(** A [for] loop that updates a local variable. *)
Fixpoint for_each {A S : Type} (l : list A) (body : A -> S -> IO S) (s : S)
  : IO S :=
  match l with
  | [] => ret s
  | a :: l' => s' <- body a s ;; for_each l' body s'
  end.

(** [os.stat(p)] for a path without an embedded NUL character (such a
    path is refused with [ValueError] before any system call; the walk
    yields none, since no file name holds a NUL). *)
Definition os_stat (p : path) : IO stat_result :=
  emit (EvStat p) ;;;
  fun w =>
    match w_stat w p with
    | inr stat_info => (Returned stat_info, w)
    | inl strerror => (Raised (OSError strerror), w)
    end.

(** [os.walk(top)], top down, errors of [scandir] ignored ([onerror] is
    [None]), symbolic links to directories listed but not entered. *)
Fixpoint os_walk (top : path) (t : dirtree)
  : list (path * list string * list string) :=
  match t with
  | Listing dirs nondirs =>
      (top, map fst dirs, nondirs) ::
      flat_map (fun d => os_walk (os_path.join top (fst d)) (snd d)) dirs
  | Unreadable => []
  | Symlink => []
  end.

Definition os_walk_from (top : path)
  : IO (list (path * list string * list string)) :=
  fun w => (Returned (os_walk top (w_tree w top)), w).

(** ** [get_file_permissions] (lines 62-99) *)

Definition get_file_permissions (file_path : path)
  : IO (option permission_info) :=
  try_except
    (stat_info <- os_stat file_path ;;
     ret (Some (build_permissions stat_info)))
    is_OSError
    (fun e =>
       logging ERROR (Error_getting_permissions file_path e) ;;;
       ret None).

(** ** [analyze_directory_permissions] (lines 102-137) *)

(** The dictionary [{"file_path": ..., "permissions": ...}]. *)
Record file_record : Type := mk_file_record {
  file_path   : string;
  permissions : permission_info
}.

(** The body of the inner loop (lines 121-133). *)
Definition scan_file (spec : pathspec.PathSpec) (source_dir root : path)
           (file : string) (file_permissions_data : list file_record)
  : IO (list file_record) :=
  let file_path := os_path.join root file in
  let relative_path := os_path.relpath file_path source_dir in
  if pathspec.match_file spec relative_path then
    logging DEBUG (Excluding_file file_path) ;;;
    ret file_permissions_data
  else
    permissions <- get_file_permissions file_path ;;
    match permissions with
    | Some p =>
        ret (file_permissions_data ++ [mk_file_record relative_path p])
    | None => ret file_permissions_data
    end.

(** The two nested loops over [os.walk(source_dir)] (lines 119-133). *)
Definition scan_walk (spec : pathspec.PathSpec) (source_dir : path)
  : IO (list file_record) :=
  walk <- os_walk_from source_dir ;;
  for_each walk
    (fun '(root, _, files) data =>
       for_each files (scan_file spec source_dir root) data)
    [].

(** The function with the name of the pattern factory as an argument. *)
Definition analyze_with_factory (pattern_factory : string)
           (source_dir : path) (exclude_patterns : list string)
  : IO (list file_record) :=
  try_except
    (spec <- lift (pathspec.from_lines pattern_factory exclude_patterns) ;;
     scan_walk spec source_dir)
    is_OSError
    (fun e =>
       logging ERROR (Error_walking_directory source_dir e) ;;;
       ret []).

(** Line 118 passes the name ["gitwildcard"]. *)
Definition analyze_directory_permissions
           (source_dir : path) (exclude_patterns : list string)
  : IO (list file_record) :=
  analyze_with_factory "gitwildcard" source_dir exclude_patterns.

(** ** Text

    A Python [str] is the list of its code points.  What is on disk is a
    [string] of bytes.  The program writes ASCII characters only (the
    encoders escape the rest), which are the same bytes in every encoding
    that [open] may use; [codes] reads such bytes as text. *)

Definition pytext : Type := list Z.

Definition ord (c : ascii) : Z := Z.of_N (N_of_ascii c).
Definition chr (n : Z) : ascii := ascii_of_N (Z.to_N n).

Fixpoint codes (s : string) : pytext :=
  match s with
  | EmptyString => []
  | String c r => ord c :: codes r
  end.

Fixpoint string_of_codes (t : pytext) : string :=
  match t with
  | [] => EmptyString
  | c :: r => String (chr c) (string_of_codes r)
  end.

Definition codepoint_ok (c : Z) : bool := (0 <=? c) && (c <? 0x110000).

(** A [str]: every element is a code point. *)
Definition is_str (t : pytext) : bool := forallb codepoint_ok t.

Definition dquote : ascii := "034"%char.
Definition newline : ascii := "010"%char.

(** Two exceptions of the interpreter that the JSON decoder can meet. *)
Definition ValueError : exn := OtherException "ValueError".
Definition RecursionError : exn := OtherException "RecursionError".

(** ** Collaborators outside the program

    What the program takes from what is not modelled here.  Python's
    [float]: its constructor from a literal and the text the JSON encoder
    writes for it.  Two settings of the interpreter: the longest decimal
    integer that [int] converts ([sys.get_int_max_str_digits()], 4300
    unless changed, 0 for no limit) and how deep the recursion limit lets
    the JSON decoder nest at the call in [write_output] (the encoder, which
    also takes one frame for each level of nesting, is taken to get as
    deep as the decoder did).  PyYAML, which may be
    absent: [import yaml] then fails.  The Jinja2 engine, which turns a
    template source and the records into text or raises. *)

Class Externals : Type := {
  pyfloat            : Type;
  float_of_literal   : pytext -> pyfloat;
  floatstr           : pyfloat -> string;
  int_max_str_digits : nat;
  recursion_depth    : nat;
  yaml_installed     : bool;
  yaml_value         : Type;
  yaml_safe_load     : pytext -> outcome yaml_value;
  yaml_dump          : yaml_value -> string;
  jinja2_render      : string -> list file_record -> outcome pytext
}.

(** ** The [json] module

    A decoded Python string is the list of its code points.  The decoder
    is the C scanner that CPython uses ([_json.c]), the encoder the one of
    [json/encoder.py] with [ensure_ascii] and an indent. *)

Module json.

(** What a scanning function gives: a result and the text after it, or
    the exception it raises. *)
Inductive scanned (A : Type) : Type :=
| Scanned (a : A) (rest : pytext)
| Failed (e : exn).
Arguments Scanned {A} a rest.
Arguments Failed {A} e.

Section WithExternals.
Context `{Ext : Externals}.

Definition pystr : Type := list Z.

Inductive value : Type :=
| Null
| Bool (b : bool)
| Int (n : Z)
| Float (f : pyfloat)
| Str (s : pystr)
| Array (items : list value)
| Object (members : list (pystr * value)).

Fixpoint pystr_eqb (a b : pystr) : bool :=
  match a, b with
  | [], [] => true
  | x :: a', y :: b' => (x =? y) && pystr_eqb a' b'
  | _, _ => false
  end.

(** [d[key] = v] on a dictionary kept in insertion order. *)
Fixpoint dict_set (key : pystr) (v : value) (d : list (pystr * value))
  : list (pystr * value) :=
  match d with
  | [] => [(key, v)]
  | (k, old) :: d' =>
      if pystr_eqb k key then (k, v) :: d' else (k, old) :: dict_set key v d'
  end.

(** [dict(pairs)]. *)
Definition dict_of_pairs (pairs : list (pystr * value))
  : list (pystr * value) :=
  fold_left (fun d kv => dict_set (fst kv) (snd kv) d) pairs [].

(** *** Decoding *)

Definition is_ws (c : Z) : bool :=
  (c =? ord " ") || (c =? ord "009") || (c =? ord "010") || (c =? ord "013").

Fixpoint skip_ws (s : pytext) : pytext :=
  match s with
  | c :: r => if is_ws c then skip_ws r else s
  | [] => s
  end.

Definition expect (c : ascii) (s : pytext) : option pytext :=
  match s with
  | d :: r => if d =? ord c then Some r else None
  | [] => None
  end.

Definition hex_value (c : Z) : option Z :=
  if (ord "0" <=? c) && (c <=? ord "9") then Some (c - ord "0")
  else if (ord "a" <=? c) && (c <=? ord "f") then Some (c - ord "a" + 10)
  else if (ord "A" <=? c) && (c <=? ord "F") then Some (c - ord "A" + 10)
  else None.

Definition hex4_value (a b c d : Z) : option Z :=
  match hex_value a, hex_value b, hex_value c, hex_value d with
  | Some x, Some y, Some z, Some t =>
      Some (Z.lor (Z.shiftl (Z.lor (Z.shiftl (Z.lor (Z.shiftl x 4) y) 4) z) 4) t)
  | _, _, _, _ => None
  end.

(** The one-letter escapes. *)
Definition BACKSLASH (e : Z) : option Z :=
  if e =? ord dquote then Some 34
  else if e =? ord "\" then Some 92
  else if e =? ord "/" then Some 47
  else if e =? ord "b" then Some 8
  else if e =? ord "f" then Some 12
  else if e =? ord "n" then Some 10
  else if e =? ord "r" then Some 13
  else if e =? ord "t" then Some 9
  else None.

Definition is_high_surrogate (u : Z) : bool := (0xD800 <=? u) && (u <=? 0xDBFF).
Definition is_low_surrogate (u : Z) : bool := (0xDC00 <=? u) && (u <=? 0xDFFF).

(** [Py_UNICODE_JOIN_SURROGATES]. *)
Definition join_surrogates (hi lo : Z) : Z :=
  0x10000 + Z.lor (Z.shiftl (hi - 0xD800) 10) (lo - 0xDC00).

Definition cons_char (c : Z) (r : scanned pystr) : scanned pystr :=
  match r with
  | Scanned str rest => Scanned (c :: str) rest
  | Failed e => Failed e
  end.

Definition is_nil (s : pytext) : bool :=
  match s with [] => true | _ => false end.

(** [scanstring_unicode(pystr, end, strict=1)], with [s] starting after
    the opening quote.  A character of the text is copied as it is; a
    [\u] escape of a high surrogate is joined with a [\u] escape of a low
    surrogate that directly follows it, when the text goes on after the
    two. *)
Fixpoint scanstring (s : pytext) : scanned pystr :=
  match s with
  | [] => Failed JSONDecodeError
  | c :: r =>
      if c =? ord dquote then Scanned [] r
      else if c =? ord "\" then
        match r with
        | [] => Failed JSONDecodeError
        | e :: r' =>
            if e =? ord "u" then
              match r' with
              | h1 :: h2 :: h3 :: h4 :: r'' =>
                  match hex4_value h1 h2 h3 h4 with
                  | None => Failed JSONDecodeError
                  | Some uni =>
                      match r'' with
                      | b :: u :: l1 :: l2 :: l3 :: l4 :: r3 =>
                          if is_high_surrogate uni && negb (is_nil r3)
                             && (b =? ord "\") && (u =? ord "u")
                          then
                            match hex4_value l1 l2 l3 l4 with
                            | None => Failed JSONDecodeError
                            | Some uni2 =>
                                if is_low_surrogate uni2
                                then cons_char (join_surrogates uni uni2)
                                               (scanstring r3)
                                else cons_char uni (scanstring r'')
                            end
                          else cons_char uni (scanstring r'')
                      | _ => cons_char uni (scanstring r'')
                      end
                  end
              | _ => Failed JSONDecodeError
              end
            else
              match BACKSLASH e with
              | Some ch => cons_char ch (scanstring r')
              | None => Failed JSONDecodeError
              end
        end
      else if c <? 32 then Failed JSONDecodeError
      else cons_char c (scanstring r)
  end.

Definition is_digit (c : Z) : bool := (ord "0" <=? c) && (c <=? ord "9").

Fixpoint span_digits (s : pytext) : pytext * pytext :=
  match s with
  | c :: r =>
      if is_digit c
      then let '(ds, rest) := span_digits r in (c :: ds, rest)
      else ([], s)
  | [] => ([], [])
  end.

(** [int(digits)] for a text of decimal digits. *)
Definition int_of_digits (digits : pytext) : Z :=
  match DecimalString.NilEmpty.uint_of_string (string_of_codes digits) with
  | Some u => Z.of_uint u
  | None => 0
  end.

(** [int] refuses a decimal text of more digits than the limit of the
    interpreter, when it has more than 640 and a limit is set. *)
Definition _PY_LONG_MAX_STR_DIGITS_THRESHOLD : nat := 640.

Definition too_many_digits (digits : nat) : bool :=
  (_PY_LONG_MAX_STR_DIGITS_THRESHOLD <? digits)%nat
  && (0 <? int_max_str_digits)%nat
  && (int_max_str_digits <? digits)%nat.

(** The parts of a number: a zero or a non-zero digit with more digits,
    then optionally a dot with digits, then optionally an exponent.  Each
    part gives its text and what follows it. *)
Definition scan_int_part (c : Z) (r : pytext) : pytext * pytext :=
  if c =? ord "0" then ([c], r)
  else let '(ds, rest) := span_digits r in (c :: ds, rest).

Definition scan_frac (r1 : pytext) : pytext * pytext :=
  match r1 with
  | dot :: r' =>
      if dot =? ord "." then
        let '(fs, rest) := span_digits r' in
        match fs with
        | [] => ([], r1)
        | _ => (dot :: fs, rest)
        end
      else ([], r1)
  | [] => ([], r1)
  end.

Definition scan_exp (r2 : pytext) : pytext * pytext :=
  match r2 with
  | e :: r' =>
      if (e =? ord "e") || (e =? ord "E") then
        let '(sign, r'') :=
          match r' with
          | sg :: t =>
              if (sg =? ord "+") || (sg =? ord "-")
              then ([sg], t)
              else ([], r')
          | [] => ([], r')
          end in
        let '(es, rest) := span_digits r'' in
        match es with
        | [] => ([], r2)
        | _ => (e :: sign ++ es, rest)
        end
      else ([], r2)
  | [] => ([], r2)
  end.

(** The number at the start of [s], with an optional minus sign.  A
    fraction or an exponent makes it a [float]; otherwise it is an [int],
    which has the limit on its digits. *)
Definition scan_number (s : pytext) : scanned value :=
  let '(negative, s1) :=
    match s with
    | c :: r => if c =? ord "-" then (true, r) else (false, s)
    | [] => (false, s)
    end in
  match s1 with
  | [] => Failed JSONDecodeError
  | c :: r =>
      if is_digit c then
        let '(int_part, r1) := scan_int_part c r in
        let '(frac, r2) := scan_frac r1 in
        let '(exp, r3) := scan_exp r2 in
        match frac, exp with
        | [], [] =>
            if too_many_digits (List.length int_part)
            then Failed ValueError
            else Scanned (Int (if negative then - int_of_digits int_part
                               else int_of_digits int_part)) r3
        | _, _ =>
            Scanned (Float (float_of_literal
                              ((if negative then codes "-" else [])
                                 ++ int_part ++ frac ++ exp))) r3
        end
      else Failed JSONDecodeError
  end.

Fixpoint starts_with (p s : pytext) : bool :=
  match p, s with
  | [], _ => true
  | a :: p', b :: s' => (a =? b) && starts_with p' s'
  | _ :: _, [] => false
  end.

(** [scan_once(string, idx)] with the loops of [JSONArray] and
    [JSONObject].  [depth] is how many levels of nesting the recursion
    limit still allows.  [fuel] only makes the recursion structural: each
    value and each turn of a loop takes one, and [loads] gives more than
    twice the length of the text, which is never used up. *)
Fixpoint scan_once (fuel depth : nat) (s : pytext) {struct fuel}
  : scanned value :=
  match fuel with
  | O => Failed JSONDecodeError
  | S fuel' =>
      match s with
      | [] => Failed JSONDecodeError
      | c :: r =>
          if c =? ord dquote then
            match scanstring r with
            | Scanned str rest => Scanned (Str str) rest
            | Failed e => Failed e
            end
          else if c =? ord "{" then
            match depth with
            | O => Failed RecursionError
            | S depth' =>
                match skip_ws r with
                | [] => Failed JSONDecodeError
                | c1 :: r1 =>
                    if c1 =? ord "}" then Scanned (Object []) r1
                    else if c1 =? ord dquote then
                      match object_loop fuel' depth' r1 with
                      | Scanned pairs rest =>
                          Scanned (Object (dict_of_pairs pairs)) rest
                      | Failed e => Failed e
                      end
                    else Failed JSONDecodeError
                end
            end
          else if c =? ord "[" then
            match depth with
            | O => Failed RecursionError
            | S depth' =>
                match skip_ws r with
                | [] => Failed JSONDecodeError
                | c1 :: r1 =>
                    if c1 =? ord "]" then Scanned (Array []) r1
                    else
                      match array_loop fuel' depth' (c1 :: r1) with
                      | Scanned items rest => Scanned (Array items) rest
                      | Failed e => Failed e
                      end
                end
            end
          else if starts_with (codes "null") s then Scanned Null (skipn 4 s)
          else if starts_with (codes "true") s
               then Scanned (Bool true) (skipn 4 s)
          else if starts_with (codes "false") s
               then Scanned (Bool false) (skipn 5 s)
          else if starts_with (codes "NaN") s
               then Scanned (Float (float_of_literal (codes "NaN")))
                            (skipn 3 s)
          else if starts_with (codes "Infinity") s
               then Scanned (Float (float_of_literal (codes "Infinity")))
                            (skipn 8 s)
          else if starts_with (codes "-Infinity") s
               then Scanned (Float (float_of_literal (codes "-Infinity")))
                            (skipn 9 s)
          else scan_number s
      end
  end

with array_loop (fuel depth : nat) (s : pytext) {struct fuel}
  : scanned (list value) :=
  match fuel with
  | O => Failed JSONDecodeError
  | S fuel' =>
      match scan_once fuel' depth s with
      | Failed e => Failed e
      | Scanned v r =>
          match skip_ws r with
          | [] => Failed JSONDecodeError
          | c :: r1 =>
              if c =? ord "]" then Scanned [v] r1
              else if c =? ord "," then
                match array_loop fuel' depth (skip_ws r1) with
                | Scanned vs rest => Scanned (v :: vs) rest
                | Failed e => Failed e
                end
              else Failed JSONDecodeError
          end
      end
  end

with object_loop (fuel depth : nat) (s : pytext) {struct fuel}
  : scanned (list (pystr * value)) :=
  match fuel with
  | O => Failed JSONDecodeError
  | S fuel' =>
      match scanstring s with
      | Failed e => Failed e
      | Scanned key r =>
          match expect ":" (skip_ws r) with
          | None => Failed JSONDecodeError
          | Some r1 =>
              match scan_once fuel' depth (skip_ws r1) with
              | Failed e => Failed e
              | Scanned v r2 =>
                  match skip_ws r2 with
                  | [] => Failed JSONDecodeError
                  | c :: r3 =>
                      if c =? ord "}" then Scanned [(key, v)] r3
                      else if c =? ord "," then
                        match expect dquote (skip_ws r3) with
                        | None => Failed JSONDecodeError
                        | Some r4 =>
                            match object_loop fuel' depth r4 with
                            | Scanned ms rest => Scanned ((key, v) :: ms) rest
                            | Failed e => Failed e
                            end
                        end
                      else Failed JSONDecodeError
                  end
              end
          end
      end
  end.

(** [json.loads(s)] for a [str]: leading white space, one value, trailing
    white space, nothing else.  An integer of too many digits ends it with
    [ValueError] and too deep a nesting with [RecursionError], neither of
    which is a [JSONDecodeError]. *)
Definition loads (s : pytext) : outcome value :=
  match scan_once (S (2 * List.length s)) recursion_depth (skip_ws s) with
  | Scanned v rest =>
      match skip_ws rest with
      | [] => Returned v
      | _ => Raised JSONDecodeError
      end
  | Failed e => Raised e
  end.

(** *** Encoding *)

Definition hex_digit (d : Z) : ascii :=
  match String.get (Z.to_nat d) "0123456789abcdef" with
  | Some c => c
  | None => "0"%char
  end.

(** ['{0:04x}'.format(n)] for [n] below [0x10000]. *)
Definition hex4 (n : Z) : string :=
  String (hex_digit (Z.land (Z.shiftr n 12) 15))
    (String (hex_digit (Z.land (Z.shiftr n 8) 15))
       (String (hex_digit (Z.land (Z.shiftr n 4) 15))
          (String (hex_digit (Z.land n 15)) EmptyString))).

(** The replacement of one character in [py_encode_basestring_ascii]. *)
Definition escape_ascii (c : Z) : string :=
  if c =? 34 then String "\" (String dquote EmptyString)
  else if c =? 92 then "\\"
  else if c =? 8 then "\b"
  else if c =? 12 then "\f"
  else if c =? 10 then "\n"
  else if c =? 13 then "\r"
  else if c =? 9 then "\t"
  else if (32 <=? c) && (c <=? 126) then String (chr c) EmptyString
  else if c <? 0x10000 then "\u" ++ hex4 c
  else
    let n := c - 0x10000 in
    "\u" ++ hex4 (Z.lor 0xD800 (Z.land (Z.shiftr n 10) 0x3FF))
         ++ "\u" ++ hex4 (Z.lor 0xDC00 (Z.land n 0x3FF)).

Definition encode_basestring_ascii (s : pystr) : string :=
  String dquote (String.concat "" (map escape_ascii s))
    ++ String dquote EmptyString.

(** [int.__repr__]. *)
Definition intstr (n : Z) : string := DecimalString.NilZero.string_of_int (Z.to_int n).

Fixpoint spaces (n : nat) : string :=
  match n with
  | O => EmptyString
  | S n' => String " " (spaces n')
  end.

(** ['\n' + _indent * level] for an indent of four spaces. *)
Definition newline_indent (level : nat) : string :=
  String newline (spaces (4 * level)).

(** [_iterencode(o, level)] with [indent=4], the chunks concatenated. *)
Fixpoint iterencode (o : value) (level : nat) {struct o} : string :=
  match o with
  | Null => "null"
  | Bool true => "true"
  | Bool false => "false"
  | Int n => intstr n
  | Float f => floatstr f
  | Str s => encode_basestring_ascii s
  | Array [] => "[]"
  | Array items =>
      "[" ++ newline_indent (S level)
          ++ String.concat ("," ++ newline_indent (S level))
               (map (fun v => iterencode v (S level)) items)
          ++ newline_indent level ++ "]"
  | Object [] => "{}"
  | Object members =>
      "{" ++ newline_indent (S level)
          ++ String.concat ("," ++ newline_indent (S level))
               (map (fun kv => (encode_basestring_ascii (fst kv) ++ ": "
                                  ++ iterencode (snd kv) (S level))%string)
                    members)
          ++ newline_indent level ++ "}"
  end.

(** The text that [json.dump(obj, fp, indent=4)] writes. *)
Definition dumps_indent4 (obj : value) : string := iterencode obj 0.

(** *** Shapes of values *)

(** The floats of a value. *)
Fixpoint floats (v : value) : list pyfloat :=
  match v with
  | Float f => [f]
  | Array items => flat_map floats items
  | Object members => flat_map (fun kv => floats (snd kv)) members
  | _ => []
  end.

(** The text that the encoder writes for [f] is read by the decoder,
    whole, as [f]: what Python promises of [float.__repr__] and [float]. *)
Definition float_reads_back (f : pyfloat) : Prop :=
  scan_once 1 0 (codes (floatstr f)) = Scanned (Float f) [].

(** No high surrogate directly before a low one. *)
Fixpoint no_pair (s : pystr) : bool :=
  match s with
  | a :: t =>
      match t with
      | b :: _ => negb (is_high_surrogate a && is_low_surrogate b) && no_pair t
      | [] => true
      end
  | [] => true
  end.

(** No string of the value, key or not, holds such a pair. *)
Fixpoint pairs_free (v : value) : bool :=
  match v with
  | Str s => no_pair s
  | Array items => forallb pairs_free items
  | Object members =>
      forallb (fun kv => no_pair (fst kv)) members
      && forallb (fun kv => pairs_free (snd kv)) members
  | _ => true
  end.

Fixpoint keys_unique (members : list (pystr * value)) : bool :=
  match members with
  | [] => true
  | (k, _) :: t =>
      negb (existsb (fun kv => pystr_eqb (fst kv) k) t) && keys_unique t
  end.

(** The number of decimal digits of an integer. *)
Definition digits_of (n : Z) : nat := String.length (intstr (Z.abs n)).

(** A value as the decoder builds them from a [str]: strings of code
    points, integers within the limit on digits, the keys of a dictionary
    pairwise different. *)
Fixpoint well_formed (v : value) : bool :=
  match v with
  | Int n => negb (too_many_digits (digits_of n))
  | Str s => is_str s
  | Array items => forallb well_formed items
  | Object members =>
      keys_unique members
      && forallb (fun kv => is_str (fst kv)) members
      && forallb (fun kv => well_formed (snd kv)) members
  | _ => true
  end.

(** The depth of nesting of a value. *)
Fixpoint depth (v : value) : nat :=
  match v with
  | Array items => S (fold_right (fun x d => Nat.max (depth x) d) O items)
  | Object members =>
      S (fold_right (fun kv d => Nat.max (depth (snd kv)) d) O members)
  | _ => O
  end.

(** Fuel that is enough to decode the text of a value. *)
Fixpoint need (v : value) : nat :=
  match v with
  | Array items => S (list_sum (map (fun v => S (need v)) items))
  | Object members => S (list_sum (map (fun kv => S (need (snd kv))) members))
  | _ => 1
  end.

End WithExternals.
End json.

(** ** Files *)

(** [open(p, "w")]: raises [OSError] when the destination cannot be
    opened for writing, and truncates the file otherwise. *)
Definition open_w (p : path) : IO unit :=
  emit (EvOpen p) ;;;
  fun w =>
    match w_open w p with
    | Some strerror => (Raised (OSError strerror), w)
    | None => (Returned tt, set_file p EmptyString w)
    end.

(** [f.write(text)] on the file opened at [p]. *)
Definition file_write (p : path) (text : string) : IO unit :=
  fun w =>
    match w_files w p with
    | Some old => (Returned tt, set_file p (old ++ text) w)
    | None => (Returned tt, set_file p text w)
    end.

Definition os_path_isdir (p : path) : IO bool :=
  fun w => (Returned (w_isdir w p), w).

Definition os_path_isfile (p : path) : IO bool :=
  fun w => (Returned (w_isfile w p), w).

(** [sys.exit(code)]. *)
Definition sys_exit {A : Type} (code : Z) : IO A := raise (SystemExit code).

(** The exit status of the process for the way [main] ends: 0 when it
    returns, the code of [sys.exit], 1 for an exception nobody caught. *)
Definition exit_status {A : Type} (o : outcome A) : Z :=
  match o with
  | Returned _ => 0
  | Raised (SystemExit code) => code
  | Raised _ => 1
  end.

Record arguments : Type := mk_arguments {
  source_dir       : path;
  output_file      : path;
  template_file    : path;
  exclude_patterns : list string;
  output_format    : string
}.

Section Program.
Context `{Ext : Externals}.

(** ** [render_template] (lines 140-163) *)

(** [env.get_template(...)]: the source of the template file. *)
Definition get_template (template_file : path) : IO string :=
  fun w =>
    match w_files w template_file with
    | Some source => (Returned source, w)
    | None => (Raised (TemplateError "TemplateNotFound"), w)
    end.

Definition render_template (template_file : path) (data : list file_record)
  : IO (option pytext) :=
  try_except
    (template <- get_template template_file ;;
     rendered_template <- lift (jinja2_render template data) ;;
     ret (Some rendered_template))
    is_TemplateError
    (fun e =>
       logging ERROR (Error_rendering_template template_file e) ;;;
       ret None).

(** ** [write_output] (lines 166-212) *)

Definition is_JSONDecodeError (e : exn) : bool :=
  match e with JSONDecodeError => true | _ => false end.

Definition is_YAMLError (e : exn) : bool :=
  match e with YAMLError _ => true | _ => false end.

Definition write_output (output_file : path) (data : pytext)
           (output_format : string) : IO unit :=
  try_except
    (if String.eqb output_format "json" then
       json_data <-
         try_except
           (v <- lift (json.loads data) ;; ret (Some v))
           is_JSONDecodeError
           (fun e => logging ERROR (Invalid_JSON_data e) ;;; ret None) ;;
       match json_data with
       | None => ret tt
       | Some json_data =>
           open_w output_file ;;;
           file_write output_file (json.dumps_indent4 json_data) ;;;
           logging INFO (Successfully_wrote_output output_file)
       end
     else if String.eqb output_format "yaml" then
       if yaml_installed then
         yaml_data <-
           try_except
             (v <- lift (yaml_safe_load data) ;; ret (Some v))
             is_YAMLError
             (fun e => logging ERROR (Invalid_YAML_data e) ;;; ret None) ;;
         match yaml_data with
         | None => ret tt
         | Some yaml_data =>
             open_w output_file ;;;
             file_write output_file (yaml_dump yaml_data) ;;;
             logging INFO (Successfully_wrote_output output_file)
         end
       else logging ERROR PyYAML_not_installed
     else logging ERROR (Invalid_output_format output_format))
    is_Exception
    (fun e =>
       if is_OSError e
       then logging ERROR (Error_writing_to_file output_file e)
       else logging ERROR (Unexpected_error e)).

(** ** [main] (lines 215-246) *)

(** Lines 236-246: what [main] does with the collected records. *)
Definition render_and_write (args : arguments)
           (permissions_data : list file_record) : IO unit :=
  (match permissions_data with
   | [] => logging WARNING No_permissions_data
   | _ => ret tt
   end) ;;;
  rendered_template <- render_template (template_file args) permissions_data ;;
  match rendered_template with
  | None => sys_exit 1
  | Some text => write_output (output_file args) text (output_format args)
  end.

Definition main (args : arguments) : IO unit :=
  isdir <- os_path_isdir (source_dir args) ;;
  (if negb isdir
   then logging ERROR (Source_directory_missing (source_dir args)) ;;;
        sys_exit 1
   else ret tt) ;;;
  isfile <- os_path_isfile (template_file args) ;;
  (if negb isfile
   then logging ERROR (Template_file_missing (template_file args)) ;;;
        sys_exit 1
   else ret tt) ;;;
  permissions_data <-
    analyze_directory_permissions (source_dir args) (exclude_patterns args) ;;
  render_and_write args permissions_data.

End Program.

(** ** What one pass of the scan yields

    The records appended and the events emitted for one file and for a
    whole walk, as functions of the pattern spec and of [os.stat]; the
    proofs show that the loops compute exactly these. *)

Definition file_result (spec : pathspec.PathSpec) (source_dir : path)
           (stat_of : path -> string + stat_result)
           (root : path) (file : string) : list file_record * list event :=
  let fp := os_path.join root file in
  let rel := os_path.relpath fp source_dir in
  if pathspec.match_file spec rel then
    ([], [EvLog DEBUG (Excluding_file fp)])
  else
    match stat_of fp with
    | inr stat_info =>
        ([mk_file_record rel (build_permissions stat_info)], [EvStat fp])
    | inl strerror =>
        ([], [EvStat fp;
              EvLog ERROR (Error_getting_permissions fp (OSError strerror))])
    end.

Definition dir_result (spec : pathspec.PathSpec) (source_dir : path)
           (stat_of : path -> string + stat_result)
           (triple : path * list string * list string)
  : list file_record * list event :=
  let '(root, _, files) := triple in
  (flat_map (fun f => fst (file_result spec source_dir stat_of root f)) files,
   flat_map (fun f => snd (file_result spec source_dir stat_of root f)) files).

Definition scan_records (spec : pathspec.PathSpec) (source_dir : path)
           (stat_of : path -> string + stat_result)
           (walk : list (path * list string * list string))
  : list file_record :=
  flat_map (fun t => fst (dir_result spec source_dir stat_of t)) walk.

Definition scan_events (spec : pathspec.PathSpec) (source_dir : path)
           (stat_of : path -> string + stat_result)
           (walk : list (path * list string * list string))
  : list event :=
  flat_map (fun t => snd (dir_result spec source_dir stat_of t)) walk.

(** ** Example worlds *)

(** A regular file of mode 0o100644, owned by uid and gid 1000. *)
Definition plain_stat : stat_result := mk_stat_result 0x81A4 1000 1000 120.

Definition example_root : path := ["srv"; "data"].

(** The directory of the spec's exclusion example: [a.log],
    [important.log] and [b.txt], all readable; nothing else exists. *)
Definition exclusion_world : world :=
  {| w_tree := fun p =>
       if path_eqb p example_root
       then Listing [] ["a.log"; "important.log"; "b.txt"]
       else Unreadable;
     w_stat := fun _ => inr plain_stat;
     w_isdir := fun p => path_eqb p example_root;
     w_isfile := fun _ => false;
     w_open := fun _ => None;
     w_files := fun _ => None;
     w_trace := [] |}.

(** The same directory with the metadata of [a.log] unreadable. *)
Definition exclusion_world_denied : world :=
  {| w_tree := w_tree exclusion_world;
     w_stat := fun p =>
       if path_eqb p ["srv"; "data"; "a.log"]
       then inl "Permission denied" else inr plain_stat;
     w_isdir := w_isdir exclusion_world;
     w_isfile := w_isfile exclusion_world;
     w_open := w_open exclusion_world;
     w_files := w_files exclusion_world;
     w_trace := [] |}.

(** A world without any directory: every listing fails. *)
Definition empty_world : world :=
  {| w_tree := fun _ => Unreadable;
     w_stat := fun _ => inl "No such file or directory";
     w_isdir := fun _ => false;
     w_isfile := fun _ => false;
     w_open := fun _ => None;
     w_files := fun _ => None;
     w_trace := [] |}.

(** The compiled form of the single pattern [*.log]. *)
Definition log_spec : pathspec.PathSpec :=
  [pathspec.mk_Pattern (Some true) [pathspec.StarStar; pathspec.Glob "*.log"]].

(** An environment for the examples: a float is kept as its literal,
    the interpreter has the settings it starts with at a call a few frames
    deep, PyYAML is not installed, and the templates used have no tags, so
    that they render to themselves. *)
Definition demo_externals : Externals :=
  {| pyfloat := pytext;
     float_of_literal := fun literal => literal;
     floatstr := string_of_codes;
     int_max_str_digits := 4300;
     recursion_depth := 990;
     yaml_installed := false;
     yaml_value := pytext;
     yaml_safe_load := fun text => Returned text;
     yaml_dump := string_of_codes;
     jinja2_render := fun template _ => Returned (codes template) |}.

(** A world with a source directory, a template that renders to text
    that is not JSON, and no output file yet. *)
Definition bad_template_world : world :=
  {| w_tree := w_tree exclusion_world;
     w_stat := w_stat exclusion_world;
     w_isdir := w_isdir exclusion_world;
     w_isfile := fun p => path_eqb p ["srv"; "template.j2"];
     w_open := fun _ => None;
     w_files := fun p =>
       if path_eqb p ["srv"; "template.j2"] then Some "{bad" else None;
     w_trace := [] |}.

Definition demo_arguments : arguments :=
  {| source_dir := example_root;
     output_file := ["srv"; "out.json"];
     template_file := ["srv"; "template.j2"];
     exclude_patterns := [];
     output_format := "json" |}.

(** A world whose source directory exists but cannot be listed (no read
    permission); the template is there. *)
Definition locked_world : world :=
  {| w_tree := fun _ => Unreadable;
     w_stat := fun _ => inl "Permission denied";
     w_isdir := fun p => path_eqb p ["srv"; "locked"];
     w_isfile := fun p => path_eqb p ["srv"; "template.j2"];
     w_open := fun _ => None;
     w_files := fun p =>
       if path_eqb p ["srv"; "template.j2"] then Some "{}" else None;
     w_trace := [] |}.

Definition locked_arguments : arguments :=
  {| source_dir := ["srv"; "locked"];
     output_file := ["srv"; "out.json"];
     template_file := ["srv"; "template.j2"];
     exclude_patterns := [];
     output_format := "json" |}.

(** One record, as the scan builds it for [b.txt]. *)
Definition demo_record : file_record :=
  mk_file_record "b.txt" (build_permissions plain_stat).

(** The same world with a destination that cannot be opened for writing
    and a template that renders to JSON. *)
Definition unwritable_world : world :=
  {| w_tree := w_tree exclusion_world;
     w_stat := w_stat exclusion_world;
     w_isdir := w_isdir exclusion_world;
     w_isfile := fun p => path_eqb p ["srv"; "template.j2"];
     w_open := fun p =>
       if path_eqb p ["srv"; "out.json"] then Some "Permission denied" else None;
     w_files := fun p =>
       if path_eqb p ["srv"; "template.j2"] then Some "{}" else None;
     w_trace := [] |}.

(** ** Auxiliary definitions of the JSON proofs *)

(** [f] holds on [count] consecutive integers from [start]. *)
Fixpoint all_from (f : Z -> bool) (count : nat) (start : Z) : bool :=
  match count with
  | O => true
  | S count' => f start && all_from f count' (start + 1)
  end.

(** The four hexadecimal digits of [n] decode to [n]. *)
Definition hex4_ok (n : Z) : bool :=
  match codes (json.hex4 n) with
  | [a; b; c; d] =>
      match json.hex4_value a b c d with
      | Some m => m =? n
      | None => false
      end
  | _ => false
  end.

(** The escaped characters of a string, without the quotes. *)
Definition body (s : json.pystr) : string :=
  String.concat "" (map json.escape_ascii s).

(** Whether the text starts with the escape of a low surrogate that the
    scanner would join with a high surrogate before it (or with a [\u]
    that is not an escape). *)
Definition low_escape_ahead (t : pytext) : bool :=
  match t with
  | b :: u :: l1 :: l2 :: l3 :: l4 :: r3 =>
      negb (json.is_nil r3) && (b =? ord "\") && (u =? ord "u")
      && match json.hex4_value l1 l2 l3 l4 with
         | Some uni2 => json.is_low_surrogate uni2
         | None => true
         end
  | _ => false
  end.

(** The first code point of a string is not a low surrogate. *)
Definition head_not_low (s : json.pystr) : bool :=
  match s with
  | d :: _ => negb (json.is_low_surrogate d)
  | [] => true
  end.

(** What may follow a value in the encoder's text: nothing, a comma or
    a newline. *)
Definition follow_ok (rest : pytext) : bool :=
  match rest with
  | [] => true
  | c :: _ => (c =? ord ",") || (c =? ord newline)
  end.

(** None of the characters is a comma or a newline. *)
Definition plain_chars (p : pytext) : bool :=
  forallb (fun c => negb ((c =? ord ",") || (c =? ord newline))) p.

Section JsonText.
Context `{Ext : Externals}.

(** The first character of the text of a value: not white space, not a
    closing bracket. *)
Definition starts_value (s : string) : Prop :=
  exists c t, s = String c t /\ json.is_ws (ord c) = false /\
              (ord c =? ord "]") = false.

Definition enc (level : nat) (v : json.value) : string :=
  json.iterencode v (S level).

Definition sep (level : nat) : string :=
  ("," ++ json.newline_indent (S level))%string.

Definition encm (level : nat) (kv : json.pystr * json.value) : string :=
  (json.encode_basestring_ascii (fst kv) ++ ": "
     ++ json.iterencode (snd kv) (S level))%string.

(** What the round trip asks of a value: it is as the decoder builds
    them, no string holds a surrogate pair, and its floats are read
    back. *)
Definition readable (v : json.value) : Prop :=
  json.well_formed v = true /\ json.pairs_free v = true /\
  Forall json.float_reads_back (json.floats v).

(** Decoding the text of [v], followed by [rest], gives [v] and [rest]. *)
Definition reads_back (v : json.value) : Prop :=
  forall (level : nat) (rest : pytext) (fuel depth : nat),
    (json.need v <= fuel)%nat ->
    (json.depth v <= depth)%nat ->
    follow_ok rest = true ->
    json.scan_once fuel depth (codes (json.iterencode v level) ++ rest)
    = json.Scanned v rest.

End JsonText.

Section JsonScans.
Context `{Ext : Externals}.

(** What a successful scan of [s] gives: a value as the decoder builds
    them, nested no deeper than [depth], and the rest of [s], shorter than
    [s]. *)
Definition scan_ok (depth : nat) (s : pytext) (v : json.value)
           (rest : pytext) : Prop :=
  json.well_formed v = true /\ (json.depth v <= depth)%nat /\
  exists pre, pre <> [] /\ s = pre ++ rest.

End JsonScans.

(** The exceptions that [json.loads] raises for a [str]. *)
Definition decoder_error (e : exn) : Prop :=
  e = JSONDecodeError \/ e = ValueError \/ e = RecursionError.

(** ** The JSON round trip, as the spec has it *)

(** A JSON text of one string: a high and a low surrogate, as two
    characters of the text, between the quotes. *)
Definition surrogates_json : pytext :=
  [ord dquote; 0xD83D; 0xDE00; ord dquote].

(** The sentence of the spec about the round trip, for one rendered
    text: when the text decodes, the destination holds after the writing a
    text that decodes to the same value. *)
Definition json_roundtrip_as_claimed `{Ext : Externals}
           (output_file : path) (data : pytext) (w : world) : Prop :=
  forall v,
    json.loads data = Returned v ->
    exists written,
      w_files (snd (write_output output_file data "json" w)) output_file
        = Some written /\
      json.loads (codes written) = Returned v.

(** The value of the JSON text [[1.5]] in the environment of the
    examples. *)
Definition float_list_value : @json.value demo_externals :=
  @json.Array demo_externals [@json.Float demo_externals (codes "1.5")].

(** ** The layout of the written text *)

(** The number of spaces that a line begins with. *)
Fixpoint leading_spaces (t : pytext) : nat :=
  match t with
  | c :: r => if c =? ord " " then S (leading_spaces r) else O
  | [] => O
  end.

(** The indents of the lines of a text after its first line. *)
Fixpoint later_indents (t : pytext) : list nat :=
  match t with
  | c :: r =>
      if c =? ord newline then leading_spaces r :: later_indents r
      else later_indents r
  | [] => []
  end.

(** The indent of each line of a text. *)
Definition line_indents (t : pytext) : list nat :=
  leading_spaces t :: later_indents t.

Definition no_newline (t : pytext) : bool :=
  forallb (fun c => negb (c =? ord newline)) t.

Section JsonLayout.
Context `{Ext : Externals}.

(** The layout that an indent of four spaces for each level of nesting
    gives a value that starts at [level]: every item of a non-empty list
    and every member of a non-empty dictionary starts a line one level
    deeper, in their order, and the closing bracket is on a line of its
    own at [level].  The list holds the indents of these lines, the line
    that the value starts on left out. *)
Fixpoint nested_indents (v : json.value) (level : nat) : list nat :=
  match v with
  | json.Array ((_ :: _) as items) =>
      flat_map (fun x => 4 * S level :: nested_indents x (S level))%nat items
        ++ [4 * level]%nat
  | json.Object ((_ :: _) as members) =>
      flat_map (fun kv => 4 * S level :: nested_indents (snd kv) (S level))%nat
               members
        ++ [4 * level]%nat
  | _ => []
  end.

End JsonLayout.

(** ** Re-encoding of the permission matrix (the spec's round trip)

    Follows the spec's words: the nine booleans are put back at the
    standard POSIX bit positions. *)

Definition bit_if (b : bool) (mask : Z) : Z := if b then mask else 0.

Definition encode_rwx (p : rwx) (r w x : Z) : Z :=
  Z.lor (bit_if (read p) r) (Z.lor (bit_if (write p) w) (bit_if (execute p) x)).

Definition encode_matrix (p : permission_info) : Z :=
  Z.lor (encode_rwx (user p) stat.S_IRUSR stat.S_IWUSR stat.S_IXUSR)
   (Z.lor (encode_rwx (group p) stat.S_IRGRP stat.S_IWGRP stat.S_IXGRP)
          (encode_rwx (other p) stat.S_IROTH stat.S_IWOTH stat.S_IXOTH)).

(** The exception that decoding the rendered text in the declared
    format ends with, if it does: the spec's [InvalidPayload]. *)
Definition invalid_payload `{Ext : Externals} (output_format : string)
           (data : pytext) : option exn :=
  if String.eqb output_format "json" then
    match json.loads data with
    | Raised e => Some e
    | Returned _ => None
    end
  else if String.eqb output_format "yaml" then
    if yaml_installed then
      match yaml_safe_load data with
      | Raised (YAMLError m) => Some (YAMLError m)
      | _ => None
      end
    else None
  else None.

(** The error record for it.  For JSON the decoder's own error is
    reported as invalid data; an integer of too many digits and too deep
    a nesting are reported by [except Exception]. *)
Definition invalid_payload_msg (output_format : string) (e : exn) : log_msg :=
  if String.eqb output_format "json"
  then (if is_JSONDecodeError e then Invalid_JSON_data e else Unexpected_error e)
  else Invalid_YAML_data e.

(** The character of a mode string at a position ([None] past its end). *)
Definition char_at (s : string) (i : nat) : option ascii := String.get i s.

(** The character the spec's sentence gives to permission position [i]
    (0 = owner read ... 8 = other execute): the letter of [rwxrwxrwx] when
    bit [8 - i] of the mode is set, a dash when it is clear. *)
Definition plain_perm_char (m : Z) (i : nat) : option ascii :=
  match String.get i "rwxrwxrwx" with
  | Some c => Some (if Z.testbit m (8 - Z.of_nat i) then c else "-"%char)
  | None => None
  end.

(** The execute position of a role by the convention of [ls -l], which
    [stat.filemode] follows: with the role's special bit (setuid, setgid,
    sticky) set, the position shows [set_x] when the execute bit is set and
    [set_nox] when it is clear. *)
Definition exec_char (x special : bool) (set_x set_nox : ascii) : ascii :=
  if special then (if x then set_x else set_nox)
  else (if x then "x"%char else "-"%char).

(** The sentence of the spec about [mode_string], for one [stat_info]. *)
Definition mode_string_as_claimed (stat_info : stat_result) : Prop :=
  let m := st_mode stat_info in
  let s := mode (build_permissions stat_info) in
  String.length s = 10%nat /\
  (stat.S_ISREG m = true -> char_at s 0 = Some "-"%char) /\
  (stat.S_ISDIR m = true -> char_at s 0 = Some "d"%char) /\
  (forall i : nat, (i < 9)%nat -> char_at s (S i) = plain_perm_char m i).

(** ** Paths that [os.stat] refuses *)


(** ** Paths below the scanned root *)

(** The text of a path given by its components below the root: what
    [os.path.relpath] returns for a file inside [start]. *)
Definition below_root (components : list string) : string :=
  match components with
  | [] => "."
  | a :: rest => os_path.join_str a rest
  end.

(** The files that a walk lists, directory by directory. *)
Definition listed_files (walk : list (path * list string * list string))
  : list path :=
  flat_map (fun '(root, _, files) => map (os_path.join root) files) walk.

(** ** The log that is written

    [logging.basicConfig(level=logging.INFO, ...)] (lines 13-15): the
    handler of the root logger writes the records whose level is at
    least [INFO]. *)

(** The numeric value of a logging level. *)
Definition level_no (lvl : level) : Z :=
  match lvl with
  | DEBUG => 10
  | INFO => 20
  | WARNING => 30
  | ERROR => 40
  end.

Definition is_emitted (ev : event) : bool :=
  match ev with
  | EvLog lvl _ => level_no INFO <=? level_no lvl
  | _ => false
  end.

Definition visible_log (evs : list event) : list event := filter is_emitted evs.

(** ** Kinds of events *)

Definition is_stat_call (ev : event) : bool :=
  match ev with EvStat _ => true | _ => false end.

Definition is_stat_error (ev : event) : bool :=
  match ev with
  | EvLog ERROR (Error_getting_permissions _ _) => true
  | _ => false
  end.

Definition is_exclusion (ev : event) : bool :=
  match ev with
  | EvLog DEBUG (Excluding_file _) => true
  | _ => false
  end.

Definition is_info_record (ev : event) : bool :=
  match ev with EvLog INFO _ => true | _ => false end.

Definition count_events (f : event -> bool) (evs : list event) : nat :=
  List.length (filter f evs).

(** The warning of lines 236-239. *)
Definition empty_data_warning (data : list file_record) : list event :=
  match data with
  | [] => [EvLog WARNING No_permissions_data]
  | _ => []
  end.

(** ** More example worlds *)

(** The directory of the exclusion example at another place. *)
Definition relocated_root : path := ["mnt"; "copy"].

Definition relocated_world : world :=
  {| w_tree := fun p =>
       if path_eqb p relocated_root
       then Listing [] ["a.log"; "important.log"; "b.txt"]
       else Unreadable;
     w_stat := fun _ => inr plain_stat;
     w_isdir := fun p => path_eqb p relocated_root;
     w_isfile := fun _ => false;
     w_open := fun _ => None;
     w_files := fun _ => None;
     w_trace := [] |}.

(** The directory of the exclusion example with one more entry: a
    sub-directory [private] that cannot be listed. *)
Definition subdir_world : world :=
  {| w_tree := fun p =>
       if path_eqb p example_root
       then Listing [("private", Unreadable)]
                    ["a.log"; "important.log"; "b.txt"]
       else Unreadable;
     w_stat := fun _ => inr plain_stat;
     w_isdir := w_isdir exclusion_world;
     w_isfile := fun _ => false;
     w_open := fun _ => None;
     w_files := fun _ => None;
     w_trace := [] |}.

(** A world with a template that renders to the JSON text [{}] and a
    destination that exists and can be written. *)
Definition writable_world : world :=
  {| w_tree := w_tree exclusion_world;
     w_stat := w_stat exclusion_world;
     w_isdir := w_isdir exclusion_world;
     w_isfile := fun p => path_eqb p ["srv"; "template.j2"];
     w_open := fun _ => None;
     w_files := fun p =>
       if path_eqb p ["srv"; "template.j2"] then Some "{}"
       else if path_eqb p ["srv"; "out.json"] then Some "old text"
       else None;
     w_trace := [] |}.

(** An environment where PyYAML is installed, its loader fails on a
    deeply nested sequence with an exception that is not a [YAMLError],
    and the template engine fails with an exception that is not a
    [TemplateError] (a division by zero in an expression). *)
Definition raising_externals : Externals :=
  {| pyfloat := pytext;
     float_of_literal := fun literal => literal;
     floatstr := string_of_codes;
     int_max_str_digits := 4300;
     recursion_depth := 990;
     yaml_installed := true;
     yaml_value := pytext;
     yaml_safe_load := fun text =>
       if json.starts_with (codes "[[[[") text
       then Raised RecursionError
       else Returned text;
     yaml_dump := string_of_codes;
     jinja2_render := fun _ _ => Raised (OtherException "ZeroDivisionError") |}.

(** A text that [write_output] does not write back as it is read: the
    two members of the dictionary have different keys, a high and a low
    surrogate as two characters of the text and the escape of the same
    pair; both are written as the escape of the pair, and reading the
    destination gives one member. *)
Definition twin_keys_json : pytext :=
  codes "{" ++ [ord dquote; 0xD83D; 0xDE00; ord dquote] ++ codes ": 1, "
    ++ [ord dquote] ++ codes "\ud83d\ude00" ++ [ord dquote] ++ codes ": 2}".

(* ================================================================== *)
(** * Part II: properties *)
(* ================================================================== *)

(** ** Bit tests *)

Lemma land_pow2 (m k : Z) :
  0 <= k -> Z.land m (2 ^ k) = if Z.testbit m k then 2 ^ k else 0.
Proof.
  intros Hk. apply Z.bits_inj'. intros n Hn.
  rewrite Z.land_spec.
  destruct (Z.eq_dec n k) as [->|Hne].
  - rewrite Z.pow2_bits_true by lia.
    destruct (Z.testbit m k); simpl.
    + now rewrite Z.pow2_bits_true by lia.
    + now rewrite Z.bits_0.
  - rewrite Z.pow2_bits_false by lia. rewrite andb_false_r.
    destruct (Z.testbit m k).
    + now rewrite Z.pow2_bits_false by lia.
    + now rewrite Z.bits_0.
Qed.

Lemma py_bool_land_pow2 (m k : Z) :
  0 <= k -> py_bool (Z.land m (2 ^ k)) = Z.testbit m k.
Proof.
  intros Hk. rewrite land_pow2 by assumption. unfold py_bool.
  destruct (Z.testbit m k); [|reflexivity].
  assert (0 < 2 ^ k) by (apply Z.pow_pos_nonneg; lia).
  destruct (Z.eqb_spec (2 ^ k) 0); [lia|reflexivity].
Qed.

Lemma land_two_bits (m a b : Z) :
  0 <= a -> 0 <= b ->
  Z.land m (Z.lor (2 ^ a) (2 ^ b)) =
  Z.lor (if Z.testbit m a then 2 ^ a else 0) (if Z.testbit m b then 2 ^ b else 0).
Proof.
  intros Ha Hb. rewrite Z.land_lor_distr_r.
  now rewrite !land_pow2 by assumption.
Qed.

Lemma testbit_bit_if (b : bool) (k n : Z) :
  0 <= k -> 0 <= n ->
  Z.testbit (bit_if b (2 ^ k)) n = b && (n =? k).
Proof.
  intros Hk Hn. destruct b; simpl.
  - destruct (Z.eqb_spec n k) as [->|Hne].
    + now rewrite Z.pow2_bits_true.
    + now rewrite Z.pow2_bits_false by lia.
  - apply Z.bits_0.
Qed.

(** ** The permission matrix *)

(** Each boolean of the matrix is the corresponding bit of the mode. *)
Lemma build_permissions_bits (stat_info : stat_result) :
  let m := st_mode stat_info in
  let p := build_permissions stat_info in
  user p  = mk_rwx (Z.testbit m 8) (Z.testbit m 7) (Z.testbit m 6) /\
  group p = mk_rwx (Z.testbit m 5) (Z.testbit m 4) (Z.testbit m 3) /\
  other p = mk_rwx (Z.testbit m 2) (Z.testbit m 1) (Z.testbit m 0).
Proof.
  cbv zeta. unfold build_permissions; cbn [user group other].
  change stat.S_IRUSR with (2 ^ 8). change stat.S_IWUSR with (2 ^ 7).
  change stat.S_IXUSR with (2 ^ 6). change stat.S_IRGRP with (2 ^ 5).
  change stat.S_IWGRP with (2 ^ 4). change stat.S_IXGRP with (2 ^ 3).
  change stat.S_IROTH with (2 ^ 2). change stat.S_IWOTH with (2 ^ 1).
  change stat.S_IXOTH with (2 ^ 0).
  rewrite !py_bool_land_pow2 by lia. repeat split.
Qed.

(** C2. Re-encoding the nine booleans that [get_file_permissions] builds
    from a mode at the POSIX bit positions gives the lower nine bits of the
    mode, [st_mode mod 512], for every mode value. *)
Theorem C2_permission_matrix_roundtrip (stat_info : stat_result) :
  encode_matrix (build_permissions stat_info) = st_mode stat_info mod 512.
Proof.
  destruct (build_permissions_bits stat_info) as (Hu & Hg & Ho).
  unfold encode_matrix, encode_rwx. rewrite Hu, Hg, Ho. cbn [read write execute].
  set (m := st_mode stat_info).
  change stat.S_IRUSR with (2 ^ 8). change stat.S_IWUSR with (2 ^ 7).
  change stat.S_IXUSR with (2 ^ 6). change stat.S_IRGRP with (2 ^ 5).
  change stat.S_IWGRP with (2 ^ 4). change stat.S_IXGRP with (2 ^ 3).
  change stat.S_IROTH with (2 ^ 2). change stat.S_IWOTH with (2 ^ 1).
  change stat.S_IXOTH with (2 ^ 0). change 512 with (2 ^ 9).
  apply Z.bits_inj'. intros n Hn.
  rewrite !Z.lor_spec, !testbit_bit_if by lia.
  destruct (Z.ltb_spec n 9) as [Hlt|Hge].
  - rewrite Z.mod_pow2_bits_low by lia.
    assert (Hcases : n = 0 \/ n = 1 \/ n = 2 \/ n = 3 \/ n = 4 \/ n = 5 \/
                     n = 6 \/ n = 7 \/ n = 8) by lia.
    destruct Hcases as [->|[->|[->|[->|[->|[->|[->|[->| ->]]]]]]]];
      cbn [Z.eqb Pos.eqb]; rewrite ?andb_false_r, ?andb_true_r, ?orb_false_r;
      reflexivity.
  - rewrite Z.mod_pow2_bits_high by lia.
    repeat match goal with
           | |- context [n =? ?k] =>
               let E := fresh in destruct (Z.eqb_spec n k) as [E|E]; [lia|]
           end.
    now rewrite !andb_false_r.
Qed.

(** ** The mode string *)

Lemma filemode_row_one (m k : Z) (c : ascii) :
  0 <= k ->
  stat.filemode_row m [(2 ^ k, c)] = if Z.testbit m k then c else "-"%char.
Proof.
  intros Hk. cbn [stat.filemode_row]. rewrite land_pow2 by assumption.
  assert (0 < 2 ^ k) by (apply Z.pow_pos_nonneg; lia).
  destruct (Z.testbit m k).
  - now rewrite Z.eqb_refl.
  - destruct (Z.eqb_spec 0 (2 ^ k)); [lia|reflexivity].
Qed.

Lemma filemode_row_exec (m a b : Z) (cs cS cx : ascii) :
  0 <= a -> 0 <= b -> a <> b ->
  stat.filemode_row m [(Z.lor (2 ^ a) (2 ^ b), cs); (2 ^ b, cS); (2 ^ a, cx)] =
  if Z.testbit m b then (if Z.testbit m a then cs else cS)
  else (if Z.testbit m a then cx else "-"%char).
Proof.
  intros Ha Hb Hab. cbn [stat.filemode_row].
  rewrite land_two_bits, !land_pow2 by assumption.
  assert (0 < 2 ^ a) by (apply Z.pow_pos_nonneg; lia).
  assert (0 < 2 ^ b) by (apply Z.pow_pos_nonneg; lia).
  assert (Hdisj : Z.land (2 ^ a) (2 ^ b) = 0).
  { rewrite land_pow2 by assumption. now rewrite Z.pow2_bits_false by lia. }
  assert (Hlor : Z.lor (2 ^ a) (2 ^ b) = 2 ^ a + 2 ^ b).
  { rewrite <- Z.lxor_lor by assumption. symmetry.
    now apply Z.add_nocarry_lxor. }
  destruct (Z.testbit m a), (Z.testbit m b);
    rewrite ?Z.lor_0_l, ?Z.lor_0_r, ?Z.eqb_refl; try reflexivity.
  - rewrite Hlor.
    destruct (Z.eqb_spec (2 ^ a) (2 ^ a + 2 ^ b)); [lia|].
    destruct (Z.eqb_spec 0 (2 ^ b)); [lia|]. reflexivity.
  - rewrite Hlor.
    destruct (Z.eqb_spec (2 ^ b) (2 ^ a + 2 ^ b)); [lia|]. reflexivity.
  - rewrite Hlor.
    destruct (Z.eqb_spec 0 (2 ^ a + 2 ^ b)); [lia|].
    destruct (Z.eqb_spec 0 (2 ^ b)); [lia|].
    destruct (Z.eqb_spec 0 (2 ^ a)); [lia|]. reflexivity.
Qed.

(** The type character only looks at the file-type field of the mode. *)
Lemma filemode_row_type (m : Z) :
  stat.filemode_row m (hd [] stat._filemode_table) =
  stat.filemode_row (stat.S_IFMT m) (hd [] stat._filemode_table).
Proof.
  unfold stat.S_IFMT. cbn [hd stat._filemode_table stat.filemode_row].
  rewrite <- !Z.land_assoc. reflexivity.
Qed.

(** The ten characters of [stat.filemode], one by one. *)
Lemma filemode_chars (m : Z) :
  stat.filemode m =
  string_of_list_ascii
    [ stat.filemode_row (stat.S_IFMT m) (hd [] stat._filemode_table);
      if Z.testbit m 8 then "r" else "-";
      if Z.testbit m 7 then "w" else "-";
      exec_char (Z.testbit m 6) (Z.testbit m 11) "s" "S";
      if Z.testbit m 5 then "r" else "-";
      if Z.testbit m 4 then "w" else "-";
      exec_char (Z.testbit m 3) (Z.testbit m 10) "s" "S";
      if Z.testbit m 2 then "r" else "-";
      if Z.testbit m 1 then "w" else "-";
      exec_char (Z.testbit m 0) (Z.testbit m 9) "t" "T" ]%char.
Proof.
  unfold stat.filemode. f_equal.
  unfold stat._filemode_table at 1. cbn [map].
  rewrite <- filemode_row_type. cbn [hd stat._filemode_table].
  change stat.S_IRUSR with (2 ^ 8). change stat.S_IWUSR with (2 ^ 7).
  change stat.S_IXUSR with (2 ^ 6). change stat.S_IRGRP with (2 ^ 5).
  change stat.S_IWGRP with (2 ^ 4). change stat.S_IXGRP with (2 ^ 3).
  change stat.S_IROTH with (2 ^ 2). change stat.S_IWOTH with (2 ^ 1).
  change stat.S_IXOTH with (2 ^ 0). change stat.S_ISUID with (2 ^ 11).
  change stat.S_ISGID with (2 ^ 10). change stat.S_ISVTX with (2 ^ 9).
  rewrite !filemode_row_one, !filemode_row_exec by lia.
  unfold exec_char. reflexivity.
Qed.

(** C3 (amended). The mode string of a record has exactly ten characters;
    the first is ['-'] for a regular file and ['d'] for a directory; the
    read and write positions show ['r'] / ['w'] when the bit is set and
    ['-'] when it is clear; an execute position shows ['x'] / ['-'] when
    the role's special bit is clear and, when it is set, ['s'] / ['S']
    (owner with setuid, group with setgid) or ['t'] / ['T'] (other with the
    sticky bit) for execute set / clear. *)
Theorem C3_mode_string (stat_info : stat_result) :
  let m := st_mode stat_info in
  let s := mode (build_permissions stat_info) in
  String.length s = 10%nat /\
  (stat.S_ISREG m = true -> char_at s 0 = Some "-"%char) /\
  (stat.S_ISDIR m = true -> char_at s 0 = Some "d"%char) /\
  (forall i : nat, (i < 9)%nat -> i <> 2%nat -> i <> 5%nat -> i <> 8%nat ->
     char_at s (S i) = plain_perm_char m i) /\
  char_at s 3 = Some (exec_char (Z.testbit m 6) (Z.testbit m 11) "s" "S") /\
  char_at s 6 = Some (exec_char (Z.testbit m 3) (Z.testbit m 10) "s" "S") /\
  char_at s 9 = Some (exec_char (Z.testbit m 0) (Z.testbit m 9) "t" "T").
Proof.
  cbv zeta. unfold build_permissions; cbn [mode].
  rewrite filemode_chars. set (m := st_mode stat_info).
  split; [reflexivity|]. split; [|split; [|split]].
  - unfold stat.S_ISREG. intros H%Z.eqb_eq. now rewrite H.
  - unfold stat.S_ISDIR. intros H%Z.eqb_eq. now rewrite H.
  - intros i Hi H2 H5 H8.
    assert (Hc : (i = 0 \/ i = 1 \/ i = 3 \/ i = 4 \/ i = 6 \/ i = 7)%nat) by lia.
    destruct Hc as [->|[->|[->|[->|[->| ->]]]]]; reflexivity.
  - repeat split.
Qed.

Lemma C3_mode_string_witness :
  char_at (mode (build_permissions (mk_stat_result 0x81A4 1000 1000 12))) 0
  = Some "-"%char.
Proof.
  exact (proj1 (proj2 (C3_mode_string (mk_stat_result 0x81A4 1000 1000 12)))
           eq_refl).
Defined.

(** With the setuid, setgid and sticky bits clear the mode string is as
    the spec's sentence has it. *)
Lemma mode_string_plain (stat_info : stat_result) :
  Z.land (st_mode stat_info) 0xE00 = 0 ->
  mode_string_as_claimed stat_info.
Proof.
  intros Hclear.
  assert (Hb : forall k, 9 <= k <= 11 -> Z.testbit (st_mode stat_info) k = false).
  { intros k Hk.
    assert (Ht : Z.testbit (Z.land (st_mode stat_info) 0xE00) k = false)
      by (rewrite Hclear; apply Z.bits_0).
    rewrite Z.land_spec in Ht.
    assert (Hc : k = 9 \/ k = 10 \/ k = 11) by lia.
    destruct Hc as [->|[->| ->]]; cbn in Ht; now rewrite andb_true_r in Ht. }
  destruct (C3_mode_string stat_info) as (Hlen & Hreg & Hdir & Hrw & Hx1 & Hx2 & Hx3).
  unfold mode_string_as_claimed. cbv zeta.
  split; [exact Hlen|]. split; [exact Hreg|]. split; [exact Hdir|].
  intros i Hi.
  destruct (Nat.eq_dec i 2) as [->|N2].
  { rewrite Hx1, (Hb 11) by lia. reflexivity. }
  destruct (Nat.eq_dec i 5) as [->|N5].
  { rewrite Hx2, (Hb 10) by lia. reflexivity. }
  destruct (Nat.eq_dec i 8) as [->|N8].
  { rewrite Hx3, (Hb 9) by lia. reflexivity. }
  now apply Hrw.
Qed.

(** C3, as stated, fails for a setuid executable (mode 0o104755, the mode
    of [/usr/bin/passwd]): the owner execute position is ['s'], not ['x']. *)
Lemma C3_counterexample_setuid :
  mode (build_permissions (mk_stat_result 0x89ED 0 0 0)) = "-rwsr-xr-x" /\
  ~ mode_string_as_claimed (mk_stat_result 0x89ED 0 0 0).
Proof.
  split; [reflexivity|].
  intros (_ & _ & _ & H). specialize (H 2%nat ltac:(lia)).
  vm_compute in H. discriminate H.
Qed.

(** ** Runs of the scan *)

Lemma add_events_nil (w : world) : add_events [] w = w.
Proof. destruct w; unfold add_events; cbn. now rewrite app_nil_r. Qed.

Lemma add_events_app (a b : list event) (w : world) :
  add_events b (add_events a w) = add_events (a ++ b) w.
Proof. unfold add_events; cbn. now rewrite app_assoc. Qed.

Lemma get_file_permissions_run (fp : path) (w : world) :
  get_file_permissions fp w =
  match w_stat w fp with
  | inr stat_info =>
      (Returned (Some (build_permissions stat_info)), add_events [EvStat fp] w)
  | inl strerror =>
      (Returned None,
       add_events [EvStat fp;
                   EvLog ERROR (Error_getting_permissions fp (OSError strerror))]
                  w)
  end.
Proof.
  unfold get_file_permissions, try_except, bind, os_stat, emit, logging, emit, ret.
  cbn. destruct (w_stat w fp); cbn; [|reflexivity].
  now rewrite add_events_app.
Qed.

Lemma scan_file_run spec source_dir root file data w :
  scan_file spec source_dir root file data w =
  (Returned (data ++ fst (file_result spec source_dir (w_stat w) root file)),
   add_events (snd (file_result spec source_dir (w_stat w) root file)) w).
Proof.
  unfold scan_file, file_result.
  destruct (pathspec.match_file spec _).
  - cbn. now rewrite app_nil_r.
  - unfold bind. rewrite get_file_permissions_run.
    destruct (w_stat w _); cbn; [now rewrite app_nil_r|reflexivity].
Qed.

Lemma scan_files_run spec source_dir root files : forall data w,
  for_each files (scan_file spec source_dir root) data w =
  (Returned (data ++ fst (dir_result spec source_dir (w_stat w) (root, @nil string, files))),
   add_events (snd (dir_result spec source_dir (w_stat w) (root, @nil string, files))) w).
Proof.
  induction files as [|f files IH]; intros data w; cbn.
  - unfold ret. now rewrite app_nil_r, add_events_nil.
  - unfold bind. rewrite scan_file_run, IH. cbn.
    now rewrite add_events_app, app_assoc.
Qed.

Lemma scan_dirs_run spec source_dir walk : forall data w,
  for_each walk
    (fun '(root, _, files) data =>
       for_each files (scan_file spec source_dir root) data) data w =
  (Returned (data ++ scan_records spec source_dir (w_stat w) walk),
   add_events (scan_events spec source_dir (w_stat w) walk) w).
Proof.
  induction walk as [|[[root dirs] files] walk IH]; intros data w; cbn.
  - unfold ret. now rewrite app_nil_r, add_events_nil.
  - unfold bind at 1. rewrite scan_files_run, IH. cbn.
    now rewrite add_events_app, app_assoc.
Qed.

(** The loops of the scan return, and what they return and emit is
    [scan_records] and [scan_events] of the walk. *)
Lemma scan_walk_run spec source_dir w :
  scan_walk spec source_dir w =
  (Returned (scan_records spec source_dir (w_stat w)
               (os_walk source_dir (w_tree w source_dir))),
   add_events (scan_events spec source_dir (w_stat w)
                 (os_walk source_dir (w_tree w source_dir))) w).
Proof.
  unfold scan_walk, bind, os_walk_from. now rewrite scan_dirs_run.
Qed.

Lemma path_eqb_eq (p q : path) : path_eqb p q = true -> p = q.
Proof.
  revert q. induction p as [|a p IH]; intros [|b q]; cbn; try discriminate.
  - reflexivity.
  - intros [Hab Hpq]%andb_prop. apply String.eqb_eq in Hab.
    f_equal; auto.
Qed.

(** ** The pattern factory (C1, C6) *)

(** The name that line 118 passes is not a registered pattern factory. *)
Lemma gitwildcard_not_registered :
  pathspec.lookup_pattern "gitwildcard" = Raised (KeyError "gitwildcard").
Proof. reflexivity. Qed.

(** X4. So the scan raises [KeyError] before it walks anything, whatever
    the directory and the patterns are; [except OSError] does not catch it,
    and nothing is read or logged. *)
Lemma analyze_directory_permissions_raises source_dir exclude_patterns w :
  analyze_directory_permissions source_dir exclude_patterns w =
  (Raised (KeyError "gitwildcard"), w).
Proof. reflexivity. Qed.

(** C1 (the code at the spec's example).  For the files [a.log],
    [important.log], [b.txt] and the patterns [*.log], [!important.log] the
    scan returns no record set: it raises [KeyError]. *)
Theorem C1_exclusion_example_raises :
  analyze_directory_permissions example_root ["*.log"; "!important.log"]
    exclusion_world
  = (Raised (KeyError "gitwildcard"), exclusion_world).
Proof. reflexivity. Qed.

(** With the registered name ['gitwildmatch'] the same scan returns the
    records of [important.log] and [b.txt] and none for [a.log]. *)
Lemma exclusion_example_gitwildmatch :
  exists data w',
    analyze_with_factory "gitwildmatch" example_root
      ["*.log"; "!important.log"] exclusion_world = (Returned data, w') /\
    map file_path data = ["important.log"; "b.txt"].
Proof. eexists; eexists; split; [vm_compute; reflexivity | reflexivity]. Qed.

(** C6 (the code on a root that cannot be listed).  Scanning a directory
    that exists but cannot be listed raises [KeyError] instead of returning
    the empty list, and [main] ends with that exception; the same happens
    when the scan is called on a directory that does not exist. *)
Theorem C6_unlistable_root_raises :
  w_tree locked_world ["srv"; "locked"] = Unreadable /\
  analyze_directory_permissions ["srv"; "locked"] [] locked_world
    = (Raised (KeyError "gitwildcard"), locked_world) /\
  @main demo_externals locked_arguments locked_world
    = (Raised (KeyError "gitwildcard"), locked_world) /\
  analyze_directory_permissions ["no"; "such"; "dir"] [] empty_world
    = (Raised (KeyError "gitwildcard"), empty_world).
Proof. repeat split. Qed.

(** With a registered factory a root that cannot be listed gives the
    empty list, without an exception and without a log record. *)
Lemma unlistable_root_registered_factory name source_dir patterns spec w :
  pathspec.from_lines name patterns = Returned spec ->
  w_tree w source_dir = Unreadable ->
  analyze_with_factory name source_dir patterns w = (Returned [], w).
Proof.
  intros Hspec Htree.
  unfold analyze_with_factory, try_except, bind, lift. rewrite Hspec.
  rewrite scan_walk_run, Htree. cbn. now rewrite add_events_nil.
Qed.

(** ** Files whose metadata cannot be read (C7) *)

Lemma in_file_result spec source_dir stat_of root file r :
  In r (fst (file_result spec source_dir stat_of root file)) <->
  exists stat_info,
    pathspec.match_file spec
      (os_path.relpath (os_path.join root file) source_dir) = false /\
    stat_of (os_path.join root file) = inr stat_info /\
    r = mk_file_record (os_path.relpath (os_path.join root file) source_dir)
          (build_permissions stat_info).
Proof.
  unfold file_result.
  destruct (pathspec.match_file spec _) eqn:Hm.
  - cbn. split; [tauto|]. intros (st & Hf & _). discriminate.
  - destruct (stat_of _) as [err|st] eqn:Hs; cbn.
    + split; [tauto|]. intros (st & _ & Hst & _). discriminate.
    + split.
      * intros [<-|[]]. now exists st.
      * intros (st' & _ & Hst & ->). injection Hst as <-. now left.
Qed.

(** The loops of the scan, taken alone, do skip: they always return; a
    file has a record exactly when it is listed by the walk, is not
    excluded and its metadata was read, and the record is built from that
    metadata; a failed metadata read makes [get_file_permissions] return
    [None] after logging. *)
Lemma scan_loops_skip_unreadable_files spec source_dir w :
  exists data evs,
    scan_walk spec source_dir w = (Returned data, add_events evs w) /\
    (forall r, In r data <->
       exists root dirs files file stat_info,
         In (root, dirs, files) (os_walk source_dir (w_tree w source_dir)) /\
         In file files /\
         pathspec.match_file spec
           (os_path.relpath (os_path.join root file) source_dir) = false /\
         w_stat w (os_path.join root file) = inr stat_info /\
         r = mk_file_record
               (os_path.relpath (os_path.join root file) source_dir)
               (build_permissions stat_info)) /\
    (forall fp strerror,
       w_stat w fp = inl strerror ->
       get_file_permissions fp w =
       (Returned None,
        add_events
          [EvStat fp;
           EvLog ERROR (Error_getting_permissions fp (OSError strerror))] w)).
Proof.
  eexists; eexists. split; [apply scan_walk_run|]. split.
  - intros r. unfold scan_records. rewrite in_flat_map. split.
    + intros ([[root dirs] files] & Hin & Hr). cbn in Hr.
      apply in_flat_map in Hr as (file & Hfile & Hr).
      apply in_file_result in Hr as (st & Hm & Hs & ->).
      now exists root, dirs, files, file, st.
    + intros (root & dirs & files & file & st & Hin & Hfile & Hm & Hs & ->).
      exists (root, dirs, files). split; [exact Hin|]. cbn.
      apply in_flat_map. exists file. split; [exact Hfile|].
      apply in_file_result. now exists st.
  - intros fp strerror Hs. rewrite get_file_permissions_run. now rewrite Hs.
Qed.

(** With a registered factory name the function itself skips the file
    that cannot be read and returns the records of the other two. *)
Lemma unreadable_file_gitwildmatch :
  exists data w',
    analyze_with_factory "gitwildmatch" example_root []
      exclusion_world_denied = (Returned data, w') /\
    map file_path data = ["important.log"; "b.txt"].
Proof. eexists; eexists; split; [vm_compute; reflexivity | reflexivity]. Qed.

(** C7 (the code on a directory with one unreadable file).  The metadata
    of [a.log] cannot be read, that of [important.log] and [b.txt] can.
    The scan does not skip [a.log] and go on to the other files: it raises
    [KeyError] at the pattern factory, before it lists the directory, so it
    calls [os.stat] on no file, logs nothing and returns no record for the
    files that can be read. *)
Theorem C7_unreadable_file_scan_raises :
  w_stat exclusion_world_denied ["srv"; "data"; "a.log"]
    = inl "Permission denied" /\
  w_stat exclusion_world_denied ["srv"; "data"; "important.log"]
    = inr plain_stat /\
  w_stat exclusion_world_denied ["srv"; "data"; "b.txt"] = inr plain_stat /\
  analyze_directory_permissions example_root [] exclusion_world_denied
    = (Raised (KeyError "gitwildcard"), exclusion_world_denied).
Proof. repeat split. Qed.

(** ** Excluded files are never read (C8) *)

Lemma file_result_ext spec source_dir stat1 stat2 root file :
  (forall p, pathspec.match_file spec (os_path.relpath p source_dir) = false ->
             stat1 p = stat2 p) ->
  file_result spec source_dir stat1 root file =
  file_result spec source_dir stat2 root file.
Proof.
  intros H. unfold file_result.
  destruct (pathspec.match_file spec _) eqn:Hm; [reflexivity|].
  now rewrite (H _ Hm).
Qed.

Lemma stat_in_file_result spec source_dir stat_of root file p :
  In (EvStat p) (snd (file_result spec source_dir stat_of root file)) ->
  pathspec.match_file spec (os_path.relpath p source_dir) = false.
Proof.
  unfold file_result.
  destruct (pathspec.match_file spec _) eqn:Hm.
  - cbn. intros [H|[]]. discriminate H.
  - destruct (stat_of _); cbn.
    + intros [H|[H|[]]]; [|discriminate H]. now injection H as <-.
    + intros [H|[]]. now injection H as <-.
Qed.

Lemma scan_results_ext spec source_dir stat1 stat2 walk :
  (forall p, pathspec.match_file spec (os_path.relpath p source_dir) = false ->
             stat1 p = stat2 p) ->
  scan_records spec source_dir stat1 walk = scan_records spec source_dir stat2 walk /\
  scan_events spec source_dir stat1 walk = scan_events spec source_dir stat2 walk.
Proof.
  intros Hstat. unfold scan_records, scan_events.
  split; apply flat_map_ext; intros [[root dirs] files]; cbn;
    apply flat_map_ext; intros f; f_equal; now apply file_result_ext.
Qed.

Lemma stat_in_scan_events spec source_dir stat_of walk p :
  In (EvStat p) (scan_events spec source_dir stat_of walk) ->
  pathspec.match_file spec (os_path.relpath p source_dir) = false.
Proof.
  unfold scan_events. intros Hin.
  apply in_flat_map in Hin as ([[root dirs] files] & _ & Hin). cbn in Hin.
  apply in_flat_map in Hin as (f & _ & Hin).
  eapply stat_in_file_result; eassumption.
Qed.

(** C8. A file whose relative path matches the exclusion spec is skipped
    before [os.stat] is called: no [os.stat] call of the scan is for a
    matching path, and two worlds with the same tree whose metadata agree
    on the files that do not match give the same records and the same
    events. *)
Theorem C8_exclusion_before_stat spec source_dir w1 w2 :
  w_tree w1 source_dir = w_tree w2 source_dir ->
  (forall p, pathspec.match_file spec (os_path.relpath p source_dir) = false ->
             w_stat w1 p = w_stat w2 p) ->
  exists data evs,
    scan_walk spec source_dir w1 = (Returned data, add_events evs w1) /\
    scan_walk spec source_dir w2 = (Returned data, add_events evs w2) /\
    (forall p, In (EvStat p) evs ->
               pathspec.match_file spec (os_path.relpath p source_dir) = false).
Proof.
  intros Htree Hstat.
  exists (scan_records spec source_dir (w_stat w1)
            (os_walk source_dir (w_tree w1 source_dir))),
         (scan_events spec source_dir (w_stat w1)
            (os_walk source_dir (w_tree w1 source_dir))).
  split; [apply scan_walk_run|]. split.
  - rewrite scan_walk_run, <- Htree.
    destruct (scan_results_ext spec source_dir (w_stat w1) (w_stat w2)
                (os_walk source_dir (w_tree w1 source_dir)) Hstat) as [-> ->].
    reflexivity.
  - intros p. apply stat_in_scan_events.
Qed.

Lemma C8_exclusion_before_stat_witness :
  exists data evs,
    scan_walk log_spec example_root exclusion_world_denied
      = (Returned data, add_events evs exclusion_world_denied) /\
    scan_walk log_spec example_root exclusion_world
      = (Returned data, add_events evs exclusion_world) /\
    (forall p, In (EvStat p) evs ->
               pathspec.match_file log_spec
                 (os_path.relpath p example_root) = false).
Proof.
  apply (C8_exclusion_before_stat log_spec example_root
           exclusion_world_denied exclusion_world).
  - reflexivity.
  - intros p Hm. cbn [w_stat exclusion_world_denied exclusion_world].
    destruct (path_eqb p ["srv"; "data"; "a.log"]) eqn:E; [|reflexivity].
    apply path_eqb_eq in E. subst p. vm_compute in Hm. discriminate Hm.
Defined.

(** The whole function, whatever factory name it is given, does not
    depend on the metadata of excluded files either. *)
Lemma analyze_ignores_excluded_metadata name source_dir patterns w1 w2 :
  w_tree w1 source_dir = w_tree w2 source_dir ->
  (forall spec p,
      pathspec.from_lines name patterns = Returned spec ->
      pathspec.match_file spec (os_path.relpath p source_dir) = false ->
      w_stat w1 p = w_stat w2 p) ->
  fst (analyze_with_factory name source_dir patterns w1) =
  fst (analyze_with_factory name source_dir patterns w2).
Proof.
  intros Htree Hstat.
  unfold analyze_with_factory, try_except, bind, lift.
  destruct (pathspec.from_lines name patterns) as [spec|e] eqn:Hspec.
  - rewrite !scan_walk_run, <- Htree.
    destruct (scan_results_ext spec source_dir (w_stat w1) (w_stat w2)
                (os_walk source_dir (w_tree w1 source_dir))
                (fun p => Hstat spec p eq_refl)) as [-> _].
    reflexivity.
  - destruct (is_OSError e); reflexivity.
Qed.

(** ** Proof steps of the JSON proofs *)

(** Replaces the code of a character literal by its number. *)
Ltac ord_lits :=
  unfold dquote, newline in *;
  repeat match goal with
         | |- context [ord (Ascii ?a ?b ?c ?d ?e ?f ?g ?h)] =>
             let t := constr:(ord (Ascii a b c d e f g h)) in
             let v := eval vm_compute in t in
             change t with v
         | H : context [ord (Ascii ?a ?b ?c ?d ?e ?f ?g ?h)] |- _ =>
             let t := constr:(ord (Ascii a b c d e f g h)) in
             let v := eval vm_compute in t in
             change t with v in H
         end.

(** Decides the comparisons of the goal that arithmetic refutes. *)
Ltac eqb_false :=
  repeat match goal with
         | |- context [?a =? ?b] =>
             destruct (Z.eqb_spec a b); [lia|]
         end.

(** Closes an equation of lists that differ in the nesting of [++]. *)
Ltac reassoc := repeat (rewrite <- ?app_assoc; cbn [app]); reflexivity.

(** The lengths that an equation between texts gives. *)
Ltac split_length H :=
  let L := fresh "L" in
  pose proof (f_equal (@List.length Z) H) as L;
  rewrite ?length_app in L; cbn [List.length] in L.

(** ** JSON: characters and escapes *)

Section JsonRoundTrip.
Context `{Ext : Externals}.

Lemma ord_range (c : ascii) : 0 <= ord c < 256.
Proof. unfold ord. pose proof (N_ascii_bounded c). lia. Qed.

Lemma ord_chr (n : Z) : 0 <= n < 256 -> ord (chr n) = n.
Proof. intros Hn. unfold ord, chr. rewrite N_ascii_embedding by lia. lia. Qed.

Lemma chr_ord (c : ascii) : chr (ord c) = c.
Proof. unfold ord, chr. rewrite N2Z.id. apply ascii_N_embedding. Qed.

Lemma codes_app (a b : string) : codes (a ++ b) = codes a ++ codes b.
Proof. induction a as [|x a IH]; cbn; [reflexivity|now rewrite IH]. Qed.

Lemma string_of_codes_codes (s : string) : string_of_codes (codes s) = s.
Proof. induction s as [|c s IH]; cbn; [reflexivity|now rewrite chr_ord, IH]. Qed.

Lemma length_codes (s : string) : List.length (codes s) = String.length s.
Proof. induction s as [|c s IH]; cbn; [reflexivity|now rewrite IH]. Qed.

Lemma all_from_spec f count : forall start k,
  all_from f count start = true ->
  start <= k < start + Z.of_nat count -> f k = true.
Proof.
  induction count as [|count IH]; intros start k H Hk; [lia|].
  cbn [all_from] in H. apply andb_prop in H as [H0 H1].
  destruct (Z.eq_dec k start) as [->|Hne]; [exact H0|].
  apply (IH (start + 1)); [exact H1|lia].
Qed.

Lemma hex4_value_hex4 (n : Z) :
  0 <= n < 0x10000 ->
  exists a b c d,
    codes (json.hex4 n) = [a; b; c; d] /\
    json.hex4_value a b c d = Some n.
Proof.
  intros Hn.
  assert (H : hex4_ok n = true).
  { apply (all_from_spec hex4_ok (Z.to_nat 65536) 0); [now vm_compute|lia]. }
  unfold hex4_ok in H.
  assert (Hs : exists a b c d, codes (json.hex4 n) = [a; b; c; d])
    by (unfold json.hex4; cbn [codes]; eauto).
  destruct Hs as (a & b & c & d & Hs). rewrite Hs in H.
  exists a, b, c, d. split; [exact Hs|].
  destruct (json.hex4_value a b c d) as [m|]; [|discriminate].
  apply Z.eqb_eq in H. now subst.
Qed.

Lemma lor_shiftl_add (q r k : Z) :
  0 <= k -> 0 <= r < 2 ^ k -> Z.lor (Z.shiftl q k) r = q * 2 ^ k + r.
Proof.
  intros Hk Hr. rewrite Z.shiftl_mul_pow2 by assumption.
  assert (Hland : Z.land (q * 2 ^ k) r = 0).
  { apply Z.bits_inj'. intros i Hi. rewrite Z.land_spec, Z.bits_0.
    destruct (Z.lt_ge_cases i k) as [Hlt|Hge].
    - now rewrite Z.mul_pow2_bits_low.
    - rewrite <- (Z.mod_small r (2 ^ k)) by assumption.
      rewrite Z.mod_pow2_bits_high by lia. apply andb_false_r. }
  rewrite <- Z.lxor_lor by assumption. symmetry.
  now apply Z.add_nocarry_lxor.
Qed.

Lemma hex_value_bound x v : json.hex_value x = Some v -> 0 <= v < 16.
Proof.
  unfold json.hex_value.
  change (ord "0") with 48. change (ord "9") with 57.
  change (ord "a") with 97. change (ord "f") with 102.
  change (ord "A") with 65. change (ord "F") with 70.
  repeat match goal with
         | |- context [if ?b then _ else _] => destruct b eqn:?
         end; intros [= <-]; lia.
Qed.

Lemma hex4_value_bound a b c d n :
  json.hex4_value a b c d = Some n -> 0 <= n < 0x10000.
Proof.
  unfold json.hex4_value.
  destruct (json.hex_value a) as [x|] eqn:Ha; [|discriminate].
  destruct (json.hex_value b) as [y|] eqn:Hb; [|discriminate].
  destruct (json.hex_value c) as [z|] eqn:Hc; [|discriminate].
  destruct (json.hex_value d) as [t|] eqn:Hd; [|discriminate].
  apply hex_value_bound in Ha, Hb, Hc, Hd. intros H.
  assert (Hn : n = Z.lor (Z.shiftl (Z.lor (Z.shiftl (Z.lor (Z.shiftl x 4) y) 4) z) 4) t)
    by congruence.
  clear H. subst n.
  assert (E : 2 ^ 4 = 16) by reflexivity.
  rewrite !lor_shiftl_add by (rewrite ?E; lia). rewrite E. lia.
Qed.

Lemma append_assoc (a b c : string) : ((a ++ b) ++ c = a ++ (b ++ c))%string.
Proof. induction a as [|x a IH]; cbn; [reflexivity|now rewrite IH]. Qed.

Lemma append_empty_r (a : string) : (a ++ "" = a)%string.
Proof. induction a as [|x a IH]; cbn; [reflexivity|now rewrite IH]. Qed.

Lemma length_append (a b : string) :
  String.length (a ++ b) = (String.length a + String.length b)%nat.
Proof. induction a as [|x a IH]; cbn; [reflexivity|now rewrite IH]. Qed.

Lemma concat_empty_cons (x : string) (l : list string) :
  String.concat "" (x :: l) = (x ++ String.concat "" l)%string.
Proof. destruct l; cbn; [now rewrite append_empty_r|reflexivity]. Qed.

Lemma body_cons (c : Z) (s : json.pystr) :
  body (c :: s) = (json.escape_ascii c ++ body s)%string.
Proof. unfold body. cbn [map]. apply concat_empty_cons. Qed.

Lemma surrogate_halves (c : Z) :
  0x10000 <= c < 0x110000 ->
  let h := Z.lor 0xD800 (Z.land (Z.shiftr (c - 0x10000) 10) 0x3FF) in
  let l := Z.lor 0xDC00 (Z.land (c - 0x10000) 0x3FF) in
  0xD800 <= h <= 0xDBFF /\ 0xDC00 <= l <= 0xDFFF /\
  json.join_surrogates h l = c.
Proof.
  intros Hc. cbv zeta. unfold json.join_surrogates. set (n := c - 0x10000).
  assert (Hn : 0 <= n < 0x100000) by (subst n; lia).
  change 0x3FF with (Z.ones 10).
  rewrite (Z.land_ones (Z.shiftr n 10) 10) by lia.
  rewrite (Z.land_ones n 10) by lia.
  rewrite (Z.shiftr_div_pow2 n 10) by lia.
  change (2 ^ 10) with 1024.
  set (q := (n / 1024) mod 1024). set (r := n mod 1024).
  assert (Hq : 0 <= q < 1024) by (subst q; apply Z.mod_pos_bound; lia).
  assert (Hr : 0 <= r < 1024) by (subst r; apply Z.mod_pos_bound; lia).
  assert (Eh : Z.lor 0xD800 q = 0xD800 + q).
  { change 0xD800 with (Z.shiftl 54 10) at 1.
    rewrite lor_shiftl_add by (change (2 ^ 10) with 1024; lia). reflexivity. }
  assert (El : Z.lor 0xDC00 r = 0xDC00 + r).
  { change 0xDC00 with (Z.shiftl 55 10) at 1.
    rewrite lor_shiftl_add by (change (2 ^ 10) with 1024; lia). reflexivity. }
  rewrite Eh, El.
  replace (0xD800 + q - 0xD800) with q by lia.
  replace (0xDC00 + r - 0xDC00) with r by lia.
  rewrite lor_shiftl_add by (change (2 ^ 10) with 1024; lia).
  change (2 ^ 10) with 1024.
  assert (Hqe : q = n / 1024).
  { subst q. apply Z.mod_small. split.
    - apply Z.div_pos; lia.
    - apply Z.div_lt_upper_bound; lia. }
  pose proof (Z.div_mod n 1024 ltac:(lia)) as Hdm. fold r in Hdm.
  subst n. lia.
Qed.

Lemma is_high_iff (u : Z) : json.is_high_surrogate u = true <-> 0xD800 <= u <= 0xDBFF.
Proof. unfold json.is_high_surrogate. rewrite andb_true_iff, !Z.leb_le. tauto. Qed.

Lemma is_low_iff (u : Z) : json.is_low_surrogate u = true <-> 0xDC00 <= u <= 0xDFFF.
Proof. unfold json.is_low_surrogate. rewrite andb_true_iff, !Z.leb_le. tauto. Qed.

Lemma joined_range (h l : Z) :
  0xD800 <= h <= 0xDBFF -> 0xDC00 <= l <= 0xDFFF ->
  0x10000 <= json.join_surrogates h l < 0x110000.
Proof.
  intros Hh Hl. unfold json.join_surrogates.
  rewrite lor_shiftl_add by (change (2 ^ 10) with 1024; lia).
  change (2 ^ 10) with 1024. lia.
Qed.

Lemma codepoint_ok_iff (c : Z) : codepoint_ok c = true <-> 0 <= c < 0x110000.
Proof. unfold codepoint_ok. rewrite andb_true_iff, Z.leb_le, Z.ltb_lt. tauto. Qed.

(** One step of the scanner at a [\u] escape that is not joined with
    what follows. *)
Lemma scanstring_lone (h1 h2 h3 h4 uni : Z) (t : pytext) :
  json.hex4_value h1 h2 h3 h4 = Some uni ->
  json.is_high_surrogate uni && low_escape_ahead t = false ->
  json.scanstring (ord "\" :: ord "u" :: h1 :: h2 :: h3 :: h4 :: t) =
  json.cons_char uni (json.scanstring t).
Proof.
  intros Hv Hlone. cbn [json.scanstring].
  change (ord "\" =? ord dquote) with false.
  change (ord "\" =? ord "\") with true.
  change (ord "u" =? ord "u") with true. cbv iota. rewrite Hv.
  destruct t as [|b [|u [|l1 [|l2 [|l3 [|l4 r3]]]]]]; try reflexivity.
  unfold low_escape_ahead in Hlone.
  destruct (json.is_high_surrogate uni); [|reflexivity].
  cbn [andb] in Hlone |- *.
  destruct (negb (json.is_nil r3)); [|reflexivity].
  destruct (b =? ord "\"); [|reflexivity].
  destruct (u =? ord "u"); [|reflexivity].
  cbn [andb] in Hlone |- *.
  destruct (json.hex4_value l1 l2 l3 l4) as [uni2|]; [|discriminate].
  now rewrite Hlone.
Qed.

(** One step at the two escapes of a code point beyond [0xFFFF]. *)
Lemma scanstring_pair (h1 h2 h3 h4 l1 l2 l3 l4 hi lo : Z) (t : pytext) :
  json.hex4_value h1 h2 h3 h4 = Some hi ->
  json.hex4_value l1 l2 l3 l4 = Some lo ->
  json.is_high_surrogate hi = true ->
  json.is_low_surrogate lo = true ->
  t <> [] ->
  json.scanstring (ord "\" :: ord "u" :: h1 :: h2 :: h3 :: h4 ::
                   ord "\" :: ord "u" :: l1 :: l2 :: l3 :: l4 :: t) =
  json.cons_char (json.join_surrogates hi lo) (json.scanstring t).
Proof.
  intros Hh Hl Hhi Hlo Ht. cbn [json.scanstring].
  change (ord "\" =? ord dquote) with false.
  change (ord "\" =? ord "\") with true.
  change (ord "u" =? ord "u") with true. cbv iota.
  rewrite Hh, Hhi, Hl, Hlo.
  destruct t; [congruence|]. reflexivity.
Qed.

(** The characters that the encoder writes for one code point. *)
Lemma escape_ascii_cases (c : Z) :
  codepoint_ok c = true ->
  (exists e ch, codes (json.escape_ascii c) = [ord "\"; e] /\
                json.BACKSLASH e = Some ch /\ ch = c /\ e <> ord "u") \/
  (codes (json.escape_ascii c) = [c] /\ 32 <= c <= 126 /\
   c <> ord dquote /\ c <> ord "\") \/
  (c < 0x10000 /\
   exists h1 h2 h3 h4,
     codes (json.escape_ascii c) = [ord "\"; ord "u"; h1; h2; h3; h4] /\
     json.hex4_value h1 h2 h3 h4 = Some c) \/
  (0x10000 <= c /\
   exists h1 h2 h3 h4 l1 l2 l3 l4 hi lo,
     codes (json.escape_ascii c) =
       [ord "\"; ord "u"; h1; h2; h3; h4; ord "\"; ord "u"; l1; l2; l3; l4] /\
     json.hex4_value h1 h2 h3 h4 = Some hi /\
     json.hex4_value l1 l2 l3 l4 = Some lo /\
     json.is_high_surrogate hi = true /\ json.is_low_surrogate lo = true /\
     json.join_surrogates hi lo = c).
Proof.
  intros [Hlo Hhi]%codepoint_ok_iff. unfold json.escape_ascii.
  destruct (Z.eqb_spec c 34) as [->|N34];
    [left; exists 34, 34; repeat split; discriminate|].
  destruct (Z.eqb_spec c 92) as [->|N92];
    [left; exists 92, 92; repeat split; discriminate|].
  destruct (Z.eqb_spec c 8) as [->|N8];
    [left; exists 98, 8; repeat split; discriminate|].
  destruct (Z.eqb_spec c 12) as [->|N12];
    [left; exists 102, 12; repeat split; discriminate|].
  destruct (Z.eqb_spec c 10) as [->|N10];
    [left; exists 110, 10; repeat split; discriminate|].
  destruct (Z.eqb_spec c 13) as [->|N13];
    [left; exists 114, 13; repeat split; discriminate|].
  destruct (Z.eqb_spec c 9) as [->|N9];
    [left; exists 116, 9; repeat split; discriminate|].
  destruct ((32 <=? c) && (c <=? 126)) eqn:Hprint.
  - apply andb_prop in Hprint as [H32%Z.leb_le H126%Z.leb_le].
    right; left. cbn [codes]. rewrite ord_chr by lia.
    repeat split; try lia; assumption.
  - destruct (Z.ltb_spec c 0x10000) as [Hlt|Hge].
    + right; right; left. split; [exact Hlt|].
      destruct (hex4_value_hex4 c ltac:(lia)) as (a & b & x & d & Hs & Hv).
      exists a, b, x, d. split; [|exact Hv].
      rewrite codes_app, Hs. reflexivity.
    + right; right; right. split; [exact Hge|].
      destruct (surrogate_halves c ltac:(lia)) as (Hh & Hl & Hj).
      cbv zeta in Hh, Hl, Hj. cbv zeta.
      set (h := Z.lor 0xD800 _) in *. set (l := Z.lor 0xDC00 _) in *.
      destruct (hex4_value_hex4 h ltac:(lia)) as (a1 & b1 & c1 & d1 & Hs1 & Hv1).
      destruct (hex4_value_hex4 l ltac:(lia)) as (a2 & b2 & c2 & d2 & Hs2 & Hv2).
      exists a1, b1, c1, d1, a2, b2, c2, d2, h, l.
      rewrite !codes_app, Hs1, Hs2.
      repeat split; try assumption; try reflexivity.
      * now apply is_high_iff.
      * now apply is_low_iff.
Qed.

(** A low surrogate escape does not start the text of a string whose
    first code point is not a low surrogate. *)
Lemma no_low_ahead (s : json.pystr) (rest : pytext) :
  is_str s = true -> head_not_low s = true ->
  low_escape_ahead (codes (body s) ++ ord dquote :: rest) = false.
Proof.
  intros Hs Hhead. destruct s as [|d s].
  - cbn [body map String.concat codes app].
    unfold low_escape_ahead.
    destruct rest as [|u [|l1 [|l2 [|l3 [|l4 r3]]]]]; try reflexivity.
    change (ord dquote =? ord "\") with false.
    now rewrite andb_false_r.
  - cbn [is_str forallb] in Hs. apply andb_prop in Hs as [Hd Hs].
    cbn [head_not_low] in Hhead. apply negb_true_iff in Hhead.
    rewrite body_cons, codes_app, <- app_assoc.
    set (t := codes (body s) ++ ord dquote :: rest).
    assert (Ht : t <> []) by (subst t; destruct (codes (body s)); discriminate).
    destruct (escape_ascii_cases d Hd)
      as [(e & ch & -> & _ & _ & He)
         |[(-> & _ & _ & Hbs)
          |[(_ & h1 & h2 & h3 & h4 & -> & Hv)
           |(Hge & h1 & h2 & h3 & h4 & l1 & l2 & l3 & l4 & hi & lo & -> & Hh & Hl & Hhi & _ & _)]]].
    + cbn [app]. unfold low_escape_ahead.
      destruct t as [|t1 [|t2 [|t3 [|t4 r3]]]]; try reflexivity.
      apply Z.eqb_neq in He. now rewrite He, !andb_false_r.
    + cbn [app]. unfold low_escape_ahead.
      destruct t as [|t1 [|t2 [|t3 [|t4 [|t5 r3]]]]]; try reflexivity.
      apply Z.eqb_neq in Hbs. now rewrite Hbs, !andb_false_r.
    + cbn [app]. unfold low_escape_ahead. rewrite Hv, Hhead.
      now rewrite !andb_false_r.
    + cbn [app]. unfold low_escape_ahead. rewrite Hh.
      assert (Hnl : json.is_low_surrogate hi = false).
      { apply not_true_iff_false. rewrite is_low_iff.
        apply is_high_iff in Hhi. lia. }
      rewrite Hnl. now rewrite !andb_false_r.
Qed.

Lemma no_pair_tail (c : Z) (s : json.pystr) :
  json.no_pair (c :: s) = true ->
  json.no_pair s = true /\
  (json.is_high_surrogate c = true -> head_not_low s = true).
Proof.
  destruct s as [|d s]; [now split|].
  cbn [json.no_pair head_not_low].
  intros [Hcd Hs]%andb_prop. split; [exact Hs|].
  intros Hc. rewrite Hc in Hcd. cbn [andb] in Hcd. exact Hcd.
Qed.

(** Decoding the text of a string gives the string back. *)
Lemma scanstring_body (s : json.pystr) (rest : pytext) :
  is_str s = true -> json.no_pair s = true ->
  json.scanstring (codes (body s) ++ ord dquote :: rest) = json.Scanned s rest.
Proof.
  induction s as [|c s IH]; intros Hs Hnp.
  - cbn. reflexivity.
  - cbn [is_str forallb] in Hs. apply andb_prop in Hs as [Hc Hs].
    apply no_pair_tail in Hnp as [Hnp Hhead].
    specialize (IH Hs Hnp).
    rewrite body_cons, codes_app, <- app_assoc.
    set (t := codes (body s) ++ ord dquote :: rest) in *.
    assert (Ht : t <> []) by (subst t; destruct (codes (body s)); discriminate).
    destruct (escape_ascii_cases c Hc)
      as [(e & ch & -> & Hb & -> & He)
         |[(-> & Hr & Hq & Hbs)
          |[(_ & h1 & h2 & h3 & h4 & -> & Hv)
           |(Hge & h1 & h2 & h3 & h4 & l1 & l2 & l3 & l4 & hi & lo & -> & Hh & Hl & Hhi & Hlo & Hj)]]].
    + cbn [app json.scanstring].
      change (ord "\" =? ord dquote) with false.
      change (ord "\" =? ord "\") with true. cbv iota.
      apply Z.eqb_neq in He. rewrite He, Hb, IH. reflexivity.
    + cbn [app json.scanstring].
      apply Z.eqb_neq in Hq, Hbs. rewrite Hq, Hbs.
      destruct (Z.ltb_spec c 32); [lia|]. now rewrite IH.
    + cbn [app]. rewrite scanstring_lone with (uni := c); [now rewrite IH|exact Hv|].
      destruct (json.is_high_surrogate c) eqn:Hhc; [|reflexivity].
      cbn [andb]. subst t. apply no_low_ahead; [exact Hs|now apply Hhead].
    + cbn [app]. rewrite (scanstring_pair _ _ _ _ _ _ _ _ hi lo) by assumption.
      now rewrite Hj, IH.
Qed.

Lemma encode_basestring_ascii_body (s : json.pystr) (rest : string) :
  codes (json.encode_basestring_ascii s ++ rest) =
  ord dquote :: codes (body s) ++ ord dquote :: codes rest.
Proof.
  unfold json.encode_basestring_ascii. fold (body s).
  cbn [String.append codes]. now rewrite append_assoc, codes_app.
Qed.

End JsonRoundTrip.

(** ** JSON: numbers *)

Section JsonNumbers.
Context `{Ext : Externals}.

Lemma follow_ok_cases (rest : pytext) :
  follow_ok rest = true ->
  rest = [] \/ exists r, rest = ord "," :: r \/ rest = ord newline :: r.
Proof.
  destruct rest as [|c r]; [now left|]. cbn. intros H. right. exists r.
  apply orb_prop in H as [H|H]; apply Z.eqb_eq in H; subst; auto.
Qed.

Lemma span_digits_follow (rest : pytext) :
  follow_ok rest = true -> json.span_digits rest = ([], rest).
Proof.
  intros [->|[r [->| ->]]]%follow_ok_cases; reflexivity.
Qed.

Lemma span_digits_app (s rest : pytext) :
  follow_ok rest = true ->
  json.span_digits (s ++ rest) =
  (fst (json.span_digits s), snd (json.span_digits s) ++ rest).
Proof.
  intros Hf. induction s as [|c s IH].
  - cbn. now apply span_digits_follow.
  - cbn [app json.span_digits]. destruct (json.is_digit c); [|reflexivity].
    rewrite IH. now destruct (json.span_digits s).
Qed.

Lemma scan_int_part_app (c : Z) (r rest : pytext) :
  follow_ok rest = true ->
  json.scan_int_part c (r ++ rest) =
  (fst (json.scan_int_part c r), snd (json.scan_int_part c r) ++ rest).
Proof.
  intros Hf. unfold json.scan_int_part.
  destruct (c =? ord "0"); [reflexivity|].
  rewrite span_digits_app by assumption. now destruct (json.span_digits r).
Qed.

Lemma scan_frac_app (r1 rest : pytext) :
  follow_ok rest = true ->
  json.scan_frac (r1 ++ rest) =
  (fst (json.scan_frac r1), snd (json.scan_frac r1) ++ rest).
Proof.
  intros Hf. destruct r1 as [|dot r'].
  - cbn [app]. destruct (follow_ok_cases rest Hf) as [->|[r [->| ->]]];
      reflexivity.
  - cbn [app json.scan_frac]. destruct (dot =? ord "."); [|reflexivity].
    rewrite span_digits_app by assumption.
    destruct (json.span_digits r') as [[|f fs] rest']; reflexivity.
Qed.

Lemma scan_exp_app (r2 rest : pytext) :
  follow_ok rest = true ->
  json.scan_exp (r2 ++ rest) =
  (fst (json.scan_exp r2), snd (json.scan_exp r2) ++ rest).
Proof.
  intros Hf. destruct r2 as [|e r'].
  - cbn [app]. destruct (follow_ok_cases rest Hf) as [->|[r [->| ->]]];
      reflexivity.
  - cbn [app json.scan_exp].
    destruct ((e =? ord "e") || (e =? ord "E")); [|reflexivity].
    destruct r' as [|sg t].
    + cbn [app].
      destruct (follow_ok_cases rest Hf) as [->|[r [->| ->]]]; reflexivity.
    + cbn [app]. destruct ((sg =? ord "+") || (sg =? ord "-")).
      * rewrite span_digits_app by assumption.
        destruct (json.span_digits t) as [[|x es] rest']; reflexivity.
      * change (sg :: t ++ rest) with ((sg :: t) ++ rest).
        rewrite span_digits_app by assumption.
        destruct (json.span_digits (sg :: t)) as [[|x es] rest']; reflexivity.
Qed.

(** A number is read the same with more text after it, when that text
    starts with a comma or a newline. *)
Lemma scan_number_app (s rest r : pytext) (v : json.value) :
  follow_ok rest = true ->
  json.scan_number s = json.Scanned v r ->
  json.scan_number (s ++ rest) = json.Scanned v (r ++ rest).
Proof.
  intros Hf. unfold json.scan_number.
  assert (Hbody : forall (negative : bool) (s1 : pytext),
    match s1 with
    | [] => json.Failed JSONDecodeError
    | c :: r0 =>
        if json.is_digit c then
          let '(int_part, r1) := json.scan_int_part c r0 in
          let '(frac, r2) := json.scan_frac r1 in
          let '(exp, r3) := json.scan_exp r2 in
          match frac, exp with
          | [], [] =>
              if json.too_many_digits (List.length int_part)
              then json.Failed ValueError
              else json.Scanned (json.Int (if negative then - json.int_of_digits int_part
                                 else json.int_of_digits int_part)) r3
          | _, _ =>
              json.Scanned (json.Float (float_of_literal
                                ((if negative then codes "-" else [])
                                   ++ int_part ++ frac ++ exp))) r3
          end
        else json.Failed JSONDecodeError
    end = json.Scanned v r ->
    s1 <> [] /\
    match s1 ++ rest with
    | [] => json.Failed JSONDecodeError
    | c :: r0 =>
        if json.is_digit c then
          let '(int_part, r1) := json.scan_int_part c r0 in
          let '(frac, r2) := json.scan_frac r1 in
          let '(exp, r3) := json.scan_exp r2 in
          match frac, exp with
          | [], [] =>
              if json.too_many_digits (List.length int_part)
              then json.Failed ValueError
              else json.Scanned (json.Int (if negative then - json.int_of_digits int_part
                                 else json.int_of_digits int_part)) r3
          | _, _ =>
              json.Scanned (json.Float (float_of_literal
                                ((if negative then codes "-" else [])
                                   ++ int_part ++ frac ++ exp))) r3
          end
        else json.Failed JSONDecodeError
    end = json.Scanned v (r ++ rest)).
  { intros negative [|c r0]; [discriminate|]. intros H.
    split; [discriminate|]. cbn [app].
    destruct (json.is_digit c); [|discriminate].
    rewrite scan_int_part_app by assumption.
    destruct (json.scan_int_part c r0) as [int_part r1]. cbn [fst snd].
    rewrite scan_frac_app by assumption.
    destruct (json.scan_frac r1) as [frac r2]. cbn [fst snd].
    rewrite scan_exp_app by assumption.
    destruct (json.scan_exp r2) as [exp r3]. cbn [fst snd].
    destruct frac, exp;
      try (destruct (json.too_many_digits _); [discriminate|]);
      injection H as <- <-; reflexivity. }
  destruct s as [|c s']; [discriminate|]. cbn [app].
  destruct (c =? ord "-"); cbv beta iota; intros H.
  - now apply (Hbody true s') in H as [_ H].
  - apply (Hbody false (c :: s')) in H as [_ H]. exact H.
Qed.

Lemma starts_with_app (p s rest : pytext) :
  plain_chars p = true -> follow_ok rest = true ->
  json.starts_with p (s ++ rest) = json.starts_with p s.
Proof.
  intros Hp Hf. revert s. induction p as [|a p IH]; intros s; [reflexivity|].
  cbn [plain_chars forallb] in Hp. apply andb_prop in Hp as [Ha Hp].
  destruct s as [|b s].
  - cbn [app json.starts_with].
    destruct (follow_ok_cases rest Hf) as [->|[r [->| ->]]]; [reflexivity| |];
      cbn [json.starts_with]; apply negb_true_iff in Ha;
      apply orb_false_elim in Ha as [Ha1 Ha2]; [now rewrite Ha1|now rewrite Ha2].
  - cbn [app json.starts_with]. now rewrite IH.
Qed.

Lemma skipn_starts_with (p s rest : pytext) :
  json.starts_with p s = true ->
  skipn (List.length p) (s ++ rest) = skipn (List.length p) s ++ rest.
Proof.
  revert s. induction p as [|a p IH]; intros s; [reflexivity|].
  destruct s as [|b s]; [discriminate|]. cbn [json.starts_with].
  intros [_ H]%andb_prop. cbn [List.length skipn app]. now apply IH.
Qed.

(** A float that is read back alone is read back with more text after
    it. *)
Lemma float_reads_back_app (f : pyfloat) (rest : pytext) (fuel depth : nat) :
  json.float_reads_back f ->
  follow_ok rest = true ->
  json.scan_once (S fuel) depth (codes (floatstr f) ++ rest)
  = json.Scanned (json.Float f) rest.
Proof.
  unfold json.float_reads_back. intros H Hf.
  destruct (codes (floatstr f)) as [|c r] eqn:Ht; [discriminate|].
  cbn [json.scan_once] in H. cbn [app json.scan_once].
  destruct (c =? ord dquote).
  { destruct (json.scanstring r); discriminate. }
  destruct (c =? ord "{"); [discriminate|].
  destruct (c =? ord "["); [discriminate|].
  change (c :: r ++ rest) with ((c :: r) ++ rest).
  rewrite !starts_with_app by (try reflexivity; assumption).
  destruct (json.starts_with (codes "null") (c :: r)); [discriminate|].
  destruct (json.starts_with (codes "true") (c :: r)); [discriminate|].
  destruct (json.starts_with (codes "false") (c :: r)); [discriminate|].
  destruct (json.starts_with (codes "NaN") (c :: r)) eqn:H1.
  { pose proof (skipn_starts_with (codes "NaN") _ rest H1) as E.
    change (List.length (codes "NaN")) with 3%nat in E. rewrite E.
    injection H as Hfl Hrest.
    assert (Hr : skipn 3 (c :: r) = []) by exact Hrest.
    rewrite Hr. cbn [app]. do 2 f_equal. exact Hfl. }
  destruct (json.starts_with (codes "Infinity") (c :: r)) eqn:H2.
  { pose proof (skipn_starts_with (codes "Infinity") _ rest H2) as E.
    change (List.length (codes "Infinity")) with 8%nat in E. rewrite E.
    injection H as Hfl Hrest.
    assert (Hr : skipn 8 (c :: r) = []) by exact Hrest.
    rewrite Hr. cbn [app]. do 2 f_equal. exact Hfl. }
  destruct (json.starts_with (codes "-Infinity") (c :: r)) eqn:H3.
  { pose proof (skipn_starts_with (codes "-Infinity") _ rest H3) as E.
    change (List.length (codes "-Infinity")) with 9%nat in E. rewrite E.
    injection H as Hfl Hrest.
    assert (Hr : skipn 9 (c :: r) = []) by exact Hrest.
    rewrite Hr. cbn [app]. do 2 f_equal. exact Hfl. }
  now rewrite (scan_number_app _ rest [] _ Hf H).
Qed.

(** *** Integers *)

Lemma nzhead_head (d : Decimal.uint) :
  match Decimal.nzhead d with Decimal.D0 _ => False | _ => True end.
Proof. induction d; cbn; auto. Qed.

Lemma to_uint_head (p : positive) :
  match Pos.to_uint p with
  | Decimal.Nil | Decimal.D0 _ => False
  | _ => True
  end.
Proof.
  pose proof (DecimalPos.Unsigned.to_of (Pos.to_uint p)) as E.
  rewrite DecimalPos.Unsigned.of_to in E. cbn [N.to_uint] in E.
  pose proof (DecimalPos.Unsigned.to_uint_nonnil p) as Hnil.
  pose proof (DecimalPos.Unsigned.to_uint_nonzero p) as Hzero.
  destruct (Pos.to_uint p) as [|u|u|u|u|u|u|u|u|u|u]; try exact I.
  - now apply Hnil.
  - unfold Decimal.unorm in E. cbn [Decimal.nzhead] in E.
    pose proof (nzhead_head u) as Hh.
    destruct (Decimal.nzhead u) eqn:Hn; try discriminate E; contradiction.
Qed.

Lemma span_digits_uint (u : Decimal.uint) (rest : pytext) :
  follow_ok rest = true ->
  json.span_digits (codes (DecimalString.NilEmpty.string_of_uint u) ++ rest) =
  (codes (DecimalString.NilEmpty.string_of_uint u), rest).
Proof.
  intros Hf.
  induction u; cbn [DecimalString.NilEmpty.string_of_uint codes app];
    [now apply span_digits_follow| ..];
    cbn [json.span_digits]; rewrite IHu; reflexivity.
Qed.

Lemma int_of_digits_uint (u : Decimal.uint) :
  json.int_of_digits (codes (DecimalString.NilEmpty.string_of_uint u))
  = Z.of_uint u.
Proof.
  unfold json.int_of_digits.
  now rewrite string_of_codes_codes, DecimalString.NilEmpty.usu.
Qed.

Lemma of_uint_to_uint (p : positive) : Z.of_uint (Pos.to_uint p) = Z.pos p.
Proof. unfold Z.of_uint. now rewrite DecimalPos.Unsigned.of_to. Qed.

(** The text of a positive number: a digit from 1 to 9 and more digits. *)
Lemma intstr_pos (p : positive) :
  exists c ds,
    json.intstr (Z.pos p) = String c ds /\
    In c ["1"; "2"; "3"; "4"; "5"; "6"; "7"; "8"; "9"]%char /\
    (forall rest, follow_ok rest = true ->
       json.span_digits (codes ds ++ rest) = (codes ds, rest)) /\
    json.int_of_digits (codes (String c ds)) = Z.pos p.
Proof.
  pose proof (to_uint_head p) as Hh.
  pose proof (int_of_digits_uint (Pos.to_uint p)) as Hi.
  rewrite of_uint_to_uint in Hi.
  unfold json.intstr. cbn [Z.to_int DecimalString.NilZero.string_of_int].
  unfold DecimalString.NilZero.string_of_uint.
  destruct (Pos.to_uint p) as [|u|u|u|u|u|u|u|u|u|u]; try contradiction;
    cbn [DecimalString.NilEmpty.string_of_uint] in *;
    eexists _, _; (split; [reflexivity|]); (split; [cbn; tauto|]);
    (split; [|exact Hi]); intros rest Hf; now apply span_digits_uint.
Qed.

Lemma intstr_neg (p : positive) :
  json.intstr (Z.neg p) = String "-" (json.intstr (Z.pos p)).
Proof.
  unfold json.intstr. cbn [Z.to_int DecimalString.NilZero.string_of_int].
  reflexivity.
Qed.

Lemma is_digit_iff (c : Z) : json.is_digit c = true <-> 48 <= c <= 57.
Proof.
  unfold json.is_digit. change (ord "0") with 48. change (ord "9") with 57.
  rewrite andb_true_iff, !Z.leb_le. tauto.
Qed.

(** At a digit the scanner looks for a number. *)
Lemma scan_once_number (fuel depth : nat) (c : Z) (r : pytext) :
  json.is_digit c = true ->
  json.scan_once (S fuel) depth (c :: r) = json.scan_number (c :: r).
Proof.
  intros Hc%is_digit_iff.
  cbn [json.scan_once codes json.starts_with]. ord_lits.
  eqb_false. reflexivity.
Qed.

(** And at a minus sign before a digit. *)
Lemma scan_once_minus (fuel depth : nat) (c : Z) (r : pytext) :
  json.is_digit c = true ->
  json.scan_once (S fuel) depth (ord "-" :: c :: r)
  = json.scan_number (ord "-" :: c :: r).
Proof.
  intros Hc%is_digit_iff.
  cbn [json.scan_once codes json.starts_with]. ord_lits.
  change (45 =? 34) with false. change (45 =? 123) with false.
  change (45 =? 91) with false. change (110 =? 45) with false.
  change (116 =? 45) with false. change (102 =? 45) with false.
  change (78 =? 45) with false. change (73 =? 45) with false.
  change (45 =? 45) with true. cbn [andb].
  destruct (Z.eqb_spec 73 c); [lia|]. reflexivity.
Qed.

Lemma digit_char (c : ascii) :
  In c ["1"; "2"; "3"; "4"; "5"; "6"; "7"; "8"; "9"]%char ->
  json.is_digit (ord c) = true /\ (ord c =? ord "0") = false /\
  (ord c =? ord "-") = false.
Proof.
  cbn. intros H. repeat destruct H as [<-|H]; try contradiction;
    repeat split; reflexivity.
Qed.

Lemma digits_of_pos (p : positive) (c : ascii) (ds : string) :
  json.intstr (Z.pos p) = String c ds ->
  json.digits_of (Z.pos p) = List.length (ord c :: codes ds) /\
  json.digits_of (Z.neg p) = List.length (ord c :: codes ds).
Proof.
  intros Hs. unfold json.digits_of. cbn [Z.abs]. rewrite Hs.
  cbn [String.length List.length]. now rewrite length_codes.
Qed.

(** Decoding the text of an integer within the limit on digits gives
    the integer back. *)
Lemma scan_once_int (fuel depth : nat) (n : Z) (rest : pytext) :
  follow_ok rest = true ->
  json.too_many_digits (json.digits_of n) = false ->
  json.scan_once (S fuel) depth (codes (json.intstr n) ++ rest)
  = json.Scanned (json.Int n) rest.
Proof.
  intros Hf Hlim. destruct n as [|p|p].
  - change (codes (json.intstr 0)) with [ord "0"]. cbn [app].
    rewrite scan_once_number by reflexivity.
    unfold json.scan_number.
    change (ord "0" =? ord "-") with false. cbv beta iota.
    change (json.is_digit (ord "0")) with true. cbv iota.
    unfold json.scan_int_part. change (ord "0" =? ord "0") with true.
    cbv iota.
    replace (json.scan_frac rest) with (@nil Z, rest)
      by (destruct (follow_ok_cases rest Hf) as [->|[r [->| ->]]]; reflexivity).
    replace (json.scan_exp rest) with (@nil Z, rest)
      by (destruct (follow_ok_cases rest Hf) as [->|[r [->| ->]]]; reflexivity).
    reflexivity.
  - destruct (intstr_pos p) as (c & ds & Hs & Hin & Hspan & Hv).
    destruct (digit_char c Hin) as (Hd & H0 & Hm).
    destruct (digits_of_pos p c ds Hs) as [Hlen _]. rewrite Hlen in Hlim.
    rewrite Hs. cbn [codes app].
    rewrite scan_once_number by assumption.
    unfold json.scan_number. rewrite Hm. cbv beta iota. rewrite Hd.
    unfold json.scan_int_part. rewrite H0, (Hspan rest Hf).
    replace (json.scan_frac rest) with (@nil Z, rest)
      by (destruct (follow_ok_cases rest Hf) as [->|[r [->| ->]]]; reflexivity).
    replace (json.scan_exp rest) with (@nil Z, rest)
      by (destruct (follow_ok_cases rest Hf) as [->|[r [->| ->]]]; reflexivity).
    rewrite Hlim. cbn [codes] in Hv. now rewrite Hv.
  - destruct (intstr_pos p) as (c & ds & Hs & Hin & Hspan & Hv).
    destruct (digit_char c Hin) as (Hd & H0 & Hm).
    destruct (digits_of_pos p c ds Hs) as [_ Hlen]. rewrite Hlen in Hlim.
    rewrite intstr_neg, Hs. cbn [codes app].
    rewrite scan_once_minus by assumption.
    unfold json.scan_number.
    change (ord "-" =? ord "-") with true. cbv beta iota. rewrite Hd.
    unfold json.scan_int_part. rewrite H0, (Hspan rest Hf).
    replace (json.scan_frac rest) with (@nil Z, rest)
      by (destruct (follow_ok_cases rest Hf) as [->|[r [->| ->]]]; reflexivity).
    replace (json.scan_exp rest) with (@nil Z, rest)
      by (destruct (follow_ok_cases rest Hf) as [->|[r [->| ->]]]; reflexivity).
    rewrite Hlim. cbn [codes] in Hv. now rewrite Hv.
Qed.

End JsonNumbers.

(** ** JSON: values *)

Section JsonValues.
Context `{Ext : Externals}.

Lemma value_ind_nested (P : json.value -> Prop) :
  P json.Null ->
  (forall b, P (json.Bool b)) ->
  (forall n, P (json.Int n)) ->
  (forall f, P (json.Float f)) ->
  (forall s, P (json.Str s)) ->
  (forall items, Forall P items -> P (json.Array items)) ->
  (forall members, Forall (fun kv => P (snd kv)) members ->
                   P (json.Object members)) ->
  forall v, P v.
Proof.
  intros HN HB HI HF HS HA HO.
  refine (fix F (v : json.value) : P v :=
            match v with
            | json.Null => HN
            | json.Bool b => HB b
            | json.Int n => HI n
            | json.Float f => HF f
            | json.Str s => HS s
            | json.Array items =>
                HA items
                  ((fix G (l : list json.value) : Forall P l :=
                      match l with
                      | [] => Forall_nil _
                      | x :: t => Forall_cons x (F x) (G t)
                      end) items)
            | json.Object members =>
                HO members
                  ((fix G (l : list (json.pystr * json.value))
                      : Forall (fun kv => P (snd kv)) l :=
                      match l with
                      | [] => Forall_nil _
                      | x :: t => Forall_cons x (F (snd x)) (G t)
                      end) members)
            end).
Qed.

(** *** White space and first characters *)

Lemma skip_ws_spaces (n : nat) (t : pytext) :
  json.skip_ws (codes (json.spaces n) ++ t) = json.skip_ws t.
Proof. induction n as [|n IH]; cbn; [reflexivity|exact IH]. Qed.

Lemma skip_ws_newline_indent (level : nat) (t : pytext) :
  json.skip_ws (codes (json.newline_indent level) ++ t) = json.skip_ws t.
Proof.
  unfold json.newline_indent. cbn [codes app json.skip_ws].
  change (json.is_ws (ord newline)) with true. cbv iota. apply skip_ws_spaces.
Qed.

Lemma starts_value_skip_ws (s : string) (t : pytext) :
  starts_value s -> json.skip_ws (codes s ++ t) = codes s ++ t.
Proof.
  intros (c & r & -> & Hws & _). cbn. now rewrite Hws.
Qed.

Lemma intstr_starts (n : Z) : starts_value (json.intstr n).
Proof.
  destruct n as [|p|p].
  - now exists "0"%char, EmptyString.
  - destruct (intstr_pos p) as (c & ds & Hs & Hin & _).
    exists c, ds. split; [exact Hs|].
    cbn in Hin. repeat destruct Hin as [<-|Hin]; try contradiction;
      split; reflexivity.
  - rewrite intstr_neg. eexists _, _. split; [reflexivity|]. split; reflexivity.
Qed.

Lemma float_starts (f : pyfloat) :
  json.float_reads_back f -> starts_value (floatstr f).
Proof.
  unfold json.float_reads_back. intros H.
  destruct (floatstr f) as [|c t]; [discriminate|].
  exists c, t. split; [reflexivity|]. cbn [codes] in H.
  split.
  - destruct (json.is_ws (ord c)) eqn:Hws; [|reflexivity]. exfalso.
    unfold json.is_ws in Hws.
    repeat apply orb_prop in Hws as [Hws|Hws];
      apply Z.eqb_eq in Hws; rewrite Hws in H; discriminate H.
  - destruct (Z.eqb_spec (ord c) (ord "]")) as [E|]; [|reflexivity].
    rewrite E in H. discriminate H.
Qed.

Lemma iterencode_starts (v : json.value) (level : nat) :
  Forall json.float_reads_back (json.floats v) ->
  starts_value (json.iterencode v level).
Proof.
  destruct v as [|b|n|f|s|items|members]; cbn [json.floats json.iterencode];
    intros Hfl.
  - now exists "n"%char, "ull".
  - destruct b; eexists _, _; (split; [reflexivity|]); split; reflexivity.
  - apply intstr_starts.
  - apply float_starts. now inversion Hfl.
  - eexists _, _. split; [reflexivity|]. split; reflexivity.
  - destruct items; eexists _, _; (split; [reflexivity|]); split; reflexivity.
  - destruct members; eexists _, _; (split; [reflexivity|]); split; reflexivity.
Qed.

(** *** Dictionaries with different keys *)

Lemma pystr_eqb_sym (a b : json.pystr) :
  json.pystr_eqb a b = json.pystr_eqb b a.
Proof.
  revert b. induction a as [|x a IH]; intros [|y b]; cbn; try reflexivity.
  now rewrite Z.eqb_sym, IH.
Qed.

Lemma dict_set_fresh (k : json.pystr) (v : json.value)
      (d : list (json.pystr * json.value)) :
  existsb (fun kv => json.pystr_eqb (fst kv) k) d = false ->
  json.dict_set k v d = d ++ [(k, v)].
Proof.
  induction d as [|[k0 v0] d IH]; cbn; [reflexivity|].
  intros [H0 Hd]%orb_false_elim. rewrite H0. now rewrite IH.
Qed.

Lemma fold_dict_set_unique (members acc : list (json.pystr * json.value)) :
  json.keys_unique members = true ->
  (forall m, In m members ->
     existsb (fun kv => json.pystr_eqb (fst kv) (fst m)) acc = false) ->
  fold_left (fun d kv => json.dict_set (fst kv) (snd kv) d) members acc
  = acc ++ members.
Proof.
  revert acc. induction members as [|[k v] t IH]; intros acc Hu Hd.
  - cbn. now rewrite app_nil_r.
  - cbn [json.keys_unique] in Hu. apply andb_prop in Hu as [Hk Ht].
    apply negb_true_iff in Hk.
    cbn [fold_left fst snd].
    rewrite dict_set_fresh by (apply (Hd (k, v)); now left).
    rewrite IH; [now rewrite <- app_assoc| exact Ht |].
    intros m Hm. rewrite existsb_app. cbn [existsb fst].
    rewrite (Hd m) by now right. cbn [orb]. rewrite orb_false_r.
    rewrite pystr_eqb_sym.
    destruct (json.pystr_eqb (fst m) k) eqn:E; [|reflexivity].
    exfalso. apply not_true_iff_false in Hk. apply Hk.
    rewrite existsb_exists. now exists m.
Qed.

Lemma dict_of_pairs_unique (members : list (json.pystr * json.value)) :
  json.keys_unique members = true -> json.dict_of_pairs members = members.
Proof.
  intros Hu. unfold json.dict_of_pairs.
  now rewrite fold_dict_set_unique.
Qed.

(** *** The text of arrays and dictionaries *)

Lemma iterencode_array_cons (v : json.value) (items : list json.value)
      (level : nat) :
  json.iterencode (json.Array (v :: items)) level =
  ("[" ++ json.newline_indent (S level)
       ++ String.concat (sep level) (map (enc level) (v :: items))
       ++ json.newline_indent level ++ "]")%string.
Proof. reflexivity. Qed.

Lemma iterencode_object_cons (m : json.pystr * json.value)
      (members : list (json.pystr * json.value)) (level : nat) :
  json.iterencode (json.Object (m :: members)) level =
  ("{" ++ json.newline_indent (S level)
       ++ String.concat (sep level) (map (encm level) (m :: members))
       ++ json.newline_indent level ++ "}")%string.
Proof. reflexivity. Qed.

Lemma concat_cons2 (s x y : string) (l : list string) :
  String.concat s (x :: y :: l) = (x ++ s ++ String.concat s (y :: l))%string.
Proof. reflexivity. Qed.

Lemma array_loop_S (fuel depth : nat) (s : pytext) :
  json.array_loop (S fuel) depth s =
  match json.scan_once fuel depth s with
  | json.Failed e => json.Failed e
  | json.Scanned v r =>
      match json.skip_ws r with
      | [] => json.Failed JSONDecodeError
      | c :: r1 =>
          if c =? ord "]" then json.Scanned [v] r1
          else if c =? ord "," then
            match json.array_loop fuel depth (json.skip_ws r1) with
            | json.Scanned vs rest => json.Scanned (v :: vs) rest
            | json.Failed e => json.Failed e
            end
          else json.Failed JSONDecodeError
      end
  end.
Proof. reflexivity. Qed.

Lemma object_loop_S (fuel depth : nat) (s : pytext) :
  json.object_loop (S fuel) depth s =
  match json.scanstring s with
  | json.Failed e => json.Failed e
  | json.Scanned key r =>
      match json.expect ":" (json.skip_ws r) with
      | None => json.Failed JSONDecodeError
      | Some r1 =>
          match json.scan_once fuel depth (json.skip_ws r1) with
          | json.Failed e => json.Failed e
          | json.Scanned v r2 =>
              match json.skip_ws r2 with
              | [] => json.Failed JSONDecodeError
              | c :: r3 =>
                  if c =? ord "}" then json.Scanned [(key, v)] r3
                  else if c =? ord "," then
                    match json.expect dquote (json.skip_ws r3) with
                    | None => json.Failed JSONDecodeError
                    | Some r4 =>
                        match json.object_loop fuel depth r4 with
                        | json.Scanned ms rest => json.Scanned ((key, v) :: ms) rest
                        | json.Failed e => json.Failed e
                        end
                    end
                  else json.Failed JSONDecodeError
              end
          end
      end
  end.
Proof. reflexivity. Qed.

Lemma scan_once_S (fuel depth : nat) (s : pytext) :
  json.scan_once (S fuel) depth s =
  match s with
  | [] => json.Failed JSONDecodeError
  | c :: r =>
      if c =? ord dquote then
        match json.scanstring r with
        | json.Scanned str rest => json.Scanned (json.Str str) rest
        | json.Failed e => json.Failed e
        end
      else if c =? ord "{" then
        match depth with
        | O => json.Failed RecursionError
        | S depth' =>
            match json.skip_ws r with
            | [] => json.Failed JSONDecodeError
            | c1 :: r1 =>
                if c1 =? ord "}" then json.Scanned (json.Object []) r1
                else if c1 =? ord dquote then
                  match json.object_loop fuel depth' r1 with
                  | json.Scanned pairs rest =>
                      json.Scanned (json.Object (json.dict_of_pairs pairs)) rest
                  | json.Failed e => json.Failed e
                  end
                else json.Failed JSONDecodeError
            end
        end
      else if c =? ord "[" then
        match depth with
        | O => json.Failed RecursionError
        | S depth' =>
            match json.skip_ws r with
            | [] => json.Failed JSONDecodeError
            | c1 :: r1 =>
                if c1 =? ord "]" then json.Scanned (json.Array []) r1
                else
                  match json.array_loop fuel depth' (c1 :: r1) with
                  | json.Scanned items rest => json.Scanned (json.Array items) rest
                  | json.Failed e => json.Failed e
                  end
            end
        end
      else if json.starts_with (codes "null") s
           then json.Scanned json.Null (skipn 4 s)
      else if json.starts_with (codes "true") s
           then json.Scanned (json.Bool true) (skipn 4 s)
      else if json.starts_with (codes "false") s
           then json.Scanned (json.Bool false) (skipn 5 s)
      else if json.starts_with (codes "NaN") s
           then json.Scanned (json.Float (float_of_literal (codes "NaN")))
                             (skipn 3 s)
      else if json.starts_with (codes "Infinity") s
           then json.Scanned (json.Float (float_of_literal (codes "Infinity")))
                             (skipn 8 s)
      else if json.starts_with (codes "-Infinity") s
           then json.Scanned (json.Float (float_of_literal (codes "-Infinity")))
                             (skipn 9 s)
      else json.scan_number s
  end.
Proof. reflexivity. Qed.

Lemma follow_ok_newline_indent (level : nat) (t : pytext) :
  follow_ok (codes (json.newline_indent level) ++ t) = true.
Proof. reflexivity. Qed.

Lemma follow_ok_sep (level : nat) (t : pytext) :
  follow_ok (codes (sep level) ++ t) = true.
Proof. reflexivity. Qed.

Lemma concat_starts (level : nat) (v : json.value) (tl : list json.value) :
  Forall json.float_reads_back (json.floats v) ->
  starts_value (String.concat (sep level) (map (enc level) (v :: tl))).
Proof.
  intros Hfl. destruct (iterencode_starts v (S level) Hfl) as (c & t & Hs & Hc).
  cbn [map]. destruct tl as [|v2 tl]; cbn [map].
  - cbn [String.concat]. unfold enc. rewrite Hs. now exists c, t.
  - rewrite concat_cons2. unfold enc at 1. rewrite Hs. cbn [String.append].
    eexists _, _. split; [reflexivity|exact Hc].
Qed.

(** The parts of what the round trip asks, for the items of an array
    and the members of a dictionary. *)
Lemma readable_array (items : list json.value) :
  readable (json.Array items) -> Forall readable items.
Proof.
  intros (Hwf & Hpf & Hfl). cbn [json.well_formed json.pairs_free json.floats] in *.
  rewrite forallb_forall in Hwf, Hpf. rewrite Forall_forall in *.
  intros x Hx. repeat split; auto.
  rewrite Forall_forall. intros f Hf. apply Hfl.
  apply in_flat_map. now exists x.
Qed.

Lemma readable_object (members : list (json.pystr * json.value)) :
  readable (json.Object members) ->
  json.keys_unique members = true /\
  Forall (fun kv => is_str (fst kv) = true /\ json.no_pair (fst kv) = true /\
                    readable (snd kv)) members.
Proof.
  intros (Hwf & Hpf & Hfl). cbn [json.well_formed json.pairs_free json.floats] in *.
  apply andb_prop in Hwf as [[Hu Hks]%andb_prop Hvs].
  apply andb_prop in Hpf as [Hkp Hvp].
  split; [exact Hu|].
  rewrite forallb_forall in Hks, Hvs, Hkp, Hvp. rewrite Forall_forall in *.
  intros x Hx. repeat split; auto.
  rewrite Forall_forall. intros f Hf. apply Hfl.
  apply in_flat_map. now exists x.
Qed.

Lemma array_loop_items (level : nat) (rest : pytext) (depth : nat) :
  forall (items : list json.value) (fuel : nat),
    items <> [] ->
    Forall (fun v => readable v /\ reads_back v /\
                     (json.depth v <= depth)%nat) items ->
    (list_sum (map (fun v => S (json.need v)) items) <= fuel)%nat ->
    json.array_loop fuel depth
      (codes (String.concat (sep level) (map (enc level) items))
         ++ codes (json.newline_indent level) ++ ord "]" :: rest)
    = json.Scanned items rest.
Proof.
  induction items as [|v tl IH]; intros fuel Hne Hall Hfuel; [congruence|].
  inversion Hall as [|? ? (Hr & Hv & Hd) Htl]; subst.
  cbn [map list_sum fold_right] in Hfuel.
  destruct fuel as [|fuel]; [lia|].
  rewrite array_loop_S.
  destruct tl as [|v2 tl'].
  - cbn [map String.concat]. unfold enc. cbn [map list_sum fold_right] in Hfuel.
    rewrite Hv by (try apply follow_ok_newline_indent; lia).
    rewrite skip_ws_newline_indent. cbn [json.skip_ws].
    change (json.is_ws (ord "]")) with false. cbv iota.
    now rewrite Z.eqb_refl.
  - cbn [map]. rewrite concat_cons2, !codes_app, <- !app_assoc. unfold enc at 1.
    rewrite Hv by (try apply follow_ok_sep; cbn [map list_sum fold_right] in Hfuel; lia).
    unfold sep at 1. rewrite codes_app. cbn [codes app json.skip_ws].
    change (json.is_ws (ord ",")) with false. cbv iota.
    change (ord "," =? ord "]") with false.
    change (ord "," =? ord ",") with true. cbv iota.
    rewrite <- ?app_assoc, skip_ws_newline_indent.
    inversion Htl as [|? ? ((_ & _ & Hfl2) & _) _]; subst.
    pose proof (concat_starts level v2 tl' Hfl2) as Hst. cbn [map] in Hst.
    rewrite (starts_value_skip_ws _ _ Hst).
    change (enc level v2 :: map (enc level) tl') with
      (map (enc level) (v2 :: tl')).
    rewrite IH; [reflexivity|congruence|exact Htl|].
    cbn [map list_sum fold_right] in *. lia.
Qed.

Lemma object_loop_members (level : nat) (rest : pytext) (depth : nat) :
  forall (members : list (json.pystr * json.value)) (fuel : nat),
    members <> [] ->
    Forall (fun kv => is_str (fst kv) = true /\
                      json.no_pair (fst kv) = true /\
                      readable (snd kv) /\
                      reads_back (snd kv) /\
                      (json.depth (snd kv) <= depth)%nat) members ->
    (list_sum (map (fun kv => S (json.need (snd kv))) members) <= fuel)%nat ->
    exists r,
      codes (String.concat (sep level) (map (encm level) members))
         ++ codes (json.newline_indent level) ++ ord "}" :: rest
      = ord dquote :: r /\
      json.object_loop fuel depth r = json.Scanned members rest.
Proof.
  induction members as [|[k v] tl IH]; intros fuel Hne Hall Hfuel; [congruence|].
  inversion Hall as [|? ? (Hk & Hkp & (_ & _ & Hfl) & Hv & Hd) Htl]; subst.
  cbn [fst snd] in *.
  cbn [map list_sum fold_right snd] in Hfuel.
  destruct fuel as [|fuel]; [lia|].
  assert (Hloop : forall X : pytext,
    follow_ok X = true ->
    json.object_loop (S fuel) depth
      (codes (body k) ++ ord dquote :: ord ":" :: ord " " ::
         codes (json.iterencode v (S level)) ++ X)
    = match json.skip_ws X with
      | [] => json.Failed JSONDecodeError
      | c :: r3 =>
          if c =? ord "}" then json.Scanned [(k, v)] r3
          else if c =? ord "," then
            match json.expect dquote (json.skip_ws r3) with
            | None => json.Failed JSONDecodeError
            | Some r4 =>
                match json.object_loop fuel depth r4 with
                | json.Scanned ms rest => json.Scanned ((k, v) :: ms) rest
                | json.Failed e => json.Failed e
                end
            end
          else json.Failed JSONDecodeError
      end).
  { intros X HX. rewrite object_loop_S.
    rewrite (scanstring_body k _ Hk Hkp).
    cbn [json.skip_ws].
    change (json.is_ws (ord ":")) with false. cbv iota.
    cbn [json.expect].
    change (ord ":" =? ord ":") with true. cbv iota.
    cbn [json.skip_ws].
    change (json.is_ws (ord " ")) with true. cbv iota.
    rewrite (starts_value_skip_ws _ _ (iterencode_starts v (S level) Hfl)).
    rewrite Hv by (try assumption; lia). reflexivity. }
  assert (Hcodes : forall Y : string,
    codes (encm level (k, v) ++ Y) =
    ord dquote :: codes (body k) ++ ord dquote :: ord ":" :: ord " " ::
      codes (json.iterencode v (S level)) ++ codes Y).
  { intros Y. unfold encm. cbn [fst snd].
    rewrite append_assoc, encode_basestring_ascii_body.
    rewrite append_assoc. cbn [String.append codes].
    now rewrite codes_app. }
  destruct tl as [|[k2 v2] tl'].
  - cbn [map String.concat].
    rewrite <- (append_empty_r (encm level (k, v))), Hcodes.
    cbn [codes app]. rewrite <- ?app_assoc. cbn [app].
    eexists. split; [reflexivity|]. rewrite app_nil_r.
    rewrite Hloop by apply follow_ok_newline_indent.
    rewrite skip_ws_newline_indent. cbn [json.skip_ws].
    change (json.is_ws (ord "}")) with false. cbv iota.
    now rewrite Z.eqb_refl.
  - destruct (IH fuel ltac:(congruence) Htl
                ltac:(cbn [map list_sum fold_right snd] in *; lia))
      as (r' & Hr' & Hloop').
    cbn [map]. rewrite concat_cons2, Hcodes.
    cbn [app]. rewrite <- ?app_assoc. cbn [app].
    eexists. split; [reflexivity|].
    rewrite codes_app, <- !app_assoc.
    rewrite Hloop by apply follow_ok_sep.
    unfold sep at 1. rewrite codes_app. cbn [codes app json.skip_ws].
    change (json.is_ws (ord ",")) with false. cbv iota.
    change (ord "," =? ord "}") with false.
    change (ord "," =? ord ",") with true. cbv iota.
    rewrite <- ?app_assoc, skip_ws_newline_indent.
    change (encm level (k2, v2) :: map (encm level) tl') with
      (map (encm level) ((k2, v2) :: tl')).
    rewrite Hr'. cbn [json.skip_ws].
    change (json.is_ws (ord dquote)) with false. cbv iota.
    cbn [json.expect]. rewrite Z.eqb_refl. now rewrite Hloop'.
Qed.

End JsonValues.

(** ** The decoder reads the encoder's text back *)

Section JsonReadsBack.
Context `{Ext : Externals}.

Lemma depth_array_item (items : list json.value) (d : nat) :
  (json.depth (json.Array items) <= S d)%nat ->
  Forall (fun v => (json.depth v <= d)%nat) items.
Proof.
  cbn [json.depth]. intros H. apply le_S_n in H.
  induction items as [|x items IH]; [constructor|].
  cbn [fold_right] in H. constructor; [lia|]. apply IH. lia.
Qed.

Lemma depth_object_member (members : list (json.pystr * json.value)) (d : nat) :
  (json.depth (json.Object members) <= S d)%nat ->
  Forall (fun kv => (json.depth (snd kv) <= d)%nat) members.
Proof.
  cbn [json.depth]. intros H. apply le_S_n in H.
  induction members as [|x members IH]; [constructor|].
  cbn [fold_right] in H. constructor; [lia|]. apply IH. lia.
Qed.

Lemma codes_encode_basestring_ascii (s : json.pystr) (rest : pytext) :
  codes (json.encode_basestring_ascii s) ++ rest =
  ord dquote :: codes (body s) ++ ord dquote :: rest.
Proof.
  rewrite <- (append_empty_r (json.encode_basestring_ascii s)).
  rewrite encode_basestring_ascii_body. cbn [codes app].
  now rewrite <- app_assoc.
Qed.

(** Decoding the text of a value gives the value back. *)
Lemma iterencode_reads_back (v : json.value) :
  readable v -> reads_back v.
Proof.
  induction v as [|b|n|f|s|items IH|members IH] using value_ind_nested;
    intros Hr level rest fuel depth Hfuel Hdepth Hrest;
    (destruct fuel as [|fuel]; [cbn [json.need] in Hfuel; lia|]).
  - reflexivity.
  - destruct b; reflexivity.
  - destruct Hr as (Hwf & _ & _). cbn [json.well_formed] in Hwf.
    apply negb_true_iff in Hwf.
    cbn [json.iterencode]. now apply scan_once_int.
  - destruct Hr as (_ & _ & Hfl). cbn [json.floats] in Hfl.
    cbn [json.iterencode]. apply float_reads_back_app; [|exact Hrest].
    now inversion Hfl.
  - destruct Hr as (Hwf & Hpf & _).
    cbn [json.well_formed json.pairs_free json.iterencode] in *.
    rewrite codes_encode_basestring_ascii, scan_once_S.
    rewrite Z.eqb_refl. now rewrite scanstring_body.
  - destruct depth as [|depth]; [cbn [json.depth] in Hdepth; lia|].
    destruct items as [|v tl]; [reflexivity|].
    pose proof (readable_array _ Hr) as Hall.
    pose proof (depth_array_item _ _ Hdepth) as Hdep.
    rewrite iterencode_array_cons, !codes_app, <- !app_assoc.
    cbn [codes app]. rewrite scan_once_S.
    change (ord "[" =? ord dquote) with false.
    change (ord "[" =? ord "{") with false.
    change (ord "[" =? ord "[") with true. cbv iota.
    rewrite skip_ws_newline_indent.
    assert (Hall' : Forall (fun v => readable v /\ reads_back v /\
                                     (json.depth v <= depth)%nat) (v :: tl)).
    { rewrite Forall_forall in *. intros x Hx. repeat split; auto;
        apply Hall; exact Hx. }
    assert (Hfl : Forall json.float_reads_back (json.floats v)).
    { inversion Hall as [|? ? (_ & _ & H) _]. exact H. }
    rewrite (starts_value_skip_ws _ _ (concat_starts level v tl Hfl)).
    destruct (concat_starts level v tl Hfl) as (c & t & Hs & _ & Hc).
    pose proof (array_loop_items level rest depth (v :: tl) fuel
                  ltac:(congruence) Hall'
                  ltac:(cbn [json.need] in Hfuel; lia)) as Hloop.
    rewrite Hs in *. cbn [codes app] in *. rewrite Hc, Hloop. reflexivity.
  - destruct depth as [|depth]; [cbn [json.depth] in Hdepth; lia|].
    destruct members as [|m tl]; [reflexivity|].
    destruct (readable_object _ Hr) as [Hu Hall].
    pose proof (depth_object_member _ _ Hdepth) as Hdep.
    rewrite iterencode_object_cons, !codes_app, <- !app_assoc.
    cbn [codes app]. rewrite scan_once_S.
    change (ord "{" =? ord dquote) with false.
    change (ord "{" =? ord "{") with true. cbv iota.
    rewrite skip_ws_newline_indent.
    assert (Hall' : Forall (fun kv => is_str (fst kv) = true /\
                                      json.no_pair (fst kv) = true /\
                                      readable (snd kv) /\
                                      reads_back (snd kv) /\
                                      (json.depth (snd kv) <= depth)%nat)
                           (m :: tl)).
    { rewrite Forall_forall in *. intros x Hx.
      destruct (Hall x Hx) as (H1 & H2 & H3).
      split; [exact H1|]. split; [exact H2|]. split; [exact H3|].
      split; [now apply IH|now apply Hdep]. }
    destruct (object_loop_members level rest depth (m :: tl) fuel
                ltac:(congruence) Hall'
                ltac:(cbn [json.need] in Hfuel; lia)) as (r & Hr' & Hloop).
    rewrite Hr'. cbn [json.skip_ws].
    change (json.is_ws (ord dquote)) with false. cbv iota.
    change (ord dquote =? ord "}") with false. rewrite Z.eqb_refl.
    rewrite Hloop. now rewrite dict_of_pairs_unique.
Qed.

Lemma starts_value_length (s : string) :
  starts_value s -> (1 <= String.length s)%nat.
Proof. intros (c & t & -> & _). cbn. lia. Qed.

Lemma length_newline_indent (level : nat) :
  (1 <= String.length (json.newline_indent level))%nat.
Proof. cbn. lia. Qed.

Lemma sum_need_le_concat (A : Type) (needf : A -> nat) (encf : A -> string)
      (s : string) (l : list A) :
  (1 <= String.length s)%nat ->
  Forall (fun x => (needf x <= String.length (encf x))%nat) l ->
  (list_sum (map (fun x => S (needf x)) l)
   <= String.length (String.concat s (map encf l)) + 1)%nat.
Proof.
  intros Hs Hall. induction Hall as [|x l Hx Hl IH]; [cbn; lia|].
  destruct l as [|y l'].
  - cbn. lia.
  - cbn [map] in *. rewrite concat_cons2, !length_append.
    cbn [list_sum fold_right] in *. lia.
Qed.

Lemma floats_array_item (items : list json.value) :
  Forall json.float_reads_back (json.floats (json.Array items)) ->
  Forall (fun x => Forall json.float_reads_back (json.floats x)) items.
Proof.
  cbn [json.floats]. intros H. rewrite Forall_forall in *. intros x Hx.
  rewrite Forall_forall. intros f Hf. apply H. apply in_flat_map. now exists x.
Qed.

Lemma floats_object_member (members : list (json.pystr * json.value)) :
  Forall json.float_reads_back (json.floats (json.Object members)) ->
  Forall (fun kv => Forall json.float_reads_back (json.floats (snd kv))) members.
Proof.
  cbn [json.floats]. intros H. rewrite Forall_forall in *. intros x Hx.
  rewrite Forall_forall. intros f Hf. apply H. apply in_flat_map. now exists x.
Qed.

Lemma need_le_length (v : json.value) :
  Forall json.float_reads_back (json.floats v) ->
  forall level, (json.need v <= String.length (json.iterencode v level))%nat.
Proof.
  induction v as [|b|n|f|s|items IH|members IH] using value_ind_nested;
    intros Hfl level.
  - cbn. lia.
  - destruct b; cbn; lia.
  - cbn [json.need json.iterencode]. apply starts_value_length, intstr_starts.
  - cbn [json.need json.iterencode]. apply starts_value_length, float_starts.
    cbn [json.floats] in Hfl. now inversion Hfl.
  - cbn. lia.
  - destruct items as [|v tl]; [cbn; lia|].
    rewrite iterencode_array_cons, !length_append.
    pose proof (length_newline_indent (S level)).
    pose proof (length_newline_indent level).
    pose proof (floats_array_item _ Hfl) as Hfls.
    assert (Hall : Forall (fun x => (json.need x
                     <= String.length (enc level x))%nat) (v :: tl)).
    { rewrite Forall_forall in *. intros x Hx. apply IH; auto. }
    pose proof (sum_need_le_concat _ json.need (enc level) (sep level) (v :: tl)
                  ltac:(cbn; lia) Hall) as Hsum.
    cbn [json.need String.length]. lia.
  - destruct members as [|m tl]; [cbn; lia|].
    rewrite iterencode_object_cons, !length_append.
    pose proof (length_newline_indent (S level)).
    pose proof (length_newline_indent level).
    pose proof (floats_object_member _ Hfl) as Hfls.
    assert (Hall : Forall (fun kv => (json.need (snd kv)
                     <= String.length (encm level kv))%nat) (m :: tl)).
    { rewrite Forall_forall in *. intros x Hx. unfold encm.
      rewrite !length_append.
      specialize (IH x Hx (Hfls x Hx) (S level)). lia. }
    pose proof (sum_need_le_concat _ (fun kv => json.need (snd kv))
                  (encm level) (sep level) (m :: tl)
                  ltac:(cbn; lia) Hall) as Hsum.
    cbn [json.need String.length]. lia.
Qed.

(** [json.loads] reads the text of [json.dump(..., indent=4)] back. *)
Lemma loads_dumps (v : json.value) :
  readable v ->
  (json.depth v <= recursion_depth)%nat ->
  json.loads (codes (json.dumps_indent4 v)) = Returned v.
Proof.
  intros Hr Hd. unfold json.loads, json.dumps_indent4.
  destruct Hr as (Hwf & Hpf & Hfl).
  pose proof (need_le_length v Hfl 0) as Hneed.
  pose proof (iterencode_starts v 0 Hfl) as Hst.
  pose proof (starts_value_skip_ws _ [] Hst) as Hws.
  rewrite app_nil_r in Hws. rewrite Hws, length_codes.
  pose proof (iterencode_reads_back v (conj Hwf (conj Hpf Hfl)) 0%nat []
                (S (2 * String.length (json.iterencode v 0))) recursion_depth
                ltac:(lia) Hd eq_refl) as Hrb.
  rewrite app_nil_r in Hrb. now rewrite Hrb.
Qed.

End JsonReadsBack.

(** ** What the decoder returns *)

Section JsonDecoded.
Context `{Ext : Externals}.

(** *** What the scanning functions consume *)

Lemma is_str_app (a b : pytext) :
  is_str (a ++ b) = is_str a && is_str b.
Proof. unfold is_str. apply forallb_app. Qed.

Lemma skip_ws_split (s : pytext) : exists pre, s = pre ++ json.skip_ws s.
Proof.
  induction s as [|c s (pre & IH)]; [now exists []|].
  cbn [json.skip_ws]. destruct (json.is_ws c).
  - exists (c :: pre). cbn. now rewrite <- IH.
  - now exists [].
Qed.

Lemma expect_split (c : ascii) (s r : pytext) :
  json.expect c s = Some r -> s = ord c :: r.
Proof.
  destruct s as [|d s]; cbn; [discriminate|].
  destruct (Z.eqb_spec d (ord c)); [|discriminate]. now intros [= ->]; subst.
Qed.

Lemma is_digit_plain (c : Z) :
  json.is_digit c = true ->
  negb ((c =? ord ",") || (c =? ord newline)) = true.
Proof.
  intros H%is_digit_iff. ord_lits.
  destruct (Z.eqb_spec c 44); [lia|]. destruct (Z.eqb_spec c 10); [lia|].
  reflexivity.
Qed.

Lemma span_digits_split (s : pytext) :
  s = fst (json.span_digits s) ++ snd (json.span_digits s) /\
  plain_chars (fst (json.span_digits s)) = true.
Proof.
  induction s as [|c s [IH1 IH2]]; [now split|].
  cbn [json.span_digits]. destruct (json.is_digit c) eqn:Hc; [|now split].
  destruct (json.span_digits s) as [ds rest]. cbn [fst snd] in *.
  split; [cbn; now rewrite <- IH1|].
  cbn [plain_chars forallb]. fold (plain_chars ds).
  now rewrite is_digit_plain, IH2.
Qed.

Lemma scan_int_part_split (c : Z) (r : pytext) :
  json.is_digit c = true ->
  exists d ds,
    fst (json.scan_int_part c r) = d :: ds /\
    c :: r = (d :: ds) ++ snd (json.scan_int_part c r) /\
    plain_chars (d :: ds) = true.
Proof.
  intros Hc. unfold json.scan_int_part.
  destruct (c =? ord "0").
  - exists c, []. cbn [fst snd app plain_chars forallb].
    now rewrite is_digit_plain.
  - destruct (span_digits_split r) as [H1 H2].
    destruct (json.span_digits r) as [ds rest]. cbn [fst snd] in *.
    exists c, ds. repeat split; [cbn; now rewrite <- H1|].
    cbn [plain_chars forallb]. fold (plain_chars ds).
    now rewrite is_digit_plain, H2.
Qed.

Lemma scan_frac_split (r1 : pytext) :
  r1 = fst (json.scan_frac r1) ++ snd (json.scan_frac r1) /\
  plain_chars (fst (json.scan_frac r1)) = true.
Proof.
  destruct r1 as [|dot r']; [now split|]. cbn [json.scan_frac].
  destruct (Z.eqb_spec dot (ord ".")) as [->|]; [|now split].
  destruct (span_digits_split r') as [H1 H2].
  destruct (json.span_digits r') as [[|f fs] rest]; [now split|].
  cbn [fst snd] in *. split; [cbn [app]; f_equal; exact H1|].
  cbn [plain_chars forallb] in *. exact H2.
Qed.

Lemma scan_exp_split (r2 : pytext) :
  r2 = fst (json.scan_exp r2) ++ snd (json.scan_exp r2) /\
  plain_chars (fst (json.scan_exp r2)) = true.
Proof.
  destruct r2 as [|e r']; [now split|]. cbn [json.scan_exp].
  destruct ((e =? ord "e") || (e =? ord "E")) eqn:He; [|now split].
  assert (Hep : negb ((e =? ord ",") || (e =? ord newline)) = true).
  { apply orb_prop in He as [He|He]; apply Z.eqb_eq in He; subst; reflexivity. }
  destruct r' as [|sg t].
  - now split.
  - destruct ((sg =? ord "+") || (sg =? ord "-")) eqn:Hsg.
    + assert (Hsp : negb ((sg =? ord ",") || (sg =? ord newline)) = true).
      { apply orb_prop in Hsg as [H|H]; apply Z.eqb_eq in H; subst; reflexivity. }
      destruct (span_digits_split t) as [H1 H2].
      destruct (json.span_digits t) as [[|x es] rest]; [now split|].
      cbn [fst snd] in *. split; [cbn [app]; do 2 f_equal; exact H1|].
      cbn [plain_chars forallb app] in *. now rewrite Hep, Hsp.
    + destruct (span_digits_split (sg :: t)) as [H1 H2].
      destruct (json.span_digits (sg :: t)) as [[|x es] rest]; [now split|].
      cbn [fst snd] in *. split; [cbn [app]; f_equal; exact H1|].
      cbn [plain_chars forallb app] in *. now rewrite Hep.
Qed.

(** *** Integers within the limit *)

Lemma length_string_of_uint (d : Decimal.uint) :
  String.length (DecimalString.NilEmpty.string_of_uint d) = Decimal.nb_digits d.
Proof. induction d; cbn; congruence. Qed.

Lemma of_uint_nonneg (u : Decimal.uint) : 0 <= Z.of_uint u.
Proof. unfold Z.of_uint. lia. Qed.

Lemma digits_of_uint (u : Decimal.uint) :
  (json.digits_of (Z.of_uint u) <= Nat.max 1 (Decimal.nb_digits u))%nat.
Proof.
  unfold json.digits_of. rewrite Z.abs_eq by apply of_uint_nonneg.
  unfold json.intstr.
  change (Z.of_uint u) with (Z.of_int (Decimal.Pos u)).
  rewrite DecimalZ.to_of. cbn [Decimal.norm DecimalString.NilZero.string_of_int].
  unfold DecimalString.NilZero.string_of_uint.
  destruct u as [|u|u|u|u|u|u|u|u|u|u]; [cbn; lia|..];
    match goal with
    | |- context [Decimal.unorm ?d] =>
        pose proof (DecimalFacts.nb_digits_unorm d ltac:(discriminate)) as Hn;
        destruct (Decimal.unorm d) eqn:E;
        [cbn; lia|rewrite length_string_of_uint; lia ..]
    end.
Qed.

Lemma too_many_digits_le (j k : nat) :
  (j <= k)%nat ->
  json.too_many_digits k = false -> json.too_many_digits j = false.
Proof.
  unfold json.too_many_digits. intros Hjk H.
  destruct (Nat.ltb_spec json._PY_LONG_MAX_STR_DIGITS_THRESHOLD j);
    [|reflexivity].
  destruct (Nat.ltb_spec 0 int_max_str_digits); [|reflexivity].
  destruct (Nat.ltb_spec int_max_str_digits j); [|reflexivity].
  destruct (Nat.ltb_spec json._PY_LONG_MAX_STR_DIGITS_THRESHOLD k); [|lia].
  destruct (Nat.ltb_spec int_max_str_digits k); [discriminate|lia].
Qed.

Lemma length_string_of_codes (t : pytext) :
  String.length (string_of_codes t) = List.length t.
Proof. induction t as [|c t IH]; cbn; congruence. Qed.

Lemma digits_of_opp (n : Z) : json.digits_of (- n) = json.digits_of n.
Proof. unfold json.digits_of. now rewrite Z.abs_opp. Qed.

Lemma int_of_digits_limit (ip : pytext) :
  ip <> [] ->
  json.too_many_digits (List.length ip) = false ->
  json.too_many_digits (json.digits_of (json.int_of_digits ip)) = false.
Proof.
  intros Hne Hlim. apply (too_many_digits_le _ (List.length ip)); [|exact Hlim].
  assert (Hlen : (1 <= List.length ip)%nat) by (destruct ip; [congruence|cbn; lia]).
  unfold json.int_of_digits.
  destruct (DecimalString.NilEmpty.uint_of_string (string_of_codes ip))
    as [u|] eqn:Hu.
  - apply DecimalString.NilEmpty.sus in Hu.
    pose proof (digits_of_uint u) as Hd.
    rewrite <- length_string_of_uint, Hu, length_string_of_codes in Hd. lia.
  - exact Hlen.
Qed.

(** *** Numbers *)

Lemma scan_number_ok (s : pytext) (v : json.value) (rest : pytext) :
  json.scan_number s = json.Scanned v rest ->
  json.well_formed v = true /\ json.depth v = O /\
  exists pre, pre <> [] /\ s = pre ++ rest /\ plain_chars pre = true.
Proof.
  unfold json.scan_number.
  assert (Hbody : forall (negative : bool) (s1 : pytext),
    match s1 with
    | [] => json.Failed JSONDecodeError
    | c :: r0 =>
        if json.is_digit c then
          let '(int_part, r1) := json.scan_int_part c r0 in
          let '(frac, r2) := json.scan_frac r1 in
          let '(exp, r3) := json.scan_exp r2 in
          match frac, exp with
          | [], [] =>
              if json.too_many_digits (List.length int_part)
              then json.Failed ValueError
              else json.Scanned (json.Int (if negative then - json.int_of_digits int_part
                                 else json.int_of_digits int_part)) r3
          | _, _ =>
              json.Scanned (json.Float (float_of_literal
                                ((if negative then codes "-" else [])
                                   ++ int_part ++ frac ++ exp))) r3
          end
        else json.Failed JSONDecodeError
    end = json.Scanned v rest ->
    json.well_formed v = true /\ json.depth v = O /\
    exists pre, pre <> [] /\ s1 = pre ++ rest /\ plain_chars pre = true).
  { intros negative [|c r0]; [discriminate|].
    destruct (json.is_digit c) eqn:Hc; [|discriminate].
    destruct (scan_int_part_split c r0 Hc) as (d & ds & Hip & Hsplit & Hplain).
    destruct (json.scan_int_part c r0) as [int_part r1]. cbn [fst snd] in *.
    destruct (scan_frac_split r1) as [Hf Hfp].
    destruct (json.scan_frac r1) as [frac r2]. cbn [fst snd] in *.
    destruct (scan_exp_split r2) as [He Hep].
    destruct (json.scan_exp r2) as [exp r3]. cbn [fst snd] in *.
    subst int_part.
    assert (Hpre : c :: r0 = ((d :: ds) ++ frac ++ exp) ++ r3 /\
                   plain_chars ((d :: ds) ++ frac ++ exp) = true).
    { split.
      - rewrite Hsplit, Hf at 1. rewrite He at 1. now rewrite <- !app_assoc.
      - unfold plain_chars in *. rewrite !forallb_app.
        now rewrite Hplain, Hfp, Hep. }
    destruct Hpre as [Hpre Hpp].
    destruct frac, exp;
      try (destruct (json.too_many_digits _) eqn:Hlim; [discriminate|]);
      intros [= <- <-]; (split; [|split; [reflexivity|]]);
      try (eexists; split; [|split; [exact Hpre|exact Hpp]]; discriminate);
      try reflexivity.
    cbn [json.well_formed]. apply negb_true_iff.
    destruct negative; rewrite ?digits_of_opp;
      apply int_of_digits_limit; try discriminate; exact Hlim. }
  destruct s as [|c s']; [discriminate|].
  destruct (Z.eqb_spec c (ord "-")) as [->|]; cbv beta iota; intros H.
  - apply (Hbody true s') in H as (Hwf & Hd & pre & Hne & -> & Hp).
    split; [exact Hwf|]. split; [exact Hd|].
    exists (ord "-" :: pre). split; [discriminate|]. split; [reflexivity|].
    cbn [plain_chars forallb]. exact Hp.
  - now apply (Hbody false (c :: s')) in H.
Qed.

(** *** Strings *)

Lemma BACKSLASH_ok e ch : json.BACKSLASH e = Some ch -> codepoint_ok ch = true.
Proof.
  unfold json.BACKSLASH.
  repeat match goal with
         | |- context [if ?b then _ else _] => destruct b
         end; intros [= <-]; reflexivity.
Qed.

Lemma hex4_value_ok a b c d n :
  json.hex4_value a b c d = Some n -> codepoint_ok n = true.
Proof.
  intros H%hex4_value_bound. apply codepoint_ok_iff. lia.
Qed.

Lemma cons_char_inv c r str rest :
  json.cons_char c r = json.Scanned str rest ->
  exists str', r = json.Scanned str' rest /\ str = c :: str'.
Proof.
  destruct r as [str' rest'|e]; cbn; [|discriminate].
  intros [= <- <-]. now exists str'.
Qed.

Lemma scanstring_ok (n : nat) : forall s str rest,
  (List.length s <= n)%nat ->
  is_str s = true ->
  json.scanstring s = json.Scanned str rest ->
  is_str str = true /\ exists pre, pre <> [] /\ s = pre ++ rest.
Proof.
  induction n as [|n IH]; intros s str rest Hlen Hs Hscan.
  - destruct s; [discriminate|cbn in Hlen; lia].
  - destruct s as [|c r]; [discriminate|]. cbn [json.scanstring] in Hscan.
    cbn [List.length] in Hlen. cbn [is_str forallb] in Hs.
    apply andb_prop in Hs as [Hc Hr]. fold (is_str r) in Hr.
    destruct (c =? ord dquote).
    { injection Hscan as <- <-. split; [reflexivity|].
      exists [c]. split; [discriminate|reflexivity]. }
    assert (Hstep : forall (x : Z) (t : pytext) (pre0 : pytext),
               codepoint_ok x = true ->
               c :: r = pre0 ++ t -> (List.length t <= n)%nat ->
               json.cons_char x (json.scanstring t) = json.Scanned str rest ->
               is_str str = true /\ exists pre, pre <> [] /\ c :: r = pre ++ rest).
    { intros x t pre0 Hx Hsplit Hlt H.
      apply cons_char_inv in H as (str' & H & ->).
      assert (Ht : is_str t = true).
      { assert (Hall : is_str (c :: r) = true)
          by (cbn [is_str forallb]; now rewrite Hc).
        rewrite Hsplit, is_str_app in Hall. now apply andb_prop in Hall. }
      apply IH in H as (Hstr & pre & Hne & ->); [|exact Hlt|exact Ht].
      split; [cbn [is_str forallb]; now rewrite Hx|].
      exists (pre0 ++ pre). split; [|now rewrite <- app_assoc].
      destruct pre0; [|discriminate]. cbn. exact Hne. }
    destruct (c =? ord "\").
    + destruct r as [|e r']; [discriminate|].
      destruct (e =? ord "u").
      * destruct r' as [|h1 [|h2 [|h3 [|h4 r'']]]]; try discriminate.
        destruct (json.hex4_value h1 h2 h3 h4) as [uni|] eqn:Hv; [|discriminate].
        pose proof (hex4_value_ok _ _ _ _ _ Hv) as Huni.
        assert (Hlone : json.cons_char uni (json.scanstring r'')
                        = json.Scanned str rest ->
                        is_str str = true /\
                        exists pre, pre <> [] /\
                          c :: e :: h1 :: h2 :: h3 :: h4 :: r'' = pre ++ rest).
        { apply (Hstep uni r'' [c; e; h1; h2; h3; h4]); [exact Huni|reflexivity|].
          cbn [List.length] in Hlen. lia. }
        destruct r'' as [|b [|u [|l1 [|l2 [|l3 [|l4 r3]]]]]];
          try (exact (Hlone Hscan)).
        destruct (json.is_high_surrogate uni && negb (json.is_nil r3)
                  && (b =? ord "\") && (u =? ord "u")) eqn:Hcond;
          [|exact (Hlone Hscan)].
        destruct (json.hex4_value l1 l2 l3 l4) as [uni2|] eqn:Hv2; [|discriminate].
        destruct (json.is_low_surrogate uni2) eqn:Hlow; [|exact (Hlone Hscan)].
        apply andb_prop in Hcond as [[[Hhi _]%andb_prop _]%andb_prop _].
        apply (Hstep (json.join_surrogates uni uni2) r3
                 [c; e; h1; h2; h3; h4; b; u; l1; l2; l3; l4]);
          [|reflexivity|cbn [List.length] in Hlen; lia|exact Hscan].
        apply codepoint_ok_iff.
        pose proof (joined_range uni uni2 (proj1 (is_high_iff _) Hhi)
                      (proj1 (is_low_iff _) Hlow)). lia.
      * destruct (json.BACKSLASH e) as [ch|] eqn:Hb; [|discriminate].
        apply (Hstep ch r' [c; e]);
          [now apply BACKSLASH_ok in Hb|reflexivity
          |cbn [List.length] in Hlen; lia|exact Hscan].
    + destruct (c <? 32); [discriminate|].
      apply (Hstep c r [c]); [exact Hc|reflexivity|lia|exact Hscan].
Qed.

(** *** Dictionaries *)

Lemma dict_set_forall (P : json.pystr * json.value -> Prop)
      (k : json.pystr) (v : json.value) (d : list (json.pystr * json.value)) :
  (forall k0 v0, P (k0, v0) -> P (k0, v)) ->
  P (k, v) -> Forall P d -> Forall P (json.dict_set k v d).
Proof.
  intros Hrep Hkv Hd. induction Hd as [|[k0 v0] d H0 Hd IH]; cbn.
  - now constructor.
  - destruct (json.pystr_eqb k0 k); constructor; eauto.
Qed.

Lemma existsb_dict_set (k0 k : json.pystr) (v : json.value)
      (d : list (json.pystr * json.value)) :
  json.pystr_eqb k k0 = false ->
  existsb (fun kv => json.pystr_eqb (fst kv) k0) (json.dict_set k v d)
  = existsb (fun kv => json.pystr_eqb (fst kv) k0) d.
Proof.
  intros Hne. induction d as [|[k1 v1] d IH]; cbn.
  - now rewrite Hne.
  - destruct (json.pystr_eqb k1 k); cbn; [reflexivity|now rewrite IH].
Qed.

Lemma dict_set_unique (k : json.pystr) (v : json.value)
      (d : list (json.pystr * json.value)) :
  json.keys_unique d = true -> json.keys_unique (json.dict_set k v d) = true.
Proof.
  induction d as [|[k0 v0] d IH]; cbn; [reflexivity|].
  intros [H0 Hd]%andb_prop.
  destruct (json.pystr_eqb k0 k) eqn:E; cbn.
  - now rewrite H0, Hd.
  - rewrite existsb_dict_set by (now rewrite pystr_eqb_sym).
    now rewrite H0, IH.
Qed.

Lemma depth_object_le (members : list (json.pystr * json.value)) (d : nat) :
  Forall (fun kv => (json.depth (snd kv) <= d)%nat) members ->
  (json.depth (json.Object members) <= S d)%nat.
Proof.
  intros H. cbn [json.depth]. apply le_n_S.
  induction H as [|x l Hx Hl IH]; cbn [fold_right]; lia.
Qed.

Lemma depth_array_le (items : list json.value) (d : nat) :
  Forall (fun v => (json.depth v <= d)%nat) items ->
  (json.depth (json.Array items) <= S d)%nat.
Proof.
  intros H. cbn [json.depth]. apply le_n_S.
  induction H as [|x l Hx Hl IH]; cbn [fold_right]; lia.
Qed.

Lemma dict_of_pairs_ok (pairs : list (json.pystr * json.value)) (d : nat) :
  Forall (fun kv => is_str (fst kv) = true /\
                    json.well_formed (snd kv) = true /\
                    (json.depth (snd kv) <= d)%nat) pairs ->
  json.well_formed (json.Object (json.dict_of_pairs pairs)) = true /\
  (json.depth (json.Object (json.dict_of_pairs pairs)) <= S d)%nat.
Proof.
  intros Hall. unfold json.dict_of_pairs.
  set (P := fun kv : json.pystr * json.value =>
              is_str (fst kv) = true /\ json.well_formed (snd kv) = true /\
              (json.depth (snd kv) <= d)%nat) in *.
  assert (Hgen : forall acc,
    json.keys_unique acc = true -> Forall P acc ->
    let m := fold_left (fun m kv => json.dict_set (fst kv) (snd kv) m) pairs acc in
    json.keys_unique m = true /\ Forall P m).
  { induction Hall as [|[k v] t Hkv Ht IH]; intros acc Hu Hacc; cbn [fold_left].
    - now split.
    - apply IH.
      + now apply dict_set_unique.
      + apply dict_set_forall; [|exact Hkv|exact Hacc].
        intros k0 v0 (H1 & _ & _). destruct Hkv as (_ & H2 & H3).
        now repeat split. }
  destruct (Hgen [] eq_refl (Forall_nil _)) as [Hu HP].
  split.
  - cbn [json.well_formed]. rewrite Hu. cbn [andb].
    apply andb_true_intro. split; apply forallb_forall; intros x Hx;
      rewrite Forall_forall in HP; now apply HP.
  - apply depth_object_le. rewrite Forall_forall in *.
    intros x Hx. now apply HP.
Qed.

(** *** The scanner *)

Lemma is_str_suffix (pre rest : pytext) :
  is_str (pre ++ rest) = true -> is_str rest = true.
Proof. rewrite is_str_app. now intros [_ H]%andb_prop. Qed.

Lemma is_str_skip_ws (s : pytext) :
  is_str s = true -> is_str (json.skip_ws s) = true.
Proof.
  destruct (skip_ws_split s) as (pre & H). intros Hs. rewrite H in Hs.
  now apply is_str_suffix in Hs.
Qed.

Lemma starts_with_skipn (p s : pytext) :
  json.starts_with p s = true ->
  exists pre, List.length pre = List.length p /\
              s = pre ++ skipn (List.length p) s.
Proof.
  revert s. induction p as [|a p IH]; intros s; [now exists []|].
  destruct s as [|b s]; [discriminate|]. cbn [json.starts_with].
  intros [_ H]%andb_prop. destruct (IH s H) as (pre & Hl & Hs).
  exists (b :: pre). cbn [List.length skipn app]. split; [now rewrite Hl|].
  now rewrite <- Hs.
Qed.

Lemma scan_ok_weaken (depth : nat) (s : pytext) (v : json.value)
      (rest pre0 : pytext) :
  scan_ok depth s v rest -> scan_ok depth (pre0 ++ s) v rest.
Proof.
  intros (Hwf & Hd & pre & Hne & ->). split; [exact Hwf|]. split; [exact Hd|].
  exists (pre0 ++ pre). split; [|now rewrite app_assoc].
  destruct pre0; [exact Hne|discriminate].
Qed.

Lemma scanned_ok (fuel : nat) :
  (forall depth s v rest,
      is_str s = true ->
      json.scan_once fuel depth s = json.Scanned v rest ->
      scan_ok depth s v rest) /\
  (forall depth s vs rest,
      is_str s = true ->
      json.array_loop fuel depth s = json.Scanned vs rest ->
      Forall (fun v => json.well_formed v = true /\
                       (json.depth v <= depth)%nat) vs /\
      exists pre, pre <> [] /\ s = pre ++ rest) /\
  (forall depth s ms rest,
      is_str s = true ->
      json.object_loop fuel depth s = json.Scanned ms rest ->
      Forall (fun kv => is_str (fst kv) = true /\
                        json.well_formed (snd kv) = true /\
                        (json.depth (snd kv) <= depth)%nat) ms /\
      exists pre, pre <> [] /\ s = pre ++ rest).
Proof.
  induction fuel as [|fuel (IHv & IHa & IHo)].
  - repeat split; intros; discriminate.
  - split; [|split].
    + intros depth [|c r] v rest Hs; [discriminate|]. rewrite scan_once_S.
      assert (Hr : is_str r = true)
        by (cbn [is_str forallb] in Hs; now apply andb_prop in Hs).
      destruct (c =? ord dquote).
      { destruct (json.scanstring r) as [str r'|e] eqn:Hsc; [|discriminate].
        intros [= <- <-].
        apply (scanstring_ok (List.length r)) in Hsc
          as (Hstr & pre & Hne & ->); [|lia|exact Hr].
        split; [exact Hstr|]. split; [cbn; lia|].
        exists (c :: pre). split; [discriminate|reflexivity]. }
      destruct (c =? ord "{").
      { destruct depth as [|depth]; [discriminate|].
        destruct (skip_ws_split r) as (ws & Hws).
        pose proof (is_str_skip_ws r Hr) as Hsk.
        destruct (json.skip_ws r) as [|c1 r1]; [discriminate|].
        destruct (c1 =? ord "}").
        { intros [= <- <-]. split; [reflexivity|]. split; [cbn; lia|].
          exists (c :: ws ++ [c1]). split; [discriminate|].
          cbn. rewrite Hws at 1. reassoc. }
        destruct (c1 =? ord dquote); [|discriminate].
        destruct (json.object_loop fuel depth r1) as [pairs r'|e] eqn:Ho;
          [|discriminate].
        intros [= <- <-].
        apply IHo in Ho as (Hall & pre & Hne & Hsplit);
          [|cbn [is_str forallb] in Hsk; now apply andb_prop in Hsk].
        destruct (dict_of_pairs_ok pairs depth Hall) as [Hwf Hd].
        split; [exact Hwf|]. split; [exact Hd|].
        exists (c :: ws ++ c1 :: pre). split; [discriminate|].
        cbn. rewrite Hws at 1. rewrite Hsplit. reassoc. }
      destruct (c =? ord "[").
      { destruct depth as [|depth]; [discriminate|].
        destruct (skip_ws_split r) as (ws & Hws).
        pose proof (is_str_skip_ws r Hr) as Hsk.
        destruct (json.skip_ws r) as [|c1 r1]; [discriminate|].
        destruct (c1 =? ord "]").
        { intros [= <- <-]. split; [reflexivity|]. split; [cbn; lia|].
          exists (c :: ws ++ [c1]). split; [discriminate|].
          cbn. rewrite Hws at 1. reassoc. }
        destruct (json.array_loop fuel depth (c1 :: r1)) as [items r'|e] eqn:Ha;
          [|discriminate].
        intros [= <- <-].
        apply IHa in Ha as (Hall & pre & Hne & Hsplit); [|exact Hsk].
        split; [|split].
        - cbn [json.well_formed]. apply forallb_forall.
          rewrite Forall_forall in Hall. intros x Hx. now apply Hall.
        - apply depth_array_le. rewrite Forall_forall in *.
          intros x Hx. now apply Hall.
        - exists (c :: ws ++ pre). split; [discriminate|].
          cbn. rewrite Hws at 1. rewrite Hsplit. reassoc. }
      repeat match goal with
             | |- context [if json.starts_with ?p ?s then _ else _] =>
                 let E := fresh "E" in
                 destruct (json.starts_with p s) eqn:E;
                 [intros [= <- <-]; (split; [reflexivity|]);
                  (split; [cbn; lia|]);
                  destruct (starts_with_skipn _ _ E) as (pre & Hl & Hsp);
                  exists pre; split; [destruct pre; [discriminate Hl|discriminate]
                                     |exact Hsp]|]
             end.
      intros H. apply scan_number_ok in H as (Hwf & Hd & pre & Hne & Hsp & _).
      split; [exact Hwf|]. split; [lia|]. now exists pre.
    + intros depth s vs rest Hs. rewrite array_loop_S.
      destruct (json.scan_once fuel depth s) as [v r|e] eqn:Hv; [|discriminate].
      apply IHv in Hv as (Hwf & Hd & pre & Hne & ->); [|exact Hs].
      pose proof (is_str_suffix _ _ Hs) as Hr.
      destruct (skip_ws_split r) as (ws & Hws).
      pose proof (is_str_skip_ws r Hr) as Hsk.
      destruct (json.skip_ws r) as [|c r1]; [discriminate|].
      destruct (c =? ord "]").
      { intros [= <- <-]. split; [now repeat constructor|].
        exists (pre ++ ws ++ [c]). split; [destruct pre; [congruence|discriminate]|].
        rewrite Hws at 1. reassoc. }
      destruct (c =? ord ","); [|discriminate].
      assert (Hr1 : is_str r1 = true)
        by (cbn [is_str forallb] in Hsk; now apply andb_prop in Hsk).
      destruct (skip_ws_split r1) as (ws1 & Hws1).
      destruct (json.array_loop fuel depth (json.skip_ws r1)) as [vs' r'|e] eqn:Ha;
        [|discriminate].
      intros [= <- <-].
      apply IHa in Ha as (Hall & pre' & Hne' & Hsplit);
        [|now apply is_str_skip_ws].
      split; [constructor; [now split|exact Hall]|].
      exists (pre ++ ws ++ c :: ws1 ++ pre').
      split; [destruct pre; [congruence|discriminate]|].
      rewrite Hws at 1. rewrite Hws1 at 1. rewrite Hsplit.
      reassoc.
    + intros depth s ms rest Hs. rewrite object_loop_S.
      destruct (json.scanstring s) as [key r|e] eqn:Hsc; [|discriminate].
      apply (scanstring_ok (List.length s)) in Hsc
        as (Hkey & pre & Hne & ->); [|lia|exact Hs].
      pose proof (is_str_suffix _ _ Hs) as Hr.
      destruct (skip_ws_split r) as (ws & Hws).
      pose proof (is_str_skip_ws r Hr) as Hsk.
      destruct (json.expect ":" (json.skip_ws r)) as [r1|] eqn:He; [|discriminate].
      apply expect_split in He. rewrite He in Hws, Hsk.
      assert (Hr1 : is_str r1 = true)
        by (cbn [is_str forallb] in Hsk; now apply andb_prop in Hsk).
      destruct (skip_ws_split r1) as (ws1 & Hws1).
      destruct (json.scan_once fuel depth (json.skip_ws r1)) as [v r2|e] eqn:Hv;
        [|discriminate].
      apply IHv in Hv as (Hwf & Hd & pre2 & Hne2 & Hsp2);
        [|now apply is_str_skip_ws].
      assert (Hr2 : is_str r2 = true).
      { pose proof (is_str_skip_ws r1 Hr1) as H. rewrite Hsp2 in H.
        now apply is_str_suffix in H. }
      destruct (skip_ws_split r2) as (ws2 & Hws2).
      pose proof (is_str_skip_ws r2 Hr2) as Hsk2.
      destruct (json.skip_ws r2) as [|c r3]; [discriminate|].
      assert (Hpre : pre ++ r = (pre ++ ws ++ ord ":" :: ws1 ++ pre2 ++ ws2 ++ [c]) ++ r3).
      { rewrite Hws at 1. rewrite Hws1 at 1. rewrite Hsp2. rewrite Hws2 at 1.
        reassoc. }
      destruct (c =? ord "}").
      { intros [= <- <-]. split; [now repeat constructor|].
        eexists. split; [|exact Hpre]. destruct pre; [congruence|discriminate]. }
      destruct (c =? ord ","); [|discriminate].
      assert (Hr3 : is_str r3 = true)
        by (cbn [is_str forallb] in Hsk2; now apply andb_prop in Hsk2).
      destruct (skip_ws_split r3) as (ws3 & Hws3).
      pose proof (is_str_skip_ws r3 Hr3) as Hsk3.
      destruct (json.expect dquote (json.skip_ws r3)) as [r4|] eqn:He4;
        [|discriminate].
      apply expect_split in He4. rewrite He4 in Hws3, Hsk3.
      destruct (json.object_loop fuel depth r4) as [ms' r'|e] eqn:Ho;
        [|discriminate].
      intros [= <- <-].
      apply IHo in Ho as (Hall & pre4 & Hne4 & Hsp4);
        [|cbn [is_str forallb] in Hsk3; now apply andb_prop in Hsk3].
      split; [constructor; [now repeat split|exact Hall]|].
      exists ((pre ++ ws ++ ord ":" :: ws1 ++ pre2 ++ ws2 ++ [c])
                ++ ws3 ++ ord dquote :: pre4).
      split; [destruct pre; [congruence|discriminate]|].
      rewrite Hpre. rewrite Hws3 at 1. rewrite Hsp4.
      reassoc.
Qed.

(** What [json.loads] returns for a [str] is a value as the decoder
    builds them, nested no deeper than the recursion limit allows. *)
Lemma loads_well_formed (text : pytext) (v : json.value) :
  is_str text = true ->
  json.loads text = Returned v ->
  json.well_formed v = true /\ (json.depth v <= recursion_depth)%nat.
Proof.
  intros Hs. unfold json.loads.
  destruct (json.scan_once _ _ _) as [v' rest|e] eqn:Hsc; [|discriminate].
  destruct (json.skip_ws rest); [|discriminate].
  intros [= <-].
  apply (proj1 (scanned_ok _)) in Hsc as (Hwf & Hd & _);
    [now split|now apply is_str_skip_ws].
Qed.

End JsonDecoded.

Section JsonFuel.
Context `{Ext : Externals}.

(** *** The fuel of the decoder *)

Lemma nonempty_length (pre : pytext) : pre <> [] -> (0 < List.length pre)%nat.
Proof. destruct pre; [congruence|cbn; lia]. Qed.

Lemma is_str_tail (c : Z) (r : pytext) :
  is_str (c :: r) = true -> is_str r = true.
Proof. cbn [is_str forallb]. now intros [_ H]%andb_prop. Qed.

(** With more than twice the length of the text as fuel, the result of a
    scan, a failure included, is the same for any larger fuel. *)
Lemma scan_fuel_stable (f1 : nat) :
  (forall f2 depth s,
      is_str s = true ->
      (2 * List.length s < f1)%nat -> (2 * List.length s < f2)%nat ->
      json.scan_once f1 depth s = json.scan_once f2 depth s) /\
  (forall f2 depth s,
      is_str s = true ->
      (2 * List.length s + 1 < f1)%nat -> (2 * List.length s + 1 < f2)%nat ->
      json.array_loop f1 depth s = json.array_loop f2 depth s) /\
  (forall f2 depth s,
      is_str s = true ->
      (2 * List.length s + 1 < f1)%nat -> (2 * List.length s + 1 < f2)%nat ->
      json.object_loop f1 depth s = json.object_loop f2 depth s).
Proof.
  induction f1 as [|f1 (IHv & IHa & IHo)].
  - repeat split; intros; lia.
  - split; [|split].
    + intros [|f2] depth [|c r] Hs H1 H2; try lia; [reflexivity|].
      rewrite !scan_once_S. cbn [List.length] in H1, H2.
      pose proof (is_str_tail c r Hs) as Hr.
      destruct (c =? ord dquote); [reflexivity|].
      destruct (c =? ord "{").
      { destruct depth as [|depth]; [reflexivity|].
        destruct (skip_ws_split r) as (ws & Hws).
        pose proof (is_str_skip_ws r Hr) as Hsk.
        destruct (json.skip_ws r) as [|c1 r1]; [reflexivity|].
        split_length Hws.
        destruct (c1 =? ord "}"); [reflexivity|].
        destruct (c1 =? ord dquote); [|reflexivity].
        rewrite (IHo f2 depth r1); [reflexivity|now apply is_str_tail in Hsk|lia..]. }
      destruct (c =? ord "[").
      { destruct depth as [|depth]; [reflexivity|].
        destruct (skip_ws_split r) as (ws & Hws).
        pose proof (is_str_skip_ws r Hr) as Hsk.
        destruct (json.skip_ws r) as [|c1 r1]; [reflexivity|].
        split_length Hws.
        destruct (c1 =? ord "]"); [reflexivity|].
        rewrite (IHa f2 depth (c1 :: r1));
          [reflexivity|exact Hsk|cbn [List.length]; lia..]. }
      reflexivity.
    + intros [|f2] depth s Hs H1 H2; [lia|]. rewrite !array_loop_S.
      rewrite (IHv f2 depth s) by (try exact Hs; lia).
      destruct (json.scan_once f2 depth s) as [v r|e] eqn:Hv; [|reflexivity].
      apply (proj1 (scanned_ok _)) in Hv as (_ & _ & pre & Hne & Hsp);
        [|exact Hs].
      apply nonempty_length in Hne. split_length Hsp.
      assert (Hr : is_str r = true)
        by (rewrite Hsp in Hs; now apply is_str_suffix in Hs).
      destruct (skip_ws_split r) as (ws & Hws).
      pose proof (is_str_skip_ws r Hr) as Hsk.
      destruct (json.skip_ws r) as [|c r1]; [reflexivity|].
      split_length Hws.
      destruct (c =? ord "]"); [reflexivity|].
      destruct (c =? ord ","); [|reflexivity].
      apply is_str_tail in Hsk.
      destruct (skip_ws_split r1) as (ws1 & Hws1). split_length Hws1.
      rewrite (IHa f2 depth (json.skip_ws r1));
        [reflexivity|now apply is_str_skip_ws|lia..].
    + intros [|f2] depth s Hs H1 H2; [lia|]. rewrite !object_loop_S.
      destruct (json.scanstring s) as [key r|e] eqn:Hsc; [|reflexivity].
      apply (scanstring_ok (List.length s)) in Hsc
        as (_ & pre & Hne & Hsp); [|lia|exact Hs].
      apply nonempty_length in Hne. split_length Hsp.
      assert (Hr : is_str r = true)
        by (rewrite Hsp in Hs; now apply is_str_suffix in Hs).
      destruct (skip_ws_split r) as (ws & Hws).
      pose proof (is_str_skip_ws r Hr) as Hsk.
      destruct (json.expect ":" (json.skip_ws r)) as [r1|] eqn:He; [|reflexivity].
      apply expect_split in He. rewrite He in Hws, Hsk. split_length Hws.
      apply is_str_tail in Hsk.
      destruct (skip_ws_split r1) as (ws1 & Hws1). split_length Hws1.
      pose proof (is_str_skip_ws r1 Hsk) as Hsk1.
      rewrite (IHv f2 depth (json.skip_ws r1)) by (try exact Hsk1; lia).
      destruct (json.scan_once f2 depth (json.skip_ws r1)) as [v r2|e] eqn:Hv;
        [|reflexivity].
      apply (proj1 (scanned_ok _)) in Hv as (_ & _ & pre2 & Hne2 & Hsp2);
        [|exact Hsk1].
      apply nonempty_length in Hne2. split_length Hsp2.
      assert (Hr2 : is_str r2 = true)
        by (rewrite Hsp2 in Hsk1; now apply is_str_suffix in Hsk1).
      destruct (skip_ws_split r2) as (ws2 & Hws2).
      pose proof (is_str_skip_ws r2 Hr2) as Hsk2.
      destruct (json.skip_ws r2) as [|c r3]; [reflexivity|].
      split_length Hws2.
      destruct (c =? ord "}"); [reflexivity|].
      destruct (c =? ord ","); [|reflexivity].
      apply is_str_tail in Hsk2.
      destruct (skip_ws_split r3) as (ws3 & Hws3).
      pose proof (is_str_skip_ws r3 Hsk2) as Hsk3.
      destruct (json.expect dquote (json.skip_ws r3)) as [r4|] eqn:He4;
        [|reflexivity].
      apply expect_split in He4. rewrite He4 in Hws3, Hsk3. split_length Hws3.
      rewrite (IHo f2 depth r4);
        [reflexivity|now apply is_str_tail in Hsk3|lia..].
Qed.

(** The fuel that [loads] gives is never used up: any larger fuel gives
    the same result. *)
Lemma loads_fuel_enough (fuel : nat) (s : pytext) :
  is_str s = true ->
  (2 * List.length s < fuel)%nat ->
  json.scan_once fuel recursion_depth (json.skip_ws s)
  = json.scan_once (S (2 * List.length s)) recursion_depth (json.skip_ws s).
Proof.
  intros Hs Hfuel. destruct (skip_ws_split s) as (ws & Hws). split_length Hws.
  apply (proj1 (scan_fuel_stable fuel)); [now apply is_str_skip_ws|lia..].
Qed.

End JsonFuel.

(** ** The lines of the written text *)

Section JsonIndent.
Context `{Ext : Externals}.

(** *** The lines of the encoder's text *)

Lemma later_indents_no_newline (a b : pytext) :
  no_newline a = true -> later_indents (a ++ b) = later_indents b.
Proof.
  induction a as [|c a IH]; [reflexivity|]. cbn [no_newline forallb].
  intros [Hc Ha]%andb_prop. cbn [app later_indents].
  apply negb_true_iff in Hc. rewrite Hc. now apply IH.
Qed.

Lemma no_newline_app (a b : pytext) :
  no_newline (a ++ b) = no_newline a && no_newline b.
Proof. apply forallb_app. Qed.

Lemma plain_no_newline (a : pytext) : plain_chars a = true -> no_newline a = true.
Proof.
  unfold plain_chars, no_newline. rewrite !forallb_forall.
  intros H c Hc. specialize (H c Hc). apply negb_true_iff in H.
  apply orb_false_elim in H as [_ H]. now rewrite H.
Qed.

Lemma leading_spaces_spaces (n : nat) (t : pytext) :
  leading_spaces (codes (json.spaces n) ++ t) = (n + leading_spaces t)%nat.
Proof. induction n as [|n IH]; cbn; [reflexivity|now rewrite IH]. Qed.

Lemma no_newline_spaces (n : nat) : no_newline (codes (json.spaces n)) = true.
Proof. induction n as [|n IH]; cbn; [reflexivity|exact IH]. Qed.

Lemma later_indents_newline_indent (level : nat) (t : pytext) :
  later_indents (codes (json.newline_indent level) ++ t)
  = (4 * level + leading_spaces t)%nat :: later_indents t.
Proof.
  unfold json.newline_indent. cbn [codes app later_indents].
  change (ord newline =? ord newline) with true. cbv iota.
  rewrite leading_spaces_spaces.
  now rewrite later_indents_no_newline by apply no_newline_spaces.
Qed.

Lemma leading_spaces_starts (s : string) (t : pytext) :
  starts_value s -> leading_spaces (codes s ++ t) = O.
Proof.
  intros (c & r & -> & Hws & _). cbn [codes app leading_spaces].
  unfold json.is_ws in Hws. apply orb_false_elim in Hws as [Hws _].
  apply orb_false_elim in Hws as [Hws _].
  apply orb_false_elim in Hws as [Hws _]. now rewrite Hws.
Qed.

Lemma no_newline_hex_digit (d : Z) :
  negb (ord (json.hex_digit d) =? ord newline) = true.
Proof.
  unfold json.hex_digit.
  destruct (Z.to_nat d) as [|n]; [reflexivity|].
  do 15 (destruct n as [|n]; [reflexivity|]). reflexivity.
Qed.

Lemma no_newline_hex4 (n : Z) : no_newline (codes (json.hex4 n)) = true.
Proof.
  unfold json.hex4. cbn [codes no_newline forallb].
  now rewrite !no_newline_hex_digit.
Qed.

Lemma no_newline_escape_ascii (c : Z) :
  no_newline (codes (json.escape_ascii c)) = true.
Proof.
  unfold json.escape_ascii.
  repeat match goal with
         | |- context [if ?x =? ?y then _ else _] =>
             destruct (x =? y); [reflexivity|]
         end.
  destruct ((32 <=? c) && (c <=? 126)) eqn:Hp.
  - apply andb_prop in Hp as [H1%Z.leb_le H2%Z.leb_le].
    cbn [codes no_newline forallb]. rewrite ord_chr by lia.
    destruct (Z.eqb_spec c (ord newline)) as [E|]; [|reflexivity].
    change (ord newline) with 10 in E. lia.
  - destruct (c <? 65536).
    + rewrite codes_app, no_newline_app, no_newline_hex4. reflexivity.
    + rewrite !codes_app, !no_newline_app, !no_newline_hex4. reflexivity.
Qed.

Lemma no_newline_cons (c : Z) (t : pytext) :
  no_newline (c :: t) = negb (c =? ord newline) && no_newline t.
Proof. reflexivity. Qed.

Lemma no_newline_body (s : json.pystr) : no_newline (codes (body s)) = true.
Proof.
  induction s as [|c s IH]; [reflexivity|].
  rewrite body_cons, codes_app, no_newline_app.
  now rewrite no_newline_escape_ascii.
Qed.

Lemma no_newline_encode_basestring_ascii (s : json.pystr) :
  no_newline (codes (json.encode_basestring_ascii s)) = true.
Proof.
  unfold json.encode_basestring_ascii. fold (body s).
  cbn [String.append codes]. rewrite no_newline_cons, codes_app, no_newline_app.
  now rewrite no_newline_body.
Qed.

Lemma no_newline_uint (d : Decimal.uint) :
  no_newline (codes (DecimalString.NilEmpty.string_of_uint d)) = true.
Proof. induction d; cbn; assumption || reflexivity. Qed.

Lemma no_newline_intstr (n : Z) : no_newline (codes (json.intstr n)) = true.
Proof.
  unfold json.intstr.
  destruct (Z.to_int n) as [d|d];
    cbn [DecimalString.NilZero.string_of_int codes no_newline forallb];
    unfold DecimalString.NilZero.string_of_uint;
    destruct d; try reflexivity;
    match goal with
    | |- context [DecimalString.NilEmpty.string_of_uint ?u] =>
        apply (no_newline_uint u)
    end.
Qed.

Lemma starts_with_eq (p s : pytext) :
  json.starts_with p s = true -> s = p ++ skipn (List.length p) s.
Proof.
  revert s. induction p as [|a p IH]; intros s; [reflexivity|].
  destruct s as [|b s]; [discriminate|]. cbn [json.starts_with].
  intros [E%Z.eqb_eq H]%andb_prop. subst b.
  cbn [List.length skipn app]. f_equal. now apply IH.
Qed.

Lemma no_newline_floatstr (f : pyfloat) :
  json.float_reads_back f -> no_newline (codes (floatstr f)) = true.
Proof.
  unfold json.float_reads_back. intros H.
  destruct (codes (floatstr f)) as [|c r] eqn:Hc; [discriminate|].
  rewrite scan_once_S in H.
  destruct (c =? ord dquote).
  { destruct (json.scanstring r); discriminate. }
  destruct (c =? ord "{"); [destruct (json.skip_ws r); discriminate|].
  destruct (c =? ord "["); [destruct (json.skip_ws r); discriminate|].
  do 3 (match type of H with
        | (if json.starts_with ?p ?s then _ else _) = _ =>
            destruct (json.starts_with p s); [discriminate|]
        end).
  repeat match type of H with
         | (if json.starts_with ?p ?s then _ else _) = _ =>
             let E := fresh "E" in
             destruct (json.starts_with p s) eqn:E;
             [apply starts_with_eq in E; injection H as _ Hrest;
              match type of E with
              | _ = _ ++ skipn ?n _ =>
                  assert (Hr : skipn n (c :: r) = []) by exact Hrest
              end;
              rewrite Hr, app_nil_r in E; rewrite E; reflexivity|]
         end.
  apply scan_number_ok in H as (_ & _ & pre & _ & Hsp & Hp).
  rewrite app_nil_r in Hsp. subst pre. now apply plain_no_newline.
Qed.

Lemma later_indents_sep (level : nat) (t : pytext) :
  later_indents (codes (sep level) ++ t)
  = (4 * S level + leading_spaces t)%nat :: later_indents t.
Proof.
  unfold sep. cbn [String.append codes app later_indents].
  change (ord "," =? ord newline) with false. cbv iota.
  apply later_indents_newline_indent.
Qed.

Lemma encm_starts (level : nat) (m : json.pystr * json.value)
      (tl : list (json.pystr * json.value)) :
  starts_value (String.concat (sep level) (map (encm level) (m :: tl))).
Proof.
  cbn [map]. destruct tl as [|m2 tl]; cbn [map].
  - cbn [String.concat]. unfold encm, json.encode_basestring_ascii.
    cbn [String.append]. eexists _, _. split; [reflexivity|]. split; reflexivity.
  - rewrite concat_cons2. unfold encm at 1, json.encode_basestring_ascii.
    cbn [String.append]. eexists _, _. split; [reflexivity|]. split; reflexivity.
Qed.

Lemma later_indents_items (level : nat) (tail : pytext) :
  forall (tl : list json.value) (v : json.value),
    Forall (fun x =>
              Forall json.float_reads_back (json.floats x) /\
              forall level rest,
                later_indents (codes (json.iterencode x level) ++ rest)
                = nested_indents x level ++ later_indents rest) (v :: tl) ->
    later_indents (codes (String.concat (sep level) (map (enc level) (v :: tl)))
                     ++ tail)
    = nested_indents v (S level)
        ++ flat_map (fun x => 4 * S level :: nested_indents x (S level))%nat tl
        ++ later_indents tail.
Proof.
  induction tl as [|v2 tl IH]; intros v Hall.
  - inversion Hall as [|? ? [_ Hv] _]; subst. cbn [map String.concat flat_map app].
    unfold enc. apply Hv.
  - inversion Hall as [|? ? [_ Hv] Htl]; subst.
    cbn [map]. rewrite concat_cons2. fold (enc level v).
    change (enc level v2 :: map (enc level) tl) with (map (enc level) (v2 :: tl)).
    rewrite !codes_app, <- !app_assoc. unfold enc at 1. rewrite Hv.
    rewrite later_indents_sep.
    inversion Htl as [|? ? [Hfl2 _] _]; subst.
    rewrite (leading_spaces_starts _ _ (concat_starts level v2 tl Hfl2)).
    rewrite Nat.add_0_r, (IH v2 Htl). cbn [flat_map].
    rewrite <- ?app_assoc. reflexivity.
Qed.

Lemma later_indents_members (level : nat) (tail : pytext) :
  forall (tl : list (json.pystr * json.value)) (m : json.pystr * json.value),
    Forall (fun kv =>
              forall level rest,
                later_indents (codes (json.iterencode (snd kv) level) ++ rest)
                = nested_indents (snd kv) level ++ later_indents rest) (m :: tl) ->
    later_indents (codes (String.concat (sep level) (map (encm level) (m :: tl)))
                     ++ tail)
    = nested_indents (snd m) (S level)
        ++ flat_map (fun kv => 4 * S level :: nested_indents (snd kv) (S level))%nat
             tl
        ++ later_indents tail.
Proof.
  assert (Hone : forall (m : json.pystr * json.value) (t : pytext),
    (forall level rest,
        later_indents (codes (json.iterencode (snd m) level) ++ rest)
        = nested_indents (snd m) level ++ later_indents rest) ->
    later_indents (codes (encm level m) ++ t)
    = nested_indents (snd m) (S level) ++ later_indents t).
  { intros m t Hm. unfold encm. rewrite !codes_app, <- !app_assoc.
    rewrite later_indents_no_newline
      by apply no_newline_encode_basestring_ascii.
    rewrite later_indents_no_newline by reflexivity. apply Hm. }
  induction tl as [|m2 tl IH]; intros m Hall.
  - inversion Hall as [|? ? Hm _]; subst. cbn [map String.concat flat_map app].
    now apply Hone.
  - inversion Hall as [|? ? Hm Htl]; subst.
    cbn [map]. rewrite concat_cons2.
    change (encm level m2 :: map (encm level) tl)
      with (map (encm level) (m2 :: tl)).
    rewrite !codes_app, <- !app_assoc. rewrite (Hone m _ Hm).
    rewrite later_indents_sep.
    rewrite (leading_spaces_starts _ _ (encm_starts level m2 tl)).
    rewrite Nat.add_0_r, (IH m2 Htl). cbn [flat_map].
    rewrite <- ?app_assoc. reflexivity.
Qed.

Lemma later_indents_iterencode (v : json.value) :
  Forall json.float_reads_back (json.floats v) ->
  forall level rest,
    later_indents (codes (json.iterencode v level) ++ rest)
    = nested_indents v level ++ later_indents rest.
Proof.
  induction v as [|b|n|f|s|items IH|members IH] using value_ind_nested;
    intros Hfl level rest; cbn [json.iterencode nested_indents app].
  - reflexivity.
  - destruct b; reflexivity.
  - apply later_indents_no_newline, no_newline_intstr.
  - apply later_indents_no_newline, no_newline_floatstr.
    cbn [json.floats] in Hfl. now inversion Hfl.
  - apply later_indents_no_newline, no_newline_encode_basestring_ascii.
  - destruct items as [|v tl]; [reflexivity|].
    change (json.iterencode (json.Array (v :: tl)) level)
      with (json.iterencode (json.Array (v :: tl)) level).
    pose proof (floats_array_item _ Hfl) as Hfls.
    assert (Hall : Forall (fun x =>
              Forall json.float_reads_back (json.floats x) /\
              forall level rest,
                later_indents (codes (json.iterencode x level) ++ rest)
                = nested_indents x level ++ later_indents rest) (v :: tl)).
    { rewrite Forall_forall in *. intros x Hx. split; [now apply Hfls|].
      apply IH; auto. }
    fold (enc level). fold (sep level).
    rewrite !codes_app, <- !app_assoc.
    cbn [codes app later_indents]. change (ord "[" =? ord newline) with false.
    cbv iota. rewrite later_indents_newline_indent.
    rewrite (leading_spaces_starts _ _ (concat_starts level v tl
               (Forall_inv Hfls))).
    rewrite Nat.add_0_r, (later_indents_items level _ tl v Hall).
    rewrite later_indents_newline_indent.
    cbn [leading_spaces later_indents flat_map app].
    change (ord "]" =? ord " ") with false.
    change (ord "]" =? ord newline) with false. cbv iota.
    rewrite Nat.add_0_r, <- ?app_assoc. reflexivity.
  - destruct members as [|m tl]; [reflexivity|].
    pose proof (floats_object_member _ Hfl) as Hfls.
    assert (Hall : Forall (fun kv =>
              forall level rest,
                later_indents (codes (json.iterencode (snd kv) level) ++ rest)
                = nested_indents (snd kv) level ++ later_indents rest) (m :: tl)).
    { rewrite Forall_forall in *. intros x Hx. apply IH; auto. }
    fold (encm level). fold (sep level).
    rewrite !codes_app, <- !app_assoc.
    cbn [codes app later_indents]. change (ord "{" =? ord newline) with false.
    cbv iota. rewrite later_indents_newline_indent.
    rewrite (leading_spaces_starts _ _ (encm_starts level m tl)).
    rewrite Nat.add_0_r, (later_indents_members level _ tl m Hall).
    rewrite later_indents_newline_indent.
    cbn [leading_spaces later_indents flat_map app].
    change (ord "}" =? ord " ") with false.
    change (ord "}" =? ord newline) with false. cbv iota.
    rewrite Nat.add_0_r, <- ?app_assoc. reflexivity.
Qed.

(** The text that [json.dump(..., indent=4)] writes has its lines
    indented by four spaces for each level of nesting. *)
Lemma dumps_indent4_lines (v : json.value) :
  Forall json.float_reads_back (json.floats v) ->
  line_indents (codes (json.dumps_indent4 v)) = O :: nested_indents v 0.
Proof.
  intros Hfl. unfold line_indents, json.dumps_indent4.
  pose proof (leading_spaces_starts _ [] (iterencode_starts v 0 Hfl)) as H0.
  pose proof (later_indents_iterencode v Hfl 0%nat []) as H1.
  rewrite app_nil_r in H0, H1. rewrite H0, H1. cbn [later_indents].
  now rewrite app_nil_r.
Qed.

End JsonIndent.

Section JsonErrors.
Context `{Ext : Externals}.

(** *** The exceptions of the decoder *)

Lemma cons_char_fails {c : Z} {r : json.scanned json.pystr} {e : exn} :
  json.cons_char c r = json.Failed e -> r = json.Failed e.
Proof. destruct r; cbn; [discriminate|]. now intros [= ->]. Qed.

Lemma scanstring_fails (n : nat) : forall s e,
  (List.length s <= n)%nat ->
  json.scanstring s = json.Failed e -> e = JSONDecodeError.
Proof.
  induction n as [|n IH]; intros s e Hlen Hscan.
  - destruct s; [now injection Hscan|cbn in Hlen; lia].
  - destruct s as [|c r]; [now injection Hscan|].
    cbn [json.scanstring] in Hscan. cbn [List.length] in Hlen.
    destruct (c =? ord dquote); [discriminate|].
    destruct (c =? ord "\").
    + destruct r as [|x r']; [now injection Hscan|].
      cbn [List.length] in Hlen.
      destruct (x =? ord "u").
      * destruct r' as [|h1 [|h2 [|h3 [|h4 r'']]]];
          try (now injection Hscan).
        cbn [List.length] in Hlen.
        destruct (json.hex4_value h1 h2 h3 h4) as [uni|];
          [|now injection Hscan].
        assert (Hlone : json.cons_char uni (json.scanstring r'')
                        = json.Failed e -> e = JSONDecodeError).
        { intros H%cons_char_fails. apply (IH r''); [lia|exact H]. }
        destruct r'' as [|b [|u [|l1 [|l2 [|l3 [|l4 r3]]]]]];
          try (exact (Hlone Hscan)).
        destruct (json.is_high_surrogate uni && negb (json.is_nil r3)
                  && (b =? ord "\") && (u =? ord "u"));
          [|exact (Hlone Hscan)].
        destruct (json.hex4_value l1 l2 l3 l4) as [uni2|];
          [|now injection Hscan].
        destruct (json.is_low_surrogate uni2); [|exact (Hlone Hscan)].
        apply cons_char_fails in Hscan. apply (IH r3); [|exact Hscan].
        cbn [List.length] in Hlen. lia.
      * destruct (json.BACKSLASH x); [|now injection Hscan].
        apply cons_char_fails in Hscan. apply (IH r'); [lia|exact Hscan].
    + destruct (c <? 32); [now injection Hscan|].
      apply cons_char_fails in Hscan. apply (IH r); [lia|exact Hscan].
Qed.

Lemma scan_number_fails (s : pytext) (e : exn) :
  json.scan_number s = json.Failed e -> decoder_error e.
Proof.
  unfold json.scan_number, decoder_error.
  assert (Hbody : forall (negative : bool) (s1 : pytext),
    match s1 with
    | [] => json.Failed JSONDecodeError
    | c :: r0 =>
        if json.is_digit c then
          let '(int_part, r1) := json.scan_int_part c r0 in
          let '(frac, r2) := json.scan_frac r1 in
          let '(exp, r3) := json.scan_exp r2 in
          match frac, exp with
          | [], [] =>
              if json.too_many_digits (List.length int_part)
              then json.Failed ValueError
              else json.Scanned (json.Int (if negative then - json.int_of_digits int_part
                                 else json.int_of_digits int_part)) r3
          | _, _ =>
              json.Scanned (json.Float (float_of_literal
                                ((if negative then codes "-" else [])
                                   ++ int_part ++ frac ++ exp))) r3
          end
        else json.Failed JSONDecodeError
    end = json.Failed e ->
    e = JSONDecodeError \/ e = ValueError \/ e = RecursionError).
  { intros negative [|c r0]; [intros [= <-]; now left|].
    destruct (json.is_digit c); [|intros [= <-]; now left].
    destruct (json.scan_int_part c r0) as [int_part r1].
    destruct (json.scan_frac r1) as [frac r2].
    destruct (json.scan_exp r2) as [exp r3].
    destruct frac, exp; try discriminate.
    destruct (json.too_many_digits _); [|discriminate].
    intros [= <-]. right. now left. }
  destruct s as [|c s']; [intros [= <-]; now left|].
  destruct (c =? ord "-"); cbv beta iota; intros H.
  - exact (Hbody true s' H).
  - exact (Hbody false (c :: s') H).
Qed.

Lemma scan_fails (fuel : nat) :
  (forall depth s e,
      json.scan_once fuel depth s = json.Failed e -> decoder_error e) /\
  (forall depth s e,
      json.array_loop fuel depth s = json.Failed e -> decoder_error e) /\
  (forall depth s e,
      json.object_loop fuel depth s = json.Failed e -> decoder_error e).
Proof.
  assert (Hj : decoder_error JSONDecodeError) by now left.
  assert (Hr : decoder_error RecursionError) by (right; now right).
  induction fuel as [|fuel (IHv & IHa & IHo)].
  - repeat split; intros depth s e [= <-]; exact Hj.
  - split; [|split].
    + intros depth [|c r] e; [intros [= <-]; exact Hj|]. rewrite scan_once_S.
      destruct (c =? ord dquote).
      { destruct (json.scanstring r) as [str r'|e'] eqn:Hsc; [discriminate|].
        intros [= <-].
        apply (scanstring_fails (List.length r)) in Hsc; [|lia].
        subst e'. exact Hj. }
      destruct (c =? ord "{").
      { destruct depth as [|depth]; [intros [= <-]; exact Hr|].
        destruct (json.skip_ws r) as [|c1 r1]; [intros [= <-]; exact Hj|].
        destruct (c1 =? ord "}"); [discriminate|].
        destruct (c1 =? ord dquote); [|intros [= <-]; exact Hj].
        destruct (json.object_loop fuel depth r1) as [pairs r'|e'] eqn:Ho;
          [discriminate|].
        intros [= <-]. now apply IHo in Ho. }
      destruct (c =? ord "[").
      { destruct depth as [|depth]; [intros [= <-]; exact Hr|].
        destruct (json.skip_ws r) as [|c1 r1]; [intros [= <-]; exact Hj|].
        destruct (c1 =? ord "]"); [discriminate|].
        destruct (json.array_loop fuel depth (c1 :: r1)) as [items r'|e'] eqn:Ha;
          [discriminate|].
        intros [= <-]. now apply IHa in Ha. }
      repeat match goal with
             | |- context [if json.starts_with ?p ?s then _ else _] =>
                 destruct (json.starts_with p s); [discriminate|]
             end.
      apply scan_number_fails.
    + intros depth s e. rewrite array_loop_S.
      destruct (json.scan_once fuel depth s) as [v r|e'] eqn:Hv;
        [|intros [= <-]; now apply IHv in Hv].
      destruct (json.skip_ws r) as [|c r1]; [intros [= <-]; exact Hj|].
      destruct (c =? ord "]"); [discriminate|].
      destruct (c =? ord ","); [|intros [= <-]; exact Hj].
      destruct (json.array_loop fuel depth (json.skip_ws r1)) as [vs' r'|e'] eqn:Ha;
        [discriminate|].
      intros [= <-]. now apply IHa in Ha.
    + intros depth s e. rewrite object_loop_S.
      destruct (json.scanstring s) as [key r|e'] eqn:Hsc.
      2:{ intros [= <-].
          apply (scanstring_fails (List.length s)) in Hsc; [|lia].
          subst e'. exact Hj. }
      destruct (json.expect ":" (json.skip_ws r)) as [r1|];
        [|intros [= <-]; exact Hj].
      destruct (json.scan_once fuel depth (json.skip_ws r1)) as [v r2|e'] eqn:Hv;
        [|intros [= <-]; now apply IHv in Hv].
      destruct (json.skip_ws r2) as [|c r3]; [intros [= <-]; exact Hj|].
      destruct (c =? ord "}"); [discriminate|].
      destruct (c =? ord ","); [|intros [= <-]; exact Hj].
      destruct (json.expect dquote (json.skip_ws r3)) as [r4|];
        [|intros [= <-]; exact Hj].
      destruct (json.object_loop fuel depth r4) as [ms' r'|e'] eqn:Ho;
        [discriminate|].
      intros [= <-]. now apply IHo in Ho.
Qed.

(** [json.loads] raises [JSONDecodeError], [ValueError] or
    [RecursionError], nothing else. *)
Lemma loads_raises (text : pytext) (e : exn) :
  json.loads text = Raised e -> decoder_error e.
Proof.
  unfold json.loads.
  destruct (json.scan_once _ _ _) as [v rest|e'] eqn:Hsc.
  - destruct (json.skip_ws rest); [discriminate|]. intros [= <-]. now left.
  - intros [= <-]. now apply (proj1 (scan_fails _)) in Hsc.
Qed.

End JsonErrors.

(** ** Runs of [write_output] (C4, C10) *)

Section WriteOutput.
Context `{Ext : Externals}.

Lemma path_eqb_refl (p : path) : path_eqb p p = true.
Proof.
  induction p as [|a p IH]; cbn; [reflexivity|].
  now rewrite String.eqb_refl, IH.
Qed.

(** What [write_output] does for the format ["json"].  A
    [JSONDecodeError] is caught by the inner [except]; the [ValueError] of
    an integer of too many digits and the [RecursionError] of a nesting
    that is too deep are caught by [except Exception]. *)
Lemma write_output_json_run (output_file : path) (data : pytext) (w : world) :
  write_output output_file data "json" w =
  match json.loads data with
  | Raised e =>
      (Returned tt,
       add_events [EvLog ERROR (if is_JSONDecodeError e
                                then Invalid_JSON_data e
                                else Unexpected_error e)] w)
  | Returned json_data =>
      match w_open w output_file with
      | Some strerror =>
          (Returned tt,
           add_events
             [EvOpen output_file;
              EvLog ERROR (Error_writing_to_file output_file (OSError strerror))]
             w)
      | None =>
          (Returned tt,
           add_events
             [EvOpen output_file;
              EvLog INFO (Successfully_wrote_output output_file)]
             (set_file output_file (json.dumps_indent4 json_data)
                (set_file output_file EmptyString w)))
      end
  end.
Proof.
  unfold write_output. cbn [String.eqb Ascii.eqb Bool.eqb].
  unfold try_except at 1. unfold bind at 1. unfold try_except at 1.
  unfold bind at 1. unfold lift.
  destruct (json.loads data) as [v|e] eqn:Hl.
  - unfold ret at 1. unfold bind at 1. unfold open_w, bind, emit.
    cbn [w_open add_events].
    destruct (w_open w output_file) as [err|] eqn:Ho.
    + cbn. unfold logging, emit. now rewrite add_events_app.
    + unfold file_write. cbn [w_files set_file add_events].
      rewrite path_eqb_refl. unfold logging, emit, add_events, set_file.
      cbn. now rewrite <- app_assoc.
  - apply loads_raises in Hl as [->|[->| ->]]; reflexivity.
Qed.

(** What [write_output] does for a format that is neither ["json"] nor
    ["yaml"]. *)
Lemma write_output_other_run (output_file : path) (data : pytext) (fmt : string)
      (w : world) :
  String.eqb fmt "json" = false ->
  String.eqb fmt "yaml" = false ->
  write_output output_file data fmt w =
  (Returned tt, add_events [EvLog ERROR (Invalid_output_format fmt)] w).
Proof.
  intros Hj Hy. unfold write_output. rewrite Hj, Hy. reflexivity.
Qed.

(** What [write_output] does for ["yaml"] when the text is not YAML. *)
Lemma write_output_yaml_invalid (output_file : path) (data : pytext) (m : string)
      (w : world) :
  yaml_installed = true ->
  yaml_safe_load data = Raised (YAMLError m) ->
  write_output output_file data "yaml" w =
  (Returned tt, add_events [EvLog ERROR (Invalid_YAML_data (YAMLError m))] w).
Proof.
  intros Hi Hl. unfold write_output. cbn [String.eqb Ascii.eqb Bool.eqb].
  rewrite Hi. unfold try_except, bind, lift. rewrite Hl. cbn. reflexivity.
Qed.

(** C4. When the rendered text does not decode in the declared format,
    [write_output] logs the invalid-payload error and returns; nothing
    else happens: the files are the same and no file was opened. *)
Theorem C4_invalid_payload_leaves_file
        (output_file : path) (data : pytext) (fmt : string) (w : world) (e : exn) :
  invalid_payload fmt data = Some e ->
  write_output output_file data fmt w =
    (Returned tt, add_events [EvLog ERROR (invalid_payload_msg fmt e)] w) /\
  w_files (snd (write_output output_file data fmt w)) = w_files w /\
  (forall p, In (EvOpen p) (w_trace (snd (write_output output_file data fmt w))) ->
             In (EvOpen p) (w_trace w)).
Proof.
  intros Hinv.
  assert (Hrun : write_output output_file data fmt w =
    (Returned tt, add_events [EvLog ERROR (invalid_payload_msg fmt e)] w)).
  { unfold invalid_payload, invalid_payload_msg in *.
    destruct (String.eqb fmt "json") eqn:Hj.
    - apply String.eqb_eq in Hj. subst fmt.
      rewrite write_output_json_run.
      destruct (json.loads data); [discriminate|]. now injection Hinv as ->.
    - destruct (String.eqb fmt "yaml") eqn:Hy; [|discriminate].
      apply String.eqb_eq in Hy. subst fmt.
      destruct yaml_installed eqn:Hi; [|discriminate].
      destruct (yaml_safe_load data) as [v|[]] eqn:Hl; try discriminate.
      injection Hinv as <-. now apply write_output_yaml_invalid. }
  rewrite Hrun. split; [reflexivity|]. split; [reflexivity|].
  intros p. cbn. rewrite in_app_iff. intros [H|[H|[]]]; [exact H|discriminate H].
Qed.

(** C10. For a format other than ["json"] and ["yaml"], [write_output]
    logs the error and returns without raising; the files are the same and
    no file was opened. *)
Theorem C10_unknown_format_is_logged
        (output_file : path) (data : pytext) (fmt : string) (w : world) :
  fmt <> "json" -> fmt <> "yaml" ->
  write_output output_file data fmt w =
    (Returned tt, add_events [EvLog ERROR (Invalid_output_format fmt)] w) /\
  w_files (snd (write_output output_file data fmt w)) = w_files w /\
  (forall p, In (EvOpen p) (w_trace (snd (write_output output_file data fmt w))) ->
             In (EvOpen p) (w_trace w)).
Proof.
  intros Hj%String.eqb_neq Hy%String.eqb_neq.
  rewrite write_output_other_run by assumption.
  split; [reflexivity|]. split; [reflexivity|].
  intros p. cbn. rewrite in_app_iff. intros [H|[H|[]]]; [exact H|discriminate H].
Qed.

(** Whatever [json.loads] raises, [write_output] logs one error record
    and returns: the destination is not opened and no file changes. *)
Lemma write_output_json_raised (output_file : path) (data : pytext) (w : world)
      (e : exn) :
  json.loads data = Raised e ->
  write_output output_file data "json" w =
  (Returned tt,
   add_events [EvLog ERROR (if is_JSONDecodeError e
                            then Invalid_JSON_data e
                            else Unexpected_error e)] w).
Proof. intros Hl. now rewrite write_output_json_run, Hl. Qed.

(** For ["json"], [write_output] returns normally in every case. *)
Lemma write_output_json_returns (output_file : path) (data : pytext) (w : world) :
  fst (write_output output_file data "json" w) = Returned tt.
Proof.
  rewrite write_output_json_run.
  destruct (json.loads data); [|reflexivity].
  destruct (w_open w output_file); reflexivity.
Qed.

End WriteOutput.

Lemma C4_invalid_payload_leaves_file_witness :
  @write_output demo_externals ["srv"; "out.json"] (codes "{bad") "json"
    bad_template_world
  = (Returned tt,
     add_events [EvLog ERROR (Invalid_JSON_data JSONDecodeError)]
       bad_template_world).
Proof.
  apply (@C4_invalid_payload_leaves_file demo_externals
           ["srv"; "out.json"] (codes "{bad") "json" bad_template_world
           JSONDecodeError).
  vm_compute. reflexivity.
Defined.

(** An integer of 4300 digits is decoded; one of 4301 digits is refused
    with a [ValueError], which is logged as an unexpected error. *)
Lemma long_integer_decoded :
  exists n,
    @json.loads demo_externals (repeat (ord "1") 4300) = Returned (json.Int n).
Proof. eexists. vm_compute. reflexivity. Qed.

Lemma longer_integer_refused :
  @json.loads demo_externals (repeat (ord "1") 4301) = Raised ValueError /\
  @write_output demo_externals ["srv"; "out.json"] (repeat (ord "1") 4301)
    "json" bad_template_world
  = (Returned tt,
     add_events [EvLog ERROR (Unexpected_error ValueError)] bad_template_world).
Proof.
  assert (H : @json.loads demo_externals (repeat (ord "1") 4301)
              = Raised ValueError) by (vm_compute; reflexivity).
  split; [exact H|]. now rewrite (write_output_json_raised _ _ _ _ H).
Qed.

(** A nesting deeper than the recursion limit allows is refused with a
    [RecursionError]. *)
Lemma deep_nesting_refused :
  @json.loads demo_externals (repeat (ord "[") 991) = Raised RecursionError /\
  @json.loads demo_externals (repeat (ord "[") 990) = Raised JSONDecodeError.
Proof. split; vm_compute; reflexivity. Qed.

Lemma C10_unknown_format_is_logged_witness :
  @write_output demo_externals ["srv"; "out.json"] (codes "{}") "xml"
    bad_template_world
  = (Returned tt,
     add_events [EvLog ERROR (Invalid_output_format "xml")] bad_template_world).
Proof.
  apply (@C10_unknown_format_is_logged demo_externals
           ["srv"; "out.json"] (codes "{}") "xml" bad_template_world);
    intros H; discriminate H.
Defined.

(** ** Runs of [main] (C5, C6) *)

Section Main.
Context `{Ext : Externals}.

(** A failed rendering ends the run with [sys.exit(1)] before
    [write_output] is called: the files are the same. *)
Lemma render_failure_exits_one (args : arguments) (data : list file_record)
      (w w' : world) :
  render_template (template_file args) data
    (snd ((match data with
           | [] => logging WARNING No_permissions_data
           | _ => ret tt
           end) w)) = (Returned None, w') ->
  fst (render_and_write args data w) = Raised (SystemExit 1) /\
  snd (render_and_write args data w) = w'.
Proof.
  intros Hr. unfold render_and_write, bind.
  destruct data; cbn in *; rewrite Hr; split; reflexivity.
Qed.

(** [render_template] does not change the files. *)
Lemma render_template_files (template_file : path) (data : list file_record)
      (w : world) :
  w_files (snd (render_template template_file data w)) = w_files w.
Proof.
  unfold render_template, try_except, bind, get_template, lift.
  destruct (w_files w template_file); cbn.
  - destruct (jinja2_render s data) as [text|e]; cbn; [reflexivity|].
    destruct (is_TemplateError e); reflexivity.
  - reflexivity.
Qed.

(** After a rendering that is not JSON, [main]'s last lines log the error
    and return: the exit status is 0. *)
Lemma invalid_json_exit_status (args : arguments) (data : list file_record)
      (template : string) (text : pytext) (w : world) (e : exn) :
  output_format args = "json" ->
  w_files w (template_file args) = Some template ->
  jinja2_render template data = Returned text ->
  json.loads text = Raised e ->
  exit_status (fst (render_and_write args data w)) = 0 /\
  w_files (snd (render_and_write args data w)) = w_files w.
Proof.
  intros Hfmt Htpl Hrender Hloads.
  unfold render_and_write, bind, render_template, try_except, bind,
    get_template, lift.
  rewrite Hfmt.
  destruct data as [|r data]; cbn [logging emit ret w_files add_events];
    rewrite Htpl, Hrender; cbn [ret];
    rewrite write_output_json_run, Hloads; split; reflexivity.
Qed.

(** The same when the destination cannot be opened. *)
Lemma unwritable_exit_status (args : arguments) (data : list file_record)
      (template : string) (text : pytext) (strerror : string) (w : world)
      (v : json.value) :
  output_format args = "json" ->
  w_files w (template_file args) = Some template ->
  jinja2_render template data = Returned text ->
  json.loads text = Returned v ->
  w_open w (output_file args) = Some strerror ->
  exit_status (fst (render_and_write args data w)) = 0 /\
  w_files (snd (render_and_write args data w)) = w_files w.
Proof.
  intros Hfmt Htpl Hrender Hloads Hopen.
  unfold render_and_write, bind, render_template, try_except, bind,
    get_template, lift.
  rewrite Hfmt.
  destruct data as [|r data]; cbn [logging emit ret w_files add_events w_open];
    rewrite Htpl, Hrender; cbn [ret];
    rewrite write_output_json_run, Hloads; cbn [w_open add_events];
    rewrite Hopen; split; reflexivity.
Qed.

(** A source directory that does not exist ends [main] with an error
    record and [sys.exit(1)], before anything is scanned. *)
Lemma main_missing_source_dir (args : arguments) (w : world) :
  w_isdir w (source_dir args) = false ->
  main args w =
  (Raised (SystemExit 1),
   add_events [EvLog ERROR (Source_directory_missing (source_dir args))] w).
Proof.
  intros Hdir. unfold main, bind, os_path_isdir. rewrite Hdir. reflexivity.
Qed.


End Main.

(** The lines that render and write, taken alone, after a rendering that
    is not JSON: the template renders to [{bad]; [write_output] logs the
    error and the lines return, which would be exit status 0. *)
Lemma invalid_payload_last_lines_status :
  @render_and_write demo_externals demo_arguments [demo_record]
    bad_template_world
  = (Returned tt,
     add_events [EvLog ERROR (Invalid_JSON_data JSONDecodeError)]
       bad_template_world) /\
  exit_status
    (fst (@render_and_write demo_externals demo_arguments [demo_record]
            bad_template_world)) = 0.
Proof. split; vm_compute; reflexivity. Qed.

(** The same for a destination that cannot be opened. *)
Lemma unwritable_destination_exit_status :
  exit_status
    (fst (@render_and_write demo_externals demo_arguments [demo_record]
            unwritable_world)) = 0 /\
  w_files (snd (@render_and_write demo_externals demo_arguments [demo_record]
                  unwritable_world)) = w_files unwritable_world.
Proof.
  apply (@unwritable_exit_status demo_externals demo_arguments [demo_record]
           "{}" (codes "{}") "Permission denied" unwritable_world
           (json.Object []));
    reflexivity.
Qed.

(** ** The written file reads back (C9) *)

Section WrittenFile.
Context `{Ext : Externals}.

(** The destination after a text that decodes was written. *)
Lemma written_file (output_file : path) (data : pytext) (w : world)
      (v : json.value) :
  json.loads data = Returned v ->
  w_open w output_file = None ->
  w_files (snd (write_output output_file data "json" w)) output_file
    = Some (json.dumps_indent4 v).
Proof.
  intros Hloads Hopen. rewrite write_output_json_run, Hloads, Hopen.
  cbn [snd w_files add_events set_file]. now rewrite path_eqb_refl.
Qed.

(** C9. When the rendered text decodes as JSON to a value none of whose
    strings, keys included, holds a high surrogate directly before a low
    one, and the destination can be opened, the file holds the text of
    the value with the keys in the order of the value and every line
    indented by four spaces for each level of nesting, and decoding the
    file gives the same value, keys in the same order.  The floats of the
    value are taken to be written as text that reads back as the same
    float, which is what [float.__repr__] gives. *)
Theorem C9_json_roundtrip
        (output_file : path) (data : pytext) (w : world) (v : json.value) :
  is_str data = true ->
  json.loads data = Returned v ->
  json.pairs_free v = true ->
  Forall json.float_reads_back (json.floats v) ->
  w_open w output_file = None ->
  w_files (snd (write_output output_file data "json" w)) output_file
    = Some (json.dumps_indent4 v) /\
  json.loads (codes (json.dumps_indent4 v)) = Returned v /\
  line_indents (codes (json.dumps_indent4 v)) = O :: nested_indents v 0.
Proof.
  intros Hs Hloads Hpf Hfl Hopen.
  destruct (loads_well_formed data v Hs Hloads) as [Hwf Hd].
  split; [now apply written_file|]. split.
  - apply loads_dumps; [|exact Hd]. now repeat split.
  - now apply dumps_indent4_lines.
Qed.

(** Under the same conditions the sentence of the spec holds. *)
Lemma json_roundtrip_without_pairs
      (output_file : path) (data : pytext) (w : world) :
  is_str data = true ->
  (forall v, json.loads data = Returned v ->
             json.pairs_free v = true /\
             Forall json.float_reads_back (json.floats v)) ->
  w_open w output_file = None ->
  json_roundtrip_as_claimed output_file data w.
Proof.
  intros Hs Hv Hopen v Hloads. destruct (Hv v Hloads) as [Hpf Hfl].
  destruct (loads_well_formed data v Hs Hloads) as [Hwf Hd].
  exists (json.dumps_indent4 v). split; [now apply written_file|].
  apply loads_dumps; [|exact Hd]. now repeat split.
Qed.

End WrittenFile.

Lemma C9_json_roundtrip_witness :
  w_files (snd (@write_output demo_externals ["srv"; "out.json"]
                  (codes "[1.5]") "json" bad_template_world))
    ["srv"; "out.json"]
    = Some (@json.dumps_indent4 demo_externals float_list_value) /\
  @json.loads demo_externals
    (codes (@json.dumps_indent4 demo_externals float_list_value))
    = Returned float_list_value /\
  line_indents
    (codes (@json.dumps_indent4 demo_externals float_list_value))
    = [0; 4; 0]%nat.
Proof.
  apply (@C9_json_roundtrip demo_externals ["srv"; "out.json"]
           (codes "[1.5]") bad_template_world float_list_value);
    try reflexivity.
  repeat constructor.
Defined.

(** C9, as stated, fails for a text with a high and a low surrogate as
    two characters of a string.  The text decodes to a string of two code
    points; the encoder writes each as its escape, which together are the
    escape of a pair; the written file decodes to a string of one code
    point, U+1F600. *)
Lemma C9_counterexample_surrogates :
  is_str surrogates_json = true /\
  @json.loads demo_externals surrogates_json
    = Returned (json.Str [0xD83D; 0xDE00]) /\
  w_files (snd (@write_output demo_externals ["srv"; "out.json"]
                  surrogates_json "json" bad_template_world))
    ["srv"; "out.json"]
    = Some (String dquote ("\ud83d\ude00" ++ String dquote "")) /\
  @json.loads demo_externals
    (codes (String dquote ("\ud83d\ude00" ++ String dquote "")))
    = Returned (json.Str [0x1F600]) /\
  ~ @json_roundtrip_as_claimed demo_externals ["srv"; "out.json"]
      surrogates_json bad_template_world.
Proof.
  split; [reflexivity|]. split; [vm_compute; reflexivity|].
  split; [vm_compute; reflexivity|]. split; [vm_compute; reflexivity|].
  intros H.
  destruct (H (json.Str [0xD83D; 0xDE00]) ltac:(vm_compute; reflexivity))
    as (written & Hw & Hl).
  vm_compute in Hw. injection Hw as <-. vm_compute in Hl. discriminate Hl.
Qed.

(** ** The permission matrix and the mode string, read backwards *)

(** X2. Every combination of the nine booleans is the matrix of a mode:
    the matrix built from the mode that encodes a matrix at the POSIX bit
    positions is that matrix, whatever the other fields of the
    [stat_result] are. *)
Theorem matrix_decode_encode (p : permission_info) (uid gid size : Z) :
  let q := build_permissions (mk_stat_result (encode_matrix p) uid gid size) in
  user q = user p /\ group q = group p /\ other q = other p.
Proof.
  destruct p as [[ur uw ux] [gr gw gx] [or ow ox] o g m s].
  destruct ur, uw, ux, gr, gw, gx, or, ow, ox; repeat split.
Qed.

Lemma if_char_inj (b1 b2 : bool) (c : ascii) :
  c <> "-"%char ->
  (if b1 then c else "-"%char) = (if b2 then c else "-"%char) -> b1 = b2.
Proof. destruct b1, b2; congruence. Qed.

Lemma exec_char_inj (x1 s1 x2 s2 : bool) (a b : ascii) :
  a <> "x"%char -> a <> "-"%char -> b <> "x"%char -> b <> "-"%char -> a <> b ->
  exec_char x1 s1 a b = exec_char x2 s2 a b -> x1 = x2 /\ s1 = s2.
Proof.
  unfold exec_char. intros.
  destruct x1, s1, x2, s2; split; try reflexivity; exfalso; congruence.
Qed.

Lemma low_bits_eq (m1 m2 k : Z) :
  0 <= k ->
  (forall n, 0 <= n < k -> Z.testbit m1 n = Z.testbit m2 n) ->
  m1 mod 2 ^ k = m2 mod 2 ^ k.
Proof.
  intros Hk H. apply Z.bits_inj'. intros n Hn.
  destruct (Z.lt_ge_cases n k) as [Hlt|Hge].
  - rewrite !Z.mod_pow2_bits_low by lia. apply H. lia.
  - now rewrite !Z.mod_pow2_bits_high by lia.
Qed.

(** Two modes with the same mode string have the same twelve low bits. *)
Lemma filemode_bits (m1 m2 : Z) :
  stat.filemode m1 = stat.filemode m2 ->
  forall n, 0 <= n < 12 -> Z.testbit m1 n = Z.testbit m2 n.
Proof.
  intros Hmode. rewrite !filemode_chars in Hmode.
  cbn [string_of_list_ascii] in Hmode.
  injection Hmode as _ H8 H7 H6 H5 H4 H3 H2 H1 H0.
  apply if_char_inj in H8, H7, H5, H4, H2, H1; try discriminate.
  apply exec_char_inj in H6 as [H6 H11]; try discriminate.
  apply exec_char_inj in H3 as [H3 H10]; try discriminate.
  apply exec_char_inj in H0 as [H0 H9]; try discriminate.
  intros n Hn. rewrite <- (Z2Nat.id n) by lia.
  assert (Hk : (Z.to_nat n < 12)%nat) by lia.
  destruct (Z.to_nat n) as [|[|[|[|[|[|[|[|[|[|[|[|k]]]]]]]]]]]];
    try assumption.
  lia.
Qed.

(** X3. The mode string loses nothing of the permissions: two files with
    the same mode string have the same permission, setuid, setgid and
    sticky bits ([st_mode mod 4096]) and the same nine booleans. *)
Theorem mode_string_determines_bits (s1 s2 : stat_result) :
  mode (build_permissions s1) = mode (build_permissions s2) ->
  st_mode s1 mod 4096 = st_mode s2 mod 4096 /\
  user (build_permissions s1) = user (build_permissions s2) /\
  group (build_permissions s1) = group (build_permissions s2) /\
  other (build_permissions s1) = other (build_permissions s2).
Proof.
  intros Hmode.
  assert (Hbits : forall n, 0 <= n < 12 ->
            Z.testbit (st_mode s1) n = Z.testbit (st_mode s2) n)
    by (apply filemode_bits; exact Hmode).
  destruct (build_permissions_bits s1) as (U1 & G1 & O1).
  destruct (build_permissions_bits s2) as (U2 & G2 & O2).
  cbv zeta in *. rewrite U1, G1, O1, U2, G2, O2.
  split; [change 4096 with (2 ^ 12); apply low_bits_eq; [lia|exact Hbits]|].
  rewrite !(Hbits 0), !(Hbits 1), !(Hbits 2), !(Hbits 3), !(Hbits 4),
    !(Hbits 5), !(Hbits 6), !(Hbits 7), !(Hbits 8) by lia.
  repeat split.
Qed.

Lemma mode_string_determines_bits_witness :
  0x81A4 mod 4096 = 0x181A4 mod 4096.
Proof.
  apply (mode_string_determines_bits (mk_stat_result 0x81A4 0 0 0)
                                     (mk_stat_result 0x181A4 1 1 1)).
  reflexivity.
Defined.

(** ** [get_file_permissions] as a whole *)



(** ** The walk *)

Lemma dirtree_ind_nested (P : dirtree -> Prop) :
  P Unreadable -> P Symlink ->
  (forall dirs nondirs,
      Forall (fun d => P (snd d)) dirs -> P (Listing dirs nondirs)) ->
  forall t, P t.
Proof.
  intros HU HS HL.
  refine (fix F (t : dirtree) : P t :=
            match t with
            | Unreadable => HU
            | Symlink => HS
            | Listing dirs nondirs =>
                HL dirs nondirs
                  ((fix G (l : list (string * dirtree))
                      : Forall (fun d => P (snd d)) l :=
                      match l with
                      | [] => Forall_nil _
                      | x :: r => Forall_cons x (F (snd x)) (G r)
                      end) dirs)
            end).
Qed.

Lemma commonprefix_app (start rest : list string) :
  os_path.commonprefix start (start ++ rest) = start.
Proof.
  induction start as [|a start IH]; cbn; [now destruct rest|].
  now rewrite String.eqb_refl, IH.
Qed.

(** [relpath] of a path below [start] is the path from [start] on: no
    [..], and nothing of [start] itself. *)
Lemma relpath_below (start rest : list string) :
  os_path.relpath (start ++ rest) start = below_root rest.
Proof.
  unfold os_path.relpath. rewrite commonprefix_app, Nat.sub_diag.
  cbn [repeat app]. rewrite skipn_app, skipn_all, Nat.sub_diag. reflexivity.
Qed.

(** Every directory that [os.walk] yields is below its top. *)
Lemma os_walk_roots (top : path) (t : dirtree) :
  forall root dirs files,
    In (root, dirs, files) (os_walk top t) -> exists rel, root = top ++ rel.
Proof.
  revert top.
  induction t as [| |ds nondirs IH] using dirtree_ind_nested;
    intros top root dirs files Hin; try contradiction.
  cbn [os_walk] in Hin. destruct Hin as [Heq|Hin].
  - injection Heq as <- _ _. exists []. now rewrite app_nil_r.
  - apply in_flat_map in Hin as ([d sub] & Hd & Hin).
    rewrite Forall_forall in IH.
    apply (IH (d, sub) Hd) in Hin as (rel & ->).
    exists (d :: rel). unfold os_path.join. now rewrite <- app_assoc.
Qed.

Lemma scan_records_cons spec src stat_of root dirs files walk :
  scan_records spec src stat_of ((root, dirs, files) :: walk) =
  flat_map (fun f => fst (file_result spec src stat_of root f)) files
  ++ scan_records spec src stat_of walk.
Proof. reflexivity. Qed.

Lemma scan_events_cons spec src stat_of root dirs files walk :
  scan_events spec src stat_of ((root, dirs, files) :: walk) =
  flat_map (fun f => snd (file_result spec src stat_of root f)) files
  ++ scan_events spec src stat_of walk.
Proof. reflexivity. Qed.

Lemma scan_records_app spec src stat_of walk1 walk2 :
  scan_records spec src stat_of (walk1 ++ walk2) =
  scan_records spec src stat_of walk1 ++ scan_records spec src stat_of walk2.
Proof. unfold scan_records. apply flat_map_app. Qed.

Lemma in_scan_events spec src stat_of walk ev :
  In ev (scan_events spec src stat_of walk) ->
  exists root dirs files file,
    In (root, dirs, files) walk /\ In file files /\
    In ev (snd (file_result spec src stat_of root file)).
Proof.
  unfold scan_events. intros Hin.
  apply in_flat_map in Hin as ([[root dirs] files] & Hw & Hin). cbn in Hin.
  apply in_flat_map in Hin as (file & Hfile & Hin).
  now exists root, dirs, files, file.
Qed.



(** X6. The [file_path] of every record is the path of the file from the
    source directory down, joined with [/]: it has no [..] and nothing of
    the source directory's own path, and the file is one that [os.stat]
    could read at that place. *)
Theorem record_path_below_root spec source_dir w :
  exists data evs,
    scan_walk spec source_dir w = (Returned data, add_events evs w) /\
    forall r, In r data ->
      exists rel file stat_info,
        w_stat w (source_dir ++ rel ++ [file]) = inr stat_info /\
        r = mk_file_record (below_root (rel ++ [file]))
              (build_permissions stat_info).
Proof.
  eexists _, _. split; [apply scan_walk_run|].
  intros r Hin. unfold scan_records in Hin.
  apply in_flat_map in Hin as ([[root dirs] files] & Hw & Hin). cbn in Hin.
  apply in_flat_map in Hin as (file & Hfile & Hin).
  apply in_file_result in Hin as (st & _ & Hst & ->).
  apply os_walk_roots in Hw as (rel & ->).
  unfold os_path.join in *. rewrite <- app_assoc in *.
  rewrite relpath_below. now exists rel, file, st.
Qed.

(** ** Counting what the scan does *)

Lemma count_events_app f a b :
  count_events f (a ++ b) = (count_events f a + count_events f b)%nat.
Proof. unfold count_events. now rewrite filter_app, length_app. Qed.

Lemma file_result_counts spec src stat_of root file :
  let res := file_result spec src stat_of root file in
  (count_events is_stat_call (snd res)
   = List.length (fst res) + count_events is_stat_error (snd res))%nat /\
  (1 = List.length (fst res) + count_events is_exclusion (snd res)
       + count_events is_stat_error (snd res))%nat.
Proof.
  unfold file_result.
  destruct (pathspec.match_file spec _); [split; reflexivity|].
  destruct (stat_of _); split; reflexivity.
Qed.

Lemma files_counts spec src stat_of root files :
  (count_events is_stat_call
     (flat_map (fun f => snd (file_result spec src stat_of root f)) files) =
   List.length (flat_map (fun f => fst (file_result spec src stat_of root f)) files)
   + count_events is_stat_error
       (flat_map (fun f => snd (file_result spec src stat_of root f)) files))%nat /\
  (List.length files =
   List.length (flat_map (fun f => fst (file_result spec src stat_of root f)) files)
   + count_events is_exclusion
       (flat_map (fun f => snd (file_result spec src stat_of root f)) files)
   + count_events is_stat_error
       (flat_map (fun f => snd (file_result spec src stat_of root f)) files))%nat.
Proof.
  induction files as [|f files [IH1 IH2]]; [split; reflexivity|].
  cbn [flat_map List.length]. rewrite !count_events_app, !length_app.
  destruct (file_result_counts spec src stat_of root f) as [H1 H2].
  cbv zeta in H1, H2. lia.
Qed.

Lemma scan_counts spec src stat_of walk :
  (count_events is_stat_call (scan_events spec src stat_of walk) =
   List.length (scan_records spec src stat_of walk)
   + count_events is_stat_error (scan_events spec src stat_of walk))%nat /\
  (List.length (listed_files walk) =
   List.length (scan_records spec src stat_of walk)
   + count_events is_exclusion (scan_events spec src stat_of walk)
   + count_events is_stat_error (scan_events spec src stat_of walk))%nat.
Proof.
  induction walk as [|[[root dirs] files] walk [IH1 IH2]]; [split; reflexivity|].
  rewrite scan_records_cons, scan_events_cons.
  unfold listed_files in *. cbn [flat_map].
  rewrite !count_events_app, !length_app, length_map.
  destruct (files_counts spec src stat_of root files) as [Hf1 Hf2]. lia.
Qed.

(** X7. The scan accounts for every file the walk lists: the number of
    listed files is the number of records plus the number of exclusion
    records plus the number of [os.stat] error records, and the number of
    [os.stat] calls is the number of records plus the number of error
    records, so an excluded file costs no call. *)
Theorem scan_accounting spec source_dir w :
  exists data evs,
    scan_walk spec source_dir w = (Returned data, add_events evs w) /\
    (count_events is_stat_call evs
     = List.length data + count_events is_stat_error evs)%nat /\
    (List.length (listed_files (os_walk source_dir (w_tree w source_dir))) =
     List.length data + count_events is_exclusion evs
     + count_events is_stat_error evs)%nat.
Proof.
  eexists _, _. split; [apply scan_walk_run|]. apply scan_counts.
Qed.

(** ** The log of the scan at the configured level *)

(** X8. With the level [INFO] that the program configures, the only
    records of the scan that are written are the errors of [os.stat], each
    for a file that is not excluded and whose metadata cannot be read;
    exclusions are logged at [DEBUG] and leave no line. *)
Theorem scan_visible_log spec source_dir w :
  exists data evs,
    scan_walk spec source_dir w = (Returned data, add_events evs w) /\
    forall ev, In ev (visible_log evs) ->
      exists fp strerror,
        w_stat w fp = inl strerror /\
        pathspec.match_file spec (os_path.relpath fp source_dir) = false /\
        ev = EvLog ERROR (Error_getting_permissions fp (OSError strerror)).
Proof.
  eexists _, _. split; [apply scan_walk_run|].
  intros ev Hin. unfold visible_log in Hin. apply filter_In in Hin as [Hin Hvis].
  apply in_scan_events in Hin as (root & dirs & files & file & _ & _ & Hin).
  unfold file_result in Hin.
  destruct (pathspec.match_file spec _) eqn:Hm.
  - cbn in Hin. destruct Hin as [<-|[]]. discriminate Hvis.
  - destruct (w_stat w _) as [err|st] eqn:Hs; cbn in Hin.
    + destruct Hin as [<-|[<-|[]]]; [discriminate Hvis|].
      now exists (os_path.join root file), err.
    + destruct Hin as [<-|[]]. discriminate Hvis.
Qed.

Lemma visible_file_events spec src stat_of root file :
  (forall p, exists st, stat_of p = inr st) ->
  visible_log (snd (file_result spec src stat_of root file)) = [].
Proof.
  intros Hok. unfold file_result.
  destruct (pathspec.match_file spec _); [reflexivity|].
  destruct (Hok (os_path.join root file)) as [st ->]. reflexivity.
Qed.

Lemma visible_log_flat_map {A : Type} (f : A -> list event) (l : list A) :
  (forall a, In a l -> visible_log (f a) = []) ->
  visible_log (flat_map f l) = [].
Proof.
  intros H. induction l as [|a l IH]; [reflexivity|].
  cbn [flat_map]. unfold visible_log in *. rewrite filter_app.
  rewrite (H a (or_introl eq_refl)), IH; [reflexivity|].
  intros b Hb. apply H. now right.
Qed.

(** X9. When the metadata of every file can be read, the scan writes no
    log line at the configured level, however many files the patterns
    exclude. *)
Theorem scan_silent_when_readable spec source_dir w :
  (forall p, exists stat_info, w_stat w p = inr stat_info) ->
  exists data evs,
    scan_walk spec source_dir w = (Returned data, add_events evs w) /\
    visible_log evs = [].
Proof.
  intros Hok. eexists _, _. split; [apply scan_walk_run|].
  unfold scan_events. apply visible_log_flat_map.
  intros [[root dirs] files] _. cbn.
  apply visible_log_flat_map. intros f _. now apply visible_file_events.
Qed.

Lemma scan_silent_when_readable_witness :
  exists data evs,
    scan_walk log_spec example_root exclusion_world
      = (Returned data, add_events evs exclusion_world) /\
    visible_log evs = [].
Proof.
  apply (scan_silent_when_readable log_spec example_root exclusion_world).
  intros p. exists plain_stat. reflexivity.
Defined.

(** ** The same tree at another place *)

Lemma file_result_relocate spec src1 src2 stat1 stat2 rel file :
  (forall p, stat1 (src1 ++ p) = stat2 (src2 ++ p)) ->
  fst (file_result spec src1 stat1 (src1 ++ rel) file) =
  fst (file_result spec src2 stat2 (src2 ++ rel) file).
Proof.
  intros Hstat. unfold file_result, os_path.join.
  rewrite <- !app_assoc, !relpath_below.
  destruct (pathspec.match_file spec _); [reflexivity|].
  rewrite <- Hstat. now destruct (stat1 _).
Qed.

Lemma scan_records_relocate_rel spec src1 src2 stat1 stat2 t :
  (forall p, stat1 (src1 ++ p) = stat2 (src2 ++ p)) ->
  forall rel,
    scan_records spec src1 stat1 (os_walk (src1 ++ rel) t) =
    scan_records spec src2 stat2 (os_walk (src2 ++ rel) t).
Proof.
  intros Hstat.
  induction t as [| |dirs nondirs IH] using dirtree_ind_nested; intros rel;
    try reflexivity.
  cbn [os_walk]. rewrite !scan_records_cons. f_equal.
  - apply flat_map_ext. intros f. now apply file_result_relocate.
  - induction IH as [|[d sub] dirs Hd Hdirs IHdirs]; [reflexivity|].
    cbn [flat_map fst snd]. rewrite !scan_records_app. f_equal.
    + unfold os_path.join. rewrite <- !app_assoc. apply Hd.
    + exact IHdirs.
Qed.

(** X10. The records do not depend on where the source directory is:
    two source directories with the same tree below them, and the same
    metadata at corresponding paths, give the same records, paths
    included, in the same order. *)
Theorem scan_records_relocate spec src1 src2 w1 w2 :
  w_tree w1 src1 = w_tree w2 src2 ->
  (forall p, w_stat w1 (src1 ++ p) = w_stat w2 (src2 ++ p)) ->
  fst (scan_walk spec src1 w1) = fst (scan_walk spec src2 w2).
Proof.
  intros Htree Hstat. rewrite !scan_walk_run. cbn [fst]. f_equal.
  rewrite <- Htree.
  pose proof (scan_records_relocate_rel spec src1 src2 (w_stat w1) (w_stat w2)
                (w_tree w1 src1) Hstat []) as H.
  now rewrite !app_nil_r in H.
Qed.

Lemma scan_records_relocate_witness :
  fst (scan_walk log_spec example_root exclusion_world) =
  fst (scan_walk log_spec relocated_root relocated_world).
Proof.
  apply (scan_records_relocate log_spec example_root relocated_root
           exclusion_world relocated_world).
  - reflexivity.
  - intros p. reflexivity.
Defined.

(** ** Sub-directories that cannot be entered *)

(** X11. A sub-directory of the source directory that cannot be listed,
    or that is a symbolic link, changes nothing: the scan returns the same
    records and does the same things as without that entry, with no
    exception and no log record about it. *)
Theorem unreadable_subdirectory_skipped spec source_dir w1 w2
        dirs1 dirs2 name sub files :
  sub = Unreadable \/ sub = Symlink ->
  w_tree w1 source_dir = Listing (dirs1 ++ (name, sub) :: dirs2) files ->
  w_tree w2 source_dir = Listing (dirs1 ++ dirs2) files ->
  w_stat w1 = w_stat w2 ->
  exists data evs,
    scan_walk spec source_dir w1 = (Returned data, add_events evs w1) /\
    scan_walk spec source_dir w2 = (Returned data, add_events evs w2).
Proof.
  intros Hsub H1 H2 Hstat. eexists _, _.
  split; [apply scan_walk_run|]. rewrite scan_walk_run, H1, H2, Hstat.
  assert (Hwalk : os_walk source_dir (Listing (dirs1 ++ (name, sub) :: dirs2) files)
                  = (source_dir, map fst (dirs1 ++ (name, sub) :: dirs2), files)
                    :: tl (os_walk source_dir (Listing (dirs1 ++ dirs2) files))).
  { cbn [os_walk tl]. f_equal. rewrite !flat_map_app. cbn [flat_map snd].
    destruct Hsub as [-> | ->]; reflexivity. }
  rewrite Hwalk. cbn [os_walk tl].
  now rewrite !scan_records_cons, !scan_events_cons.
Qed.

Lemma unreadable_subdirectory_skipped_witness :
  exists data evs,
    scan_walk log_spec example_root subdir_world
      = (Returned data, add_events evs subdir_world) /\
    scan_walk log_spec example_root exclusion_world
      = (Returned data, add_events evs exclusion_world).
Proof.
  apply (unreadable_subdirectory_skipped log_spec example_root
           subdir_world exclusion_world [] [] "private" Unreadable
           ["a.log"; "important.log"; "b.txt"]).
  - left. reflexivity.
  - reflexivity.
  - reflexivity.
  - reflexivity.
Defined.

(** ** Rendering and the last lines of [main] *)

Section Render.
Context `{Ext : Externals}.

Lemma render_template_run (tf : path) (data : list file_record) (w : world) :
  render_template tf data w =
  match w_files w tf with
  | None =>
      (Returned None,
       add_events [EvLog ERROR (Error_rendering_template tf
                                  (TemplateError "TemplateNotFound"))] w)
  | Some template =>
      match jinja2_render template data with
      | Returned text => (Returned (Some text), w)
      | Raised e =>
          if is_TemplateError e
          then (Returned None,
                add_events [EvLog ERROR (Error_rendering_template tf e)] w)
          else (Raised e, w)
      end
  end.
Proof.
  unfold render_template, try_except, bind, get_template, lift.
  destruct (w_files w tf) as [template|]; [|reflexivity].
  destruct (jinja2_render template data) as [text|e]; [reflexivity|].
  destruct (is_TemplateError e); reflexivity.
Qed.

(** X12. The three ways [render_template] ends.  It returns the text
    the engine rendered, with nothing logged; or it returns [None] after
    exactly one error record, when the template is missing or the engine
    raised a [TemplateError]; or an exception of the engine that is not a
    [TemplateError] leaves the function, with nothing logged. *)
Theorem render_template_outcome (tf : path) (data : list file_record) (w : world) :
  match render_template tf data w with
  | (Returned (Some text), w') =>
      w' = w /\
      exists template,
        w_files w tf = Some template /\
        jinja2_render template data = Returned text
  | (Returned None, w') =>
      exists e,
        is_TemplateError e = true /\
        w' = add_events [EvLog ERROR (Error_rendering_template tf e)] w /\
        (w_files w tf = None \/
         exists template,
           w_files w tf = Some template /\ jinja2_render template data = Raised e)
  | (Raised e, w') =>
      w' = w /\ is_TemplateError e = false /\
      exists template,
        w_files w tf = Some template /\ jinja2_render template data = Raised e
  end.
Proof.
  rewrite render_template_run.
  destruct (w_files w tf) as [template|] eqn:Hf.
  - destruct (jinja2_render template data) as [text|e] eqn:Hr.
    + cbv beta iota. split; [reflexivity|]. now exists template.
    + destruct (is_TemplateError e) eqn:He; cbv beta iota.
      * exists e. split; [exact He|]. split; [reflexivity|].
        right. now exists template.
      * split; [reflexivity|]. split; [exact He|]. now exists template.
  - cbv beta iota. exists (TemplateError "TemplateNotFound").
    split; [reflexivity|]. split; [reflexivity|]. now left.
Qed.

(** Lines 236-246 in terms of [render_template] and [write_output]. *)
Lemma render_and_write_unfold (args : arguments) (data : list file_record)
      (w : world) :
  render_and_write args data w =
  match render_template (template_file args) data
          (add_events (empty_data_warning data) w) with
  | (Returned None, w') => (Raised (SystemExit 1), w')
  | (Returned (Some text), w') =>
      write_output (output_file args) text (output_format args) w'
  | (Raised e, w') => (Raised e, w')
  end.
Proof.
  unfold render_and_write, bind at 1.
  destruct data as [|r data]; cbn [empty_data_warning].
  - unfold logging, emit, bind.
    destruct (render_template _ _ _) as [[[text|]|e] w']; reflexivity.
  - unfold ret at 1. rewrite add_events_nil. unfold bind.
    destruct (render_template _ _ _) as [[[text|]|e] w']; reflexivity.
Qed.

(** X13. When the template is missing or the engine raises a
    [TemplateError], the last lines of [main] end with [sys.exit(1)]
    after the warning about empty data, if the data is empty, and one
    error record: [write_output] is not called, no file is opened and no
    file changes. *)
Theorem template_error_exits_one (args : arguments) (data : list file_record)
        (w : world) :
  (forall template,
      w_files w (template_file args) = Some template ->
      exists e, jinja2_render template data = Raised e /\
                is_TemplateError e = true) ->
  exists e,
    render_and_write args data w =
    (Raised (SystemExit 1),
     add_events (empty_data_warning data ++
                 [EvLog ERROR (Error_rendering_template (template_file args) e)])
       w).
Proof.
  intros Hfail. rewrite render_and_write_unfold, render_template_run.
  cbn [w_files add_events].
  destruct (w_files w (template_file args)) as [template|] eqn:Hf.
  - destruct (Hfail template eq_refl) as (e & -> & ->).
    exists e. now rewrite add_events_app.
  - eexists. now rewrite add_events_app.
Qed.

(** X14. An exception of the template engine that is not a
    [TemplateError] is caught nowhere: it leaves [render_template] and the
    last lines of [main] as it is, with no error record, and nothing is
    written. *)
Theorem render_error_propagates (args : arguments) (data : list file_record)
        (template : string) (e : exn) (w : world) :
  w_files w (template_file args) = Some template ->
  jinja2_render template data = Raised e ->
  is_TemplateError e = false ->
  render_and_write args data w =
  (Raised e, add_events (empty_data_warning data) w).
Proof.
  intros Hf Hr He. rewrite render_and_write_unfold, render_template_run.
  cbn [w_files add_events]. now rewrite Hf, Hr, He.
Qed.

(** X15. The run that succeeds, from the records on: when the template
    renders to text that is JSON and the destination can be opened, the
    last lines of [main] return, the destination holds the re-serialised
    value in place of whatever it held, no other file changes, and the
    events are the warning about empty data (only when the data is empty,
    and the run still goes on), the opening of the destination and the
    success record. *)
Theorem render_and_write_success (args : arguments) (data : list file_record)
        (template : string) (text : pytext) (v : json.value) (w : world) :
  output_format args = "json" ->
  w_files w (template_file args) = Some template ->
  jinja2_render template data = Returned text ->
  json.loads text = Returned v ->
  w_open w (output_file args) = None ->
  let w' := snd (render_and_write args data w) in
  fst (render_and_write args data w) = Returned tt /\
  w_files w' (output_file args) = Some (json.dumps_indent4 v) /\
  (forall p, path_eqb p (output_file args) = false -> w_files w' p = w_files w p) /\
  w_trace w' =
    w_trace w ++ empty_data_warning data ++
    [EvOpen (output_file args);
     EvLog INFO (Successfully_wrote_output (output_file args))].
Proof.
  intros Hfmt Hf Hr Hl Ho. cbv zeta.
  rewrite render_and_write_unfold, render_template_run.
  cbn [w_files add_events]. rewrite Hf, Hr, Hfmt, write_output_json_run, Hl.
  cbn [w_open add_events]. rewrite Ho.
  cbn [fst snd w_files w_trace add_events set_file].
  rewrite path_eqb_refl. repeat split.
  - intros p Hp. now rewrite Hp.
  - now rewrite <- app_assoc.
Qed.

(** X16. [main] checks the source directory first and the template file
    second, and reports only the first that is missing, with one error
    record and [sys.exit(1)]; when both are there the [KeyError] of the
    scan ends the run, with nothing logged. *)
Theorem main_validation_order (args : arguments) (w : world) :
  main args w =
  if negb (w_isdir w (source_dir args)) then
    (Raised (SystemExit 1),
     add_events [EvLog ERROR (Source_directory_missing (source_dir args))] w)
  else if negb (w_isfile w (template_file args)) then
    (Raised (SystemExit 1),
     add_events [EvLog ERROR (Template_file_missing (template_file args))] w)
  else (Raised (KeyError "gitwildcard"), w).
Proof.
  unfold main, bind, os_path_isdir, os_path_isfile.
  destruct (w_isdir w (source_dir args)); cbn; [|reflexivity].
  destruct (w_isfile w (template_file args)); reflexivity.
Qed.

End Render.

Lemma template_error_exits_one_witness :
  exists e,
    @render_and_write demo_externals demo_arguments [] exclusion_world =
    (Raised (SystemExit 1),
     add_events (empty_data_warning [] ++
                 [EvLog ERROR (Error_rendering_template
                                 (template_file demo_arguments) e)])
       exclusion_world).
Proof.
  apply (@template_error_exits_one demo_externals demo_arguments []
           exclusion_world).
  intros template H. discriminate H.
Defined.

Lemma render_error_propagates_witness :
  @render_and_write raising_externals demo_arguments [demo_record] writable_world
  = (Raised (OtherException "ZeroDivisionError"),
     add_events (empty_data_warning [demo_record]) writable_world).
Proof.
  apply (@render_error_propagates raising_externals demo_arguments
           [demo_record] "{}"); reflexivity.
Defined.

Lemma render_and_write_success_witness :
  fst (@render_and_write demo_externals demo_arguments [] writable_world)
    = Returned tt /\
  w_files (snd (@render_and_write demo_externals demo_arguments [] writable_world))
    (output_file demo_arguments)
    = Some (@json.dumps_indent4 demo_externals (json.Object [])).
Proof.
  pose proof (@render_and_write_success demo_externals demo_arguments []
                "{}" (codes "{}") (json.Object []) writable_world
                eq_refl eq_refl eq_refl eq_refl eq_refl) as H.
  cbv zeta in H. split; [exact (proj1 H)|exact (proj1 (proj2 H))].
Defined.

(** ** [write_output] for every format *)

Section Write.
Context `{Ext : Externals}.

(** What [write_output] does for the format ["yaml"]. *)
Lemma write_output_yaml_run (output_file : path) (data : pytext) (w : world) :
  write_output output_file data "yaml" w =
  if yaml_installed then
    match yaml_safe_load data with
    | Returned yaml_data =>
        match w_open w output_file with
        | Some strerror =>
            (Returned tt,
             add_events
               [EvOpen output_file;
                EvLog ERROR (Error_writing_to_file output_file (OSError strerror))]
               w)
        | None =>
            (Returned tt,
             add_events
               [EvOpen output_file;
                EvLog INFO (Successfully_wrote_output output_file)]
               (set_file output_file (yaml_dump yaml_data)
                  (set_file output_file EmptyString w)))
        end
    | Raised e =>
        if is_YAMLError e
        then (Returned tt, add_events [EvLog ERROR (Invalid_YAML_data e)] w)
        else if is_Exception e
        then (Returned tt,
              add_events
                [EvLog ERROR (if is_OSError e
                              then Error_writing_to_file output_file e
                              else Unexpected_error e)] w)
        else (Raised e, w)
    end
  else (Returned tt, add_events [EvLog ERROR PyYAML_not_installed] w).
Proof.
  unfold write_output. cbn [String.eqb Ascii.eqb Bool.eqb].
  destruct yaml_installed; [|reflexivity].
  unfold try_except at 1. unfold bind at 1. unfold try_except at 1.
  unfold bind at 1. unfold lift.
  destruct (yaml_safe_load data) as [v|e] eqn:Hl.
  - unfold ret at 1. unfold bind at 1. unfold open_w, bind, emit.
    cbn [w_open add_events].
    destruct (w_open w output_file) as [err|] eqn:Ho.
    + cbn. unfold logging, emit. now rewrite add_events_app.
    + unfold file_write. cbn [w_files set_file add_events].
      rewrite path_eqb_refl. unfold logging, emit, add_events, set_file.
      cbn. now rewrite <- app_assoc.
  - destruct (is_YAMLError e) eqn:Hy.
    + destruct e; try discriminate Hy. reflexivity.
    + destruct e; try discriminate Hy; reflexivity.
Qed.

(** The three branches on the format. *)
Lemma write_output_cases (output_file : path) (data : pytext) (fmt : string)
      (w : world) :
  write_output output_file data fmt w =
  if String.eqb fmt "json" then write_output output_file data "json" w
  else if String.eqb fmt "yaml" then write_output output_file data "yaml" w
  else (Returned tt, add_events [EvLog ERROR (Invalid_output_format fmt)] w).
Proof.
  destruct (String.eqb fmt "json") eqn:Hj.
  - apply String.eqb_eq in Hj. now subst.
  - destruct (String.eqb fmt "yaml") eqn:Hy.
    + apply String.eqb_eq in Hy. now subst.
    + now apply write_output_other_run.
Qed.

(** X18. [write_output] returns and raises nothing, for every format,
    text and destination, as long as what the YAML loader raises is an
    [Exception] (a [SystemExit] is not, and [except Exception] lets it
    pass): every failure ends as a log record. *)
Theorem write_output_never_raises
        (output_file : path) (data : pytext) (fmt : string) (w : world) :
  (forall e, yaml_safe_load data = Raised e -> is_Exception e = true) ->
  fst (write_output output_file data fmt w) = Returned tt.
Proof.
  intros Hload. rewrite write_output_cases.
  destruct (String.eqb fmt "json"); [apply write_output_json_returns|].
  destruct (String.eqb fmt "yaml"); [|reflexivity].
  rewrite write_output_yaml_run.
  destruct yaml_installed; [|reflexivity].
  destruct (yaml_safe_load data) as [v|e] eqn:Hl.
  - destruct (w_open w output_file); reflexivity.
  - rewrite (Hload e eq_refl).
    destruct (is_YAMLError e); reflexivity.
Qed.

(** X19. [write_output] changes no file but its destination, for every
    format and text. *)
Theorem write_output_other_files
        (output_file : path) (data : pytext) (fmt : string) (w : world)
        (p : path) :
  p <> output_file ->
  w_files (snd (write_output output_file data fmt w)) p = w_files w p.
Proof.
  intros Hp.
  assert (Hneq : path_eqb p output_file = false).
  { destruct (path_eqb p output_file) eqn:E; [|reflexivity].
    now apply path_eqb_eq in E. }
  rewrite write_output_cases.
  destruct (String.eqb fmt "json").
  - rewrite write_output_json_run.
    destruct (json.loads data); [|reflexivity].
    destruct (w_open w output_file); [reflexivity|].
    cbn [snd w_files add_events set_file]. now rewrite Hneq.
  - destruct (String.eqb fmt "yaml"); [|reflexivity].
    rewrite write_output_yaml_run.
    destruct yaml_installed; [|reflexivity].
    destruct (yaml_safe_load data) as [v|e].
    + destruct (w_open w output_file); [reflexivity|].
      cbn [snd w_files add_events set_file]. now rewrite Hneq.
    + destruct (is_YAMLError e); [reflexivity|].
      destruct (is_Exception e); reflexivity.
Qed.

(** X20. When the destination cannot be opened for writing,
    [write_output] changes no file, the destination included, and logs no
    success record, for every format and text. *)
Theorem write_output_unwritable
        (output_file : path) (data : pytext) (fmt strerror : string)
        (w : world) :
  w_open w output_file = Some strerror ->
  let w' := snd (write_output output_file data fmt w) in
  w_files w' = w_files w /\
  forall ev, is_info_record ev = true ->
             In ev (w_trace w') -> In ev (w_trace w).
Proof.
  intros Ho. cbv zeta.
  assert (Hnew : forall (evs : list event) ev,
             (forall ev', In ev' evs -> is_info_record ev' = false) ->
             is_info_record ev = true ->
             In ev (w_trace (add_events evs w)) -> In ev (w_trace w)).
  { intros evs ev Hevs Hev. cbn [w_trace add_events]. rewrite in_app_iff.
    intros [H|H]; [exact H|]. apply Hevs in H. congruence. }
  rewrite write_output_cases.
  destruct (String.eqb fmt "json").
  - rewrite write_output_json_run, Ho.
    destruct (json.loads data); cbn [snd]; (split; [reflexivity|]);
      intros ev; apply Hnew; intros ev' [<-|[<-|[]]] || intros ev' [<-|[]];
      reflexivity.
  - destruct (String.eqb fmt "yaml").
    + rewrite write_output_yaml_run, Ho.
      destruct yaml_installed;
        [destruct (yaml_safe_load data) as [v|e];
         [|destruct (is_YAMLError e); [|destruct (is_Exception e)]]|];
        cbn [snd]; (split; [reflexivity|]); intros ev;
        try (apply Hnew; intros ev' [<-|[<-|[]]] || intros ev' [<-|[]];
             reflexivity).
      exact (fun _ H => H).
    + cbn [snd]. split; [reflexivity|]. intros ev. apply Hnew.
      intros ev' [<-|[]]. reflexivity.
Qed.

(** X21. With the output format ["yaml"] and PyYAML not installed,
    [write_output] logs that it is missing and returns: the destination
    is not opened and no file changes, whatever the text is. *)
Theorem write_output_yaml_absent
        (output_file : path) (data : pytext) (w : world) :
  yaml_installed = false ->
  write_output output_file data "yaml" w =
  (Returned tt, add_events [EvLog ERROR PyYAML_not_installed] w).
Proof. intros Hi. now rewrite write_output_yaml_run, Hi. Qed.

(** X22. With the output format ["yaml"], PyYAML installed, a text that
    loads and a destination that can be opened, [write_output] returns,
    the destination holds what [yaml.dump] gives for the loaded value (not
    the text as rendered), and the events are the opening and the success
    record. *)
Theorem write_output_yaml_success
        (output_file : path) (data : pytext) (v : yaml_value) (w : world) :
  yaml_installed = true ->
  yaml_safe_load data = Returned v ->
  w_open w output_file = None ->
  let w' := snd (write_output output_file data "yaml" w) in
  fst (write_output output_file data "yaml" w) = Returned tt /\
  w_files w' output_file = Some (yaml_dump v) /\
  w_trace w' =
    w_trace w ++ [EvOpen output_file;
                  EvLog INFO (Successfully_wrote_output output_file)].
Proof.
  intros Hi Hl Ho. cbv zeta. rewrite write_output_yaml_run, Hi, Hl, Ho.
  cbn [fst snd w_files w_trace add_events set_file].
  now rewrite path_eqb_refl.
Qed.

(** X23. An exception of the YAML loader that is neither a [YAMLError]
    nor an [OSError] is caught by [except Exception]: one record of an
    unexpected error, the destination not opened, no file changed, and
    [write_output] returns. *)
Theorem write_output_unexpected_exception
        (output_file : path) (data : pytext) (e : exn) (w : world) :
  yaml_installed = true ->
  yaml_safe_load data = Raised e ->
  is_YAMLError e = false ->
  is_OSError e = false ->
  is_Exception e = true ->
  write_output output_file data "yaml" w =
  (Returned tt, add_events [EvLog ERROR (Unexpected_error e)] w).
Proof.
  intros Hi Hl Hy Ho He. now rewrite write_output_yaml_run, Hi, Hl, Hy, He, Ho.
Qed.

(** X24. Writing is idempotent on its own output: after a JSON text
    was written whose strings hold no high surrogate directly before a
    low one, giving [write_output] the text of the destination writes the
    same text again. *)
Theorem write_output_idempotent
        (output_file : path) (data : pytext) (v : json.value) (w : world) :
  is_str data = true ->
  json.loads data = Returned v ->
  json.pairs_free v = true ->
  Forall json.float_reads_back (json.floats v) ->
  w_open w output_file = None ->
  let w1 := snd (write_output output_file data "json" w) in
  forall written,
    w_files w1 output_file = Some written ->
    w_files (snd (write_output output_file (codes written) "json" w1))
      output_file
      = Some written.
Proof.
  intros Hs Hl Hpf Hfl Ho. cbv zeta. intros written.
  rewrite (write_output_json_run output_file data), Hl, Ho.
  cbn [snd w_files add_events set_file]. rewrite path_eqb_refl.
  intros [= <-].
  rewrite write_output_json_run.
  destruct (loads_well_formed data v Hs Hl) as [Hwf Hd].
  rewrite (loads_dumps v (conj Hwf (conj Hpf Hfl)) Hd).
  cbn [w_open add_events set_file]. rewrite Ho.
  cbn [snd w_files add_events set_file]. now rewrite path_eqb_refl.
Qed.

End Write.

Lemma write_output_never_raises_witness :
  fst (@write_output demo_externals ["srv"; "out.json"] (codes "{}") "yaml"
         writable_world) = Returned tt.
Proof.
  apply (@write_output_never_raises demo_externals).
  intros e H. discriminate H.
Defined.

Lemma write_output_other_files_witness :
  w_files (snd (@write_output demo_externals ["srv"; "out.json"] (codes "{}")
                  "json" writable_world)) ["srv"; "template.j2"]
  = w_files writable_world ["srv"; "template.j2"].
Proof.
  apply (@write_output_other_files demo_externals).
  intros H. discriminate H.
Defined.

Lemma write_output_unwritable_witness :
  w_files (snd (@write_output demo_externals ["srv"; "out.json"] (codes "{}")
                  "json" unwritable_world)) = w_files unwritable_world.
Proof.
  exact (proj1 (@write_output_unwritable demo_externals ["srv"; "out.json"]
                  (codes "{}") "json" "Permission denied" unwritable_world
                  eq_refl)).
Defined.

Lemma write_output_yaml_absent_witness :
  @write_output demo_externals ["srv"; "out.yaml"] (codes "a: 1") "yaml"
    writable_world
  = (Returned tt, add_events [EvLog ERROR PyYAML_not_installed] writable_world).
Proof.
  apply (@write_output_yaml_absent demo_externals). reflexivity.
Defined.

Lemma write_output_yaml_success_witness :
  w_files (snd (@write_output raising_externals ["srv"; "out.yaml"]
                  (codes "a: 1") "yaml" writable_world)) ["srv"; "out.yaml"]
  = Some "a: 1".
Proof.
  exact (proj1 (proj2 (@write_output_yaml_success raising_externals
                         ["srv"; "out.yaml"] (codes "a: 1") (codes "a: 1")
                         writable_world eq_refl eq_refl eq_refl))).
Defined.

Lemma write_output_unexpected_exception_witness :
  @write_output raising_externals ["srv"; "out.yaml"] (codes "[[[[[[") "yaml"
    writable_world
  = (Returned tt,
     add_events [EvLog ERROR (Unexpected_error (OtherException "RecursionError"))]
       writable_world).
Proof.
  apply (@write_output_unexpected_exception raising_externals); reflexivity.
Defined.

Lemma write_output_idempotent_witness :
  w_files
    (snd (@write_output demo_externals ["srv"; "out.json"]
            (codes (@json.dumps_indent4 demo_externals float_list_value))
            "json"
            (snd (@write_output demo_externals ["srv"; "out.json"]
                    (codes "[1.5]") "json" writable_world))))
    ["srv"; "out.json"]
  = Some (@json.dumps_indent4 demo_externals float_list_value).
Proof.
  apply (@write_output_idempotent demo_externals ["srv"; "out.json"]
           (codes "[1.5]") float_list_value writable_world); try reflexivity.
  repeat constructor.
Defined.

(** With such a pair among the keys the second writing differs from the
    first. *)
Lemma rewrite_joins_surrogate_keys :
  let w1 := snd (@write_output demo_externals ["srv"; "out.json"]
                   twin_keys_json "json" writable_world) in
  exists first second,
    w_files w1 ["srv"; "out.json"] = Some first /\
    w_files (snd (@write_output demo_externals ["srv"; "out.json"]
                    (codes first) "json" w1)) ["srv"; "out.json"]
      = Some second /\
    first <> second.
Proof.
  cbv zeta. eexists _, _. split; [vm_compute; reflexivity|].
  split; [vm_compute; reflexivity|]. discriminate.
Qed.
